(** * Log ingestion and analytics: a shallow embedding

    This development embeds the two core scripts of the log pipeline,
    [scripts/log_ingestion.py] (class [LogIngestion]) and
    [scripts/log_processor.py] (class [LogProcessor]), and states the
    properties of the pipeline over that embedding.

    Modelling conventions.
    - A Python [str] is a Rocq [string], one [ascii] per character: a
      character is a code point below 256.  The classes [\d], [\w], [\s]
      of the [re] module and the white space of [str.strip] are those of
      Python on these code points (the letters and the numbers above 127
      are word characters, U+0085 and U+00A0 are white space).
    - The content of the log file is its text, and an offset in the file
      is a character index.  The code counts bytes and decodes UTF-8:
      this is the same for 7-bit text ([Text.seven_bit]), which is
      assumed where a statement would not hold of a file that does not
      decode.
    - A Python exception is a value [Raise e] of the [result] type; a
      function that may return [None] returns an [option].
    - [int] on a string of digits is the number that the digits write;
      beyond 4300 digits it raises [ValueError], as CPython does by
      default since 3.11.
    - Floating point numbers of pandas are modelled by exact reals: what
      is stated of a mean, a deviation or a rounded value leaves a margin
      for the rounding of float64, and bounds the numbers where float64
      would lose them.
    - [datetime.strptime] is a library function: the ingestion code is
      parameterised by it, and [PyDatetime.strptime] is an executable
      model of it used to run the code on concrete inputs. *)

From Stdlib Require Import String Ascii List Bool Arith ZArith Lia.
From Stdlib Require Import Reals Lra.
Import ListNotations.

Local Open Scope string_scope.
Local Open Scope list_scope.
Local Open Scope nat_scope.

(* ================================================================== *)
(** * Exceptions and results *)

Inductive exn : Type :=
| ValueError          (* raised by datetime.strptime and by int *)
| KeyError            (* a missing key of a dict *)
| StoreError.         (* any pymongo error raised by insert_many / find *)

Inductive result (A : Type) : Type :=
| Ok (a : A)
| Raise (e : exn).
Arguments Ok {A} a.
Arguments Raise {A} e.

Definition bind {A B} (m : result A) (k : A -> result B) : result B :=
  match m with
  | Ok a => k a
  | Raise e => Raise e
  end.

Notation "x <- m ;; k" := (bind m (fun x => k))
  (at level 61, m at next level, right associativity).

(* ================================================================== *)
(** * Text: characters, classes, and the string operations of the code *)

Module Text.

Definition code (c : ascii) : nat := nat_of_ascii c.

Definition between (lo hi : nat) (c : ascii) : bool :=
  (lo <=? code c) && (code c <=? hi).

(** [\d] *)
Definition is_digit (c : ascii) : bool := between 48 57 c.

(** the characters above 127 that [str.isalnum] accepts: the letters
    (U+00AA, U+00B5, U+00BA, U+00C0 to U+00FF without the two signs
    U+00D7 and U+00F7), the superscripts U+00B2, U+00B3, U+00B9 and the
    fractions U+00BC to U+00BE *)
Definition latin1_alnum (c : ascii) : bool :=
  (code c =? 170) || between 178 179 c || (code c =? 181)
  || between 185 186 c || between 188 190 c
  || between 192 214 c || between 216 246 c || between 248 255 c.

(** [\w] of a [str] pattern: letters, digits and the underscore *)
Definition is_word (c : ascii) : bool :=
  is_digit c || between 65 90 c || between 97 122 c || (code c =? 95)
  || latin1_alnum c.

(** [\s] of a [str] pattern, and the characters removed by
    [str.strip()]: TAB LF VT FF CR, FS GS RS US, the space, U+0085 and
    U+00A0 *)
Definition is_space (c : ascii) : bool :=
  between 9 13 c || between 28 32 c || (code c =? 133) || (code c =? 160).

(** a character that UTF-8 writes as one byte, itself *)
Definition is_seven_bit (c : ascii) : bool := code c <? 128.

Definition LF : ascii := ascii_of_nat 10.
Definition CR : ascii := ascii_of_nat 13.

(** [.] without DOTALL: anything but a line feed *)
Definition not_newline (c : ascii) : bool := negb (code c =? 10).

Definition is_char (a c : ascii) : bool := (code c =? code a).

(** [[\d\-\: \.]] *)
Definition timestamp_char (c : ascii) : bool :=
  is_digit c || is_char "-"%char c || is_char ":"%char c
  || is_char " "%char c || is_char "."%char c.

(** [[\d\.]] *)
Definition ip_char (c : ascii) : bool := is_digit c || is_char "."%char c.

Fixpoint forall_chars (p : ascii -> bool) (s : string) : bool :=
  match s with
  | EmptyString => true
  | String c r => p c && forall_chars p r
  end.

Fixpoint take (n : nat) (s : string) : string :=
  match n, s with
  | S n', String c r => String c (take n' r)
  | _, _ => EmptyString
  end.

Fixpoint drop (n : nat) (s : string) : string :=
  match n, s with
  | S n', String c r => drop n' r
  | _, _ => s
  end.

(** number of leading characters of [s] in the class [p] *)
Fixpoint span_len (p : ascii -> bool) (s : string) : nat :=
  match s with
  | String c r => if p c then S (span_len p r) else 0
  | EmptyString => 0
  end.

(** [s] without the prefix [l], when it starts with [l] *)
Fixpoint strip_prefix (l s : string) : option string :=
  match l, s with
  | EmptyString, _ => Some s
  | String a l', String c s' =>
      if Ascii.eqb a c then strip_prefix l' s' else None
  | String _ _, EmptyString => None
  end.

Definition lstrip (s : string) : string := drop (span_len is_space s) s.

Fixpoint rstrip (s : string) : string :=
  match s with
  | EmptyString => EmptyString
  | String c r =>
      match rstrip r with
      | EmptyString => if is_space c then EmptyString else String c EmptyString
      | r' => String c r'
      end
  end.

(** [str.strip()] *)
Definition strip (s : string) : string := rstrip (lstrip s).

(** the number that decimal digits write *)
Definition digit_value (c : ascii) : Z := Z.of_nat (code c - 48).

Fixpoint int_acc (acc : Z) (s : string) : Z :=
  match s with
  | EmptyString => acc
  | String c r => int_acc (10 * acc + digit_value c) r
  end.

Definition digits_value (s : string) : Z := int_acc 0 s.

(** [sys.get_int_max_str_digits()] *)
Definition int_max_str_digits : nat := 4300.

Definition all_digits (s : string) : bool :=
  match s with
  | EmptyString => false
  | String _ _ => forall_chars is_digit s
  end.

(** [int(s)] on what [\d+] matched, a non-empty string of decimal digits:
    the conversion of more than 4300 digits raises [ValueError].  (On the
    other strings that the code never passes, a sign, white space or
    underscores apart, [int] raises [ValueError] too.) *)
Definition int (s : string) : result Z :=
  if all_digits s && (String.length s <=? int_max_str_digits)
  then Ok (digits_value s)
  else Raise ValueError.

(** 7-bit text: the bytes of the file are its characters *)
Definition seven_bit (s : string) : bool := forall_chars is_seven_bit s.

(** Text mode with [newline=None]: CR LF and a lone CR read as LF. *)
Fixpoint universal_newlines (s : string) : string :=
  match s with
  | EmptyString => EmptyString
  | String c r =>
      if Ascii.eqb c CR then
        match r with
        | String c' r' =>
            if Ascii.eqb c' LF then universal_newlines r
            else String LF (universal_newlines r)
        | EmptyString => String LF EmptyString
        end
      else String c (universal_newlines r)
  end.

(** A text made of whole lines: it is empty or ends with LF. *)
Fixpoint complete (s : string) : bool :=
  match s with
  | EmptyString => true
  | String c EmptyString => Ascii.eqb c LF
  | String _ r => complete r
  end.

(** Lines of a text, each with its terminating LF; the last one has none
    when the text does not end with LF. *)
Fixpoint split_lines (s : string) : list string :=
  match s with
  | EmptyString => []
  | String c r =>
      if Ascii.eqb c LF then String c EmptyString :: split_lines r
      else match split_lines r with
           | [] => [String c EmptyString]
           | l :: ls => String c l :: ls
           end
  end.

End Text.

(* ================================================================== *)
(** * The fragment of [re] used by the parser

    The pattern of [parse_log_line] is a concatenation of literals and of
    greedy repetitions [C+] of a character class, some of them named
    groups.  [re.match] anchors the pattern at the start of the string and
    backtracks: a repetition first takes the longest run and gives
    characters back one at a time while the rest of the pattern fails. *)

Module Regex.
Import Text.

Inductive item : Type :=
| Lit (l : string)                              (* literal text *)
| Plus (g : option string) (cls : ascii -> bool). (* [C+] or [(?P<g>C+)] *)

(** [match.groupdict()], in the order of the groups *)
Definition groupdict : Type := list (string * string).

Definition record (g : option string) (w : string) (d : groupdict)
  : groupdict :=
  match g with
  | Some name => (name, w) :: d
  | None => d
  end.

(** Try the run lengths [n], [n-1], ..., [1] for a repetition followed by
    the continuation [k]. *)
Fixpoint try_spans (k : string -> option groupdict) (g : option string)
    (s : string) (n : nat) : option groupdict :=
  match n with
  | 0 => None
  | S n' =>
      match k (drop n s) with
      | Some d => Some (record g (take n s) d)
      | None => try_spans k g s n'
      end
  end.

Fixpoint match_items (p : list item) (s : string) : option groupdict :=
  match p with
  | [] => Some []
  | Lit l :: p' =>
      match strip_prefix l s with
      | Some s' => match_items p' s'
      | None => None
      end
  | Plus g cls :: p' => try_spans (match_items p') g s (span_len cls s)
  end.

(** [matches p s d]: [s] starts with a text that the pattern [p]
    describes, [d] being the named groups of that text.  Of all such
    texts [re.match] finds the one that [match_items] computes. *)
Inductive matches : list item -> string -> groupdict -> Prop :=
| matches_nil s : matches [] s []
| matches_lit l p s d :
    matches p s d -> matches (Lit l :: p) (l ++ s)%string d
| matches_plus g cls p w s d :
    w <> EmptyString -> forall_chars cls w = true -> matches p s d ->
    matches (Plus g cls :: p) (w ++ s)%string (record g w d).

(** [data[key]] *)
Fixpoint getitem (d : groupdict) (key : string) : result string :=
  match d with
  | [] => Raise KeyError
  | (k, v) :: d' => if String.eqb k key then Ok v else getitem d' key
  end.

End Regex.

(* ================================================================== *)
(** * [datetime] values and a model of [datetime.strptime]

    [strptime s] models
    [datetime.strptime(s, '%Y-%m-%d %H:%M:%S.%f')].  The library turns the
    format into the regular expression
    [(\d\d\d\d)-(1[0-2]|0[1-9]|[1-9])-(3[01]|[12]\d|0[1-9]|[1-9]| [1-9])\s+(2[0-3]|[0-1]\d|\d):([0-5]\d|\d):(6[0-1]|[0-5]\d|\d)\.([0-9]{1,6})],
    requires it to match the whole string, and builds a [datetime], whose
    constructor checks the ranges of the fields.  Every failure is a
    [ValueError]. *)

Module PyDatetime.
Import Text.

Record datetime : Type := mkDatetime {
  year : Z; month : Z; day : Z;
  hour : Z; minute : Z; second : Z; microsecond : Z
}.

Local Open Scope Z_scope.

Local Notation "x <-? m ; k" :=
  (match m with Some x => k | None => None end)
  (at level 61, m at next level, right associativity).
Local Notation "' p <-? m ; k" :=
  (match m with Some p => k | None => None end)
  (at level 61, p pattern, m at next level, right associativity).

Definition digit (c : ascii) : option Z :=
  if is_digit c then Some (digit_value c) else None.

(** [\d\d\d\d] *)
Definition read_year (s : string) : option (Z * string) :=
  match s with
  | String a (String b (String c (String d r))) =>
      match digit a, digit b, digit c, digit d with
      | Some x, Some y, Some z, Some w =>
          Some (1000 * x + 100 * y + 10 * z + w, r)
      | _, _, _, _ => None
      end
  | _ => None
  end.

(** An alternation whose first branches are two digits ([ok2]) and whose
    last branch is one digit ([ok1]).  What follows it in the pattern
    never starts with a digit, so the branch taken is the first one that
    matches. *)
Definition read_field (ok2 : Z -> Z -> bool) (ok1 : Z -> bool)
    (s : string) : option (Z * string) :=
  match s with
  | String a r =>
      match digit a with
      | Some x =>
          let one := if ok1 x then Some (x, r) else None in
          match r with
          | String b r' =>
              match digit b with
              | Some y => if ok2 x y then Some (10 * x + y, r') else one
              | None => one
              end
          | EmptyString => one
          end
      | None => None
      end
  | EmptyString => None
  end.

Definition expect (l : string) (s : string) : option string :=
  strip_prefix l s.

(** [1[0-2]|0[1-9]|[1-9]] *)
Definition read_month : string -> option (Z * string) :=
  read_field (fun x y => ((x =? 1) && (y <=? 2)) || ((x =? 0) && (1 <=? y)))
             (fun x => 1 <=? x).

(** [3[01]|[12]\d|0[1-9]|[1-9]| [1-9]] *)
Definition read_day (s : string) : option (Z * string) :=
  match s with
  | String c (String b r) =>
      if is_char " "%char c then
        match digit b with
        | Some y => if 1 <=? y then Some (y, r) else None
        | None => None
        end
      else
        read_field (fun x y => ((x =? 3) && (y <=? 1))
                               || ((1 <=? x) && (x <=? 2))
                               || ((x =? 0) && (1 <=? y)))
                   (fun x => 1 <=? x) s
  | _ =>
      read_field (fun _ _ => false) (fun x => 1 <=? x) s
  end.

(** [2[0-3]|[0-1]\d|\d] *)
Definition read_hour : string -> option (Z * string) :=
  read_field (fun x y => ((x =? 2) && (y <=? 3)) || (x <=? 1))
             (fun _ => true).

(** [[0-5]\d|\d] *)
Definition read_minute : string -> option (Z * string) :=
  read_field (fun x _ => x <=? 5) (fun _ => true).

(** [6[0-1]|[0-5]\d|\d] *)
Definition read_second : string -> option (Z * string) :=
  read_field (fun x y => ((x =? 6) && (y <=? 1)) || (x <=? 5))
             (fun _ => true).

(** [\s+] *)
Definition read_spaces (s : string) : option string :=
  match span_len is_space s with
  | O => None
  | n => Some (drop n s)
  end.

(** [[0-9]{1,6}], padded with zeros on the right to six digits *)
Definition read_fraction (s : string) : option (Z * string) :=
  let n := Nat.min 6 (span_len is_digit s) in
  match n with
  | O => None
  | _ => Some (digits_value (take n s) * 10 ^ Z.of_nat (6 - n), drop n s)
  end.

Definition is_leap (y : Z) : bool :=
  ((y mod 4 =? 0) && negb (y mod 100 =? 0)) || (y mod 400 =? 0).

Definition days_in_month (y m : Z) : Z :=
  match m with
  | 2 => if is_leap y then 29 else 28
  | 4 | 6 | 9 | 11 => 30
  | _ => 31
  end.

(** the range checks of the [datetime] constructor *)
Definition valid (d : datetime) : bool :=
  (1 <=? year d) && (year d <=? 9999)
  && (1 <=? month d) && (month d <=? 12)
  && (1 <=? day d) && (day d <=? days_in_month (year d) (month d))
  && (hour d <=? 23) && (minute d <=? 59) && (second d <=? 59)
  && (microsecond d <=? 999999).

(** The match of the whole string against the expression. *)
Definition scan (s : string) : option datetime :=
  '(Y, s) <-? read_year s ;
  s <-? expect "-" s ;
  '(m, s) <-? read_month s ;
  s <-? expect "-" s ;
  '(d, s) <-? read_day s ;
  s <-? read_spaces s ;
  '(H, s) <-? read_hour s ;
  s <-? expect ":" s ;
  '(M, s) <-? read_minute s ;
  s <-? expect ":" s ;
  '(sec, s) <-? read_second s ;
  s <-? expect "." s ;
  '(f, s) <-? read_fraction s ;
  match s with
  | EmptyString => Some (mkDatetime Y m d H M sec f)
  | String _ _ => None            (* unconverted data remains *)
  end.

Definition strptime (s : string) : result datetime :=
  match scan s with
  | Some d => if valid d then Ok d else Raise ValueError
  | None => Raise ValueError
  end.

End PyDatetime.

(* ================================================================== *)
(** * [scripts/log_ingestion.py]: class [LogIngestion] *)

Module Ingestion.
Import Text Regex.
Export PyDatetime.

(** The document built by [parse_log_line] and stored in the collection:
    the group dictionary of the match, with [timestamp] and
    [response_time] converted and [ingestion_time] added. *)
Record LogDoc : Type := mkLogDoc {
  timestamp : datetime;
  level : string;
  service : string;
  user_id : string;
  ip_address : string;
  response_time : Z;
  message : string;
  ingestion_time : datetime
}.

(** The pattern of [parse_log_line], item by item. *)
Definition pattern : list item :=
  [ Plus (Some "timestamp") timestamp_char; Lit " | ";
    Plus (Some "level") is_word; Plus None is_space; Lit "| ";
    Plus (Some "service") is_word; Plus None is_space; Lit "| ";
    Lit "UserID: "; Plus (Some "user_id") is_word; Lit " | ";
    Lit "IP: "; Plus (Some "ip_address") ip_char; Plus None is_space;
    Lit "| ";
    Lit "ResponseTime: "; Plus (Some "response_time") is_digit;
    Lit "ms | ";
    Lit "Message: "; Plus (Some "message") not_newline ].

(** [re.match(pattern, line)] *)
Definition re_match (line : string) : option groupdict :=
  match_items pattern line.

(** The fields of a line of the grammar, with the white space that
    follows the three padded fields. *)
Record Fields : Type := mkFields {
  f_timestamp : string;
  f_level : string;          pad_level : string;
  f_service : string;        pad_service : string;
  f_user_id : string;
  f_ip_address : string;     pad_ip_address : string;
  f_response_time : string;
  f_message : string
}.

Definition nonempty (s : string) : bool :=
  match s with
  | EmptyString => false
  | String _ _ => true
  end.

Definition run_of (cls : ascii -> bool) (s : string) : bool :=
  nonempty s && forall_chars cls s.

(** Every field is a non-empty run of the class that the pattern gives
    it. *)
Definition well_formed (f : Fields) : bool :=
  run_of timestamp_char (f_timestamp f)
  && run_of is_word (f_level f) && run_of is_space (pad_level f)
  && run_of is_word (f_service f) && run_of is_space (pad_service f)
  && run_of is_word (f_user_id f)
  && run_of ip_char (f_ip_address f) && run_of is_space (pad_ip_address f)
  && run_of is_digit (f_response_time f)
  && run_of not_newline (f_message f).

(** The line with these fields. *)
Definition line_of (f : Fields) : string :=
  (f_timestamp f ++ " | "
   ++ f_level f ++ pad_level f ++ "| "
   ++ f_service f ++ pad_service f ++ "| "
   ++ "UserID: " ++ f_user_id f ++ " | "
   ++ "IP: " ++ f_ip_address f ++ pad_ip_address f ++ "| "
   ++ "ResponseTime: " ++ f_response_time f ++ "ms | "
   ++ "Message: " ++ f_message f)%string.

(** The group dictionary of the line with these fields. *)
Definition groups_of (f : Fields) : groupdict :=
  [ ("timestamp", f_timestamp f); ("level", f_level f);
    ("service", f_service f); ("user_id", f_user_id f);
    ("ip_address", f_ip_address f);
    ("response_time", f_response_time f); ("message", f_message f) ].

(** The five levels of the record model. *)
Definition levels : list string :=
  ["DEBUG"; "INFO"; "WARNING"; "ERROR"; "CRITICAL"].

(** The bulk write of one cycle either succeeds or raises after some of
    the documents were written. *)
Inductive write_outcome : Type :=
| WriteOk
| WriteFails (written : nat).

(** What a cycle finds outside the process.  The file is absent, or it
    is opened and read as text: a file that cannot be opened for another
    reason, or whose bytes are no UTF-8, makes [open] or [readlines]
    raise, which no world describes.  Bytes and characters are the same
    for 7-bit text. *)
Record World : Type := mkWorld {
  log_file : option string;    (* text of the file, [None] if absent *)
  now : nat -> datetime;       (* [datetime.now()] at the i-th line read *)
  store : write_outcome        (* how [insert_many] will end *)
}.

(** The state of a [LogIngestion] object that a cycle reads and writes. *)
Record LogIngestion : Type := mkLogIngestion {
  collection : list LogDoc;    (* the documents of the collection *)
  last_position : nat
}.

(** the lines printed by a cycle *)
Inductive printed : Type :=
| Ingested (n : nat)           (* "Ingested {n} log entries" *)
| LogFileNotFound              (* "Log file not found: ..." *)
| ErrorIngesting (e : exn).    (* "Error ingesting logs: {e}" *)

(** [f.seek(pos)] followed by [f.readlines()], on a file that decodes *)
Definition readlines (content : string) (pos : nat) : list string :=
  split_lines (universal_newlines (drop pos content)).

(** [f.tell()] after [f.seek(pos)] and [f.readlines()]: the end of the
    file, or [pos] when the file is shorter than [pos] *)
Definition tell (content : string) (pos : nat) : nat :=
  Nat.max pos (String.length content).

(** [collection.insert_many(docs)] *)
Definition insert_many (w : World) (coll : list LogDoc)
    (docs : list LogDoc) : list LogDoc * result unit :=
  match store w with
  | WriteOk => (coll ++ docs, Ok tt)
  | WriteFails k => (coll ++ firstn k docs, Raise StoreError)
  end.

Section WithStrptime.

(** [datetime.strptime(_, '%Y-%m-%d %H:%M:%S.%f')] *)
Variable strptime : string -> result datetime.

Definition parse_log_line (now : datetime) (line : string)
  : result (option LogDoc) :=
  match re_match line with
  | Some data =>
      ts <- getitem data "timestamp" ;;
      ts <- strptime ts ;;
      lv <- getitem data "level" ;;
      sv <- getitem data "service" ;;
      us <- getitem data "user_id" ;;
      ip <- getitem data "ip_address" ;;
      rt <- getitem data "response_time" ;;
      rt <- int rt ;;
      ms <- getitem data "message" ;;
      Ok (Some (mkLogDoc ts lv sv us ip rt ms now))
  | None => Ok None
  end.

(** The loop [for line in lines]: [i] is the index of the first line
    of [lines] in the batch, [parsed_logs] the documents appended so
    far.  An exception leaves the loop. *)
Fixpoint parse_loop (w : World) (i : nat) (lines : list string)
    (parsed_logs : list LogDoc) : result (list LogDoc) :=
  match lines with
  | [] => Ok parsed_logs
  | line :: rest =>
      let line := strip line in
      match line with
      | EmptyString => parse_loop w (S i) rest parsed_logs
      | _ =>
          parsed_log <- parse_log_line (now w i) line ;;
          match parsed_log with
          | Some doc => parse_loop w (S i) rest (parsed_logs ++ [doc])
          | None => parse_loop w (S i) rest parsed_logs
          end
      end
  end.

(** The body of the [with] block: the new collection, and either the
    position to store in [last_position] with what was printed, or the
    exception that left the block. *)
Definition ingest_body (w : World) (self : LogIngestion)
    (content : string)
  : list LogDoc * result (nat * list printed) :=
  let lines := readlines content (last_position self) in
  match lines with
  | [] => (collection self, Ok (tell content (last_position self), []))
  | _ =>
      match parse_loop w 0 lines [] with
      | Raise e => (collection self, Raise e)
      | Ok [] =>
          (collection self, Ok (tell content (last_position self), []))
      | Ok parsed_logs =>
          match insert_many w (collection self) parsed_logs with
          | (coll, Raise e) => (coll, Raise e)
          | (coll, Ok _) =>
              (coll, Ok (tell content (last_position self),
                         [Ingested (List.length parsed_logs)]))
          end
      end
  end.

(** The cycle ran to the end of the [with] block. *)
Definition completed (out : list printed) : bool :=
  match out with
  | [] | [Ingested _] => true
  | _ => false
  end.

(** One call of [ingest_logs]: the new state and what was printed.
    Both [except] clauses print and return, so [last_position] keeps
    its value when the block is left by an exception. *)
Definition ingest_logs (w : World) (self : LogIngestion)
  : LogIngestion * list printed :=
  match log_file w with
  | None => (self, [LogFileNotFound])
  | Some content =>
      match ingest_body w self content with
      | (coll, Ok (pos, out)) => (mkLogIngestion coll pos, out)
      | (coll, Raise e) =>
          (mkLogIngestion coll (last_position self), [ErrorIngesting e])
      end
  end.

(** [start_continuous_ingestion]: the cycles run one after the other,
    each in the world it finds. *)
Fixpoint run_cycles (ws : list World) (self : LogIngestion)
  : LogIngestion :=
  match ws with
  | [] => self
  | w :: ws' => run_cycles ws' (fst (ingest_logs w self))
  end.

End WithStrptime.

End Ingestion.


(* ================================================================== *)
(** * [scripts/log_processor.py]: class [LogProcessor]

    A pandas [DataFrame] built from the documents of a query is the list
    of these documents, in the order of the query; a column is the list of
    one field.  The documents are those written by [ingest_logs], so all
    their columns are present and none of their values is null.  The
    floating point values of pandas are exact reals here. *)

Module Processor.
Import Ingestion.

Local Open Scope R_scope.

Definition DataFrame : Type := list LogDoc.

(** ** Series operations *)

Definition total (xs : list Z) : Z := fold_right Z.add 0%Z xs.

(** [Series.mean()], as an exact number.  pandas adds the values in
    float64 and divides: its mean is the float64 nearest to this one as
    long as the sums are exact ([exact_sums] below). *)
Definition mean (xs : list Z) : R :=
  IZR (total xs) / INR (length xs).

(** sum of the squared deviations from the mean *)
Definition sum_sq_dev (xs : list Z) : R :=
  fold_right (fun x acc => (IZR x - mean xs) * (IZR x - mean xs) + acc) 0 xs.

(** [Series.std()], as an exact number: pandas divides by [n - 1] (its
    default [ddof=1]) *)
Definition std (xs : list Z) : R :=
  sqrt (sum_sq_dev xs / (INR (length xs) - 1)).

Definition Rgtb (x y : R) : bool := if Rgt_dec x y then true else false.

(** nearest integer, ties to the even one *)
Definition round_half_even (y : R) : Z :=
  let f := Int_part y in
  if Rlt_dec (y - IZR f) (1 / 2) then f
  else if Rlt_dec (1 / 2) (y - IZR f) then (f + 1)%Z
  else if Z.even f then f else (f + 1)%Z.

(** [round(x, 2)] of an exact number.  The code rounds a float64: its
    result is within 0.005 of that float64, and may be the other
    neighbour when [x] is half-way between two hundredths. *)
Definition round2 (x : R) : R := IZR (round_half_even (x * 100)) / 100.

(** [Series.max()], [Series.min()] of a non-empty column *)
Definition maximum (x : Z) (xs : list Z) : Z := fold_right Z.max x xs.
Definition minimum (x : Z) (xs : list Z) : Z := fold_right Z.min x xs.

(** [Series.value_counts().to_dict()]: the number of occurrences of each
    value, the most frequent first, values of equal count in the order of
    their first occurrence (a stable sort, as pandas does on a short
    table; the statements leave the order of equal counts open) *)
Fixpoint add_count (v : string) (cs : list (string * nat))
  : list (string * nat) :=
  match cs with
  | [] => [(v, 1%nat)]
  | (k, n) :: cs' =>
      if String.eqb k v then (k, S n) :: cs' else (k, n) :: add_count v cs'
  end.

Fixpoint insert_by_count (e : string * nat) (cs : list (string * nat))
  : list (string * nat) :=
  match cs with
  | [] => [e]
  | c :: cs' =>
      if (snd c <=? snd e)%nat then e :: c :: cs'
      else c :: insert_by_count e cs'
  end.

Definition value_counts (col : list string) : list (string * nat) :=
  fold_right insert_by_count []
    (fold_left (fun cs v => add_count v cs) col []).

(** [df[df['level'] == v]] and [df[df['level'].isin(vs)]] *)
Definition with_level (v : string) (df : DataFrame) : DataFrame :=
  filter (fun d => String.eqb (level d) v) df.

Definition with_level_in (vs : list string) (df : DataFrame) : DataFrame :=
  filter (fun d => existsb (String.eqb (level d)) vs) df.

(** ** The result types *)

Record Stats : Type := mkStats {
  total_logs : nat;
  log_levels : list (string * nat);
  services : list (string * nat);
  avg_response_time : option R;
  max_response_time : option Z;
  min_response_time : option Z;
  error_count : nat;
  stats_timestamp : datetime
}.

(** An entry of the list returned by [detect_anomalies]; the constructor
    is its ['type']. *)
Inductive Anomaly : Type :=
| HighResponseTime (count : nat) (threshold : R) (avg_value : R)
| HighErrorRate (rate : R) (count : nat).

Definition anomaly_type (a : Anomaly) : string :=
  match a with
  | HighResponseTime _ _ _ => "High Response Time"
  | HighErrorRate _ _ => "High Error Rate"
  end.

(** The comparison [x > mean + 2 * std] of the rule, decided in integers.
    With [n] the number of values, [n * (x - mean)] is the integer
    [deviation xs x], and the comparison holds when that integer is
    positive and [(n - 1)] times its square exceeds four times the sum of
    the squared deviations of the values. *)
Definition deviation (xs : list Z) (x : Z) : Z :=
  (Z.of_nat (length xs) * x - total xs)%Z.

Definition above_threshold (xs : list Z) (x : Z) : bool :=
  let d := deviation xs x in
  let q := fold_right (fun y acc => deviation xs y * deviation xs y + acc)%Z
             0%Z xs in
  ((0 <? d) && (4 * q <? (Z.of_nat (length xs) - 1) * (d * d)))%Z.

Definition is_type (t : string) (a : Anomaly) : bool :=
  String.eqb (anomaly_type a) t.


Section WithStore.

(** [list(self.collection.find({'timestamp': {'$gte': start_time}},
    {'_id': 0}))] for [start_time] the given number of hours before
    now: the documents found, or the exception raised. *)
Variable find : nat -> result (list LogDoc).

(** [datetime.now()] *)
Variable now : datetime.

Definition get_logs_dataframe (hours : nat) : DataFrame :=
  match find hours with
  | Raise _ => []
  | Ok logs => logs
  end.

Definition calculate_statistics : option Stats :=
  let df := get_logs_dataframe 1 in
  match df with
  | [] => None
  | d :: _ =>
      let rts := map response_time df in
      Some (mkStats
              (length df)
              (value_counts (map level df))
              (value_counts (map service df))
              (Some (mean rts))
              (Some (maximum (response_time d) rts))
              (Some (minimum (response_time d) rts))
              (length (with_level_in ["ERROR"; "CRITICAL"] df))
              now)
  end.

(** [avg_response + (2 * std_response)] *)
Definition threshold (rts : list Z) : R := mean rts + 2 * std rts.

(** [df[df['response_time'] > threshold]], with the exact threshold *)
Definition slow_requests (df : DataFrame) : DataFrame :=
  filter (fun d => Rgtb (IZR (response_time d))
                        (threshold (map response_time df))) df.

(** [(len(df[df['level'] == 'ERROR']) / len(df)) * 100] *)
Definition error_rate (df : DataFrame) : R :=
  INR (length (with_level "ERROR" df)) / INR (length df) * 100.

(** The entry appended under [# High response time anomaly], if any.
    The column has no null value, so [notnull().any()] holds, and
    [std() or 0] is [std()]. *)
Definition response_time_part (df : DataFrame) : list Anomaly :=
  let threshold := threshold (map response_time df) in
  let slow_requests := slow_requests df in
  if (0 <? length slow_requests)%nat then
    [HighResponseTime (length slow_requests)
       (round2 threshold)
       (round2 (mean (map response_time slow_requests)))]
  else [].

(** The entry appended under [# High error rate anomaly], if any. *)
Definition error_rate_part (df : DataFrame) : list Anomaly :=
  let error_rate := error_rate df in
  if Rgtb error_rate 15 then
    [HighErrorRate (round2 error_rate) (length (with_level "ERROR" df))]
  else [].

Definition detect_anomalies : list Anomaly :=
  let df := get_logs_dataframe 1 in
  if (length df <? 10)%nat then []
  else (response_time_part df ++ error_rate_part df)%list.

End WithStore.

(** ** Where float64 follows the exact numbers

    The numbers above are exact; pandas computes them in float64.  The
    statements that depend on the difference are made on the windows
    below, where the difference is small. *)

(** the integers up to which every integer is a float64 *)
Definition float64_exact_max : Z := (2 ^ 53)%Z.

(** sums of these integers, in whatever order, are exact in float64 *)
Definition exact_sums (xs : list Z) : bool :=
  (total (map Z.abs xs) <=? float64_exact_max)%Z.



End Processor.

(* ================================================================== *)
(** * Sample inputs *)

Module Samples.
Import Ingestion.

Definition clock : datetime := mkDatetime 2024 1 15 10 24 0 0.

(** A line as [log_generator.py] writes it. *)
Definition info_fields : Fields :=
  mkFields "2024-01-15 10:23:45.123"
           "INFO" "     "
           "AuthService" "          "
           "USER_1234"
           "192.168.1.1" "     "
           "120"
           "User logged in successfully".

(** The same line with a level that is not one of the five. *)
Definition trace_line : string :=
  "2024-01-15 10:23:45.123 | TRACE    | AuthService          | UserID: USER_1234 | IP: 192.168.1.1     | ResponseTime: 120ms | Message: Cache updated".

Definition newline : string := String Text.LF EmptyString.

Definition info_line : string := line_of info_fields.

Definition info_doc : LogDoc :=
  mkLogDoc (mkDatetime 2024 1 15 10 23 45 123000)
    "INFO" "AuthService" "USER_1234" "192.168.1.1" 120
    "User logged in successfully" clock.

(** A line of the grammar whose time field is not a time. *)
Definition bad_time_fields : Fields :=
  mkFields "2024-13-45 99:99:99.000"
           "ERROR" "    "
           "PaymentService" "       "
           "USER_4321"
           "10.0.0.7" "        "
           "3100"
           "Connection timeout".

Definition bad_time_line : string := line_of bad_time_fields.



(** A line whose level has a letter that is not of the 7-bit range:
    ERR, U+00D6, R. *)
Definition umlaut_level : string :=
  ("ERR" ++ String (ascii_of_nat 214) "R")%string.

Definition umlaut_line : string :=
  ("2024-01-15 10:23:45.123 | " ++ umlaut_level
   ++ "    | AuthService          | UserID: USER_1234 | IP: 192.168.1.1     | ResponseTime: 120ms | Message: Cache updated")%string.

(** A line that does not match the pattern. *)
Definition garbage_line : string := "*** log rotated ***".

(** The start of a line, as a reader sees it while it is being written. *)
Definition partial_line : string :=
  "2024-01-15 10:23:46.500 | ERROR    | PaymentService       | UserID: USER_4321 | IP: 10.0.0.7        | ResponseTime: 3100ms | Message: Connection ti".

Definition partial_doc : LogDoc :=
  mkLogDoc (mkDatetime 2024 1 15 10 23 46 500000)
    "ERROR" "PaymentService" "USER_4321" "10.0.0.7" 3100
    "Connection ti" clock.

Definition world (content : string) (st : write_outcome) : World :=
  mkWorld (Some content) (fun _ => clock) st.

Definition fresh : LogIngestion := mkLogIngestion [] 0.

Definition doc_of (lv : string) (rt : Z) : LogDoc :=
  mkLogDoc clock lv "AuthService" "USER_1234" "192.168.1.1" rt
    "Request completed" clock.

(** The ten response times of the latency example. *)
Definition latencies : list Z :=
  [100; 100; 100; 100; 100; 100; 100; 100; 100; 5000]%Z.

Definition latency_window : list LogDoc := map (doc_of "INFO") latencies.

(** Twenty documents, four of them of level ERROR. *)
Definition error_window : list LogDoc :=
  (repeat (doc_of "ERROR" 100) 4 ++ repeat (doc_of "INFO" 100) 16)%list.


(** A store whose query returns the given documents. *)
Definition found (docs : list LogDoc) : nat -> result (list LogDoc) :=
  fun _ => Ok docs.

End Samples.


From Stdlib Require Import Sorted Permutation.

(* ================================================================== *)
(** * [scripts/log_processor.py]: peak hours, frequent errors, report

    [Series.value_counts()] counts the values in a hash table that keeps
    them in the order of their first occurrence, and sorts the counts in
    decreasing order.  The order that the sort of pandas gives to equal
    counts is not fixed here: the sort is a parameter, of which the
    theorems assume that it permutes its argument into decreasing
    counts. *)

Module Reports.
Import Ingestion Processor.

Section Counting.

Context {K : Type} (eqb : K -> K -> bool).

Fixpoint bump (v : K) (cs : list (K * nat)) : list (K * nat) :=
  match cs with
  | [] => [(v, 1)]
  | (k, n) :: cs' =>
      if eqb k v then (k, S n) :: cs' else (k, n) :: bump v cs'
  end.

(** the counts, in the order of first occurrence *)
Definition counts (col : list K) : list (K * nat) :=
  fold_left (fun cs v => bump v cs) col [].

(** a sort by decreasing count: insertion, as in [Processor.value_counts] *)
Fixpoint insert_desc (e : K * nat) (cs : list (K * nat)) : list (K * nat) :=
  match cs with
  | [] => [e]
  | c :: cs' =>
      if snd c <=? snd e then e :: c :: cs' else c :: insert_desc e cs'
  end.

Definition sort_desc (cs : list (K * nat)) : list (K * nat) :=
  fold_right insert_desc [] cs.

(** the count recorded for [k] in a table, 0 if there is none *)
Fixpoint get (cs : list (K * nat)) (k : K) : nat :=
  match cs with
  | [] => 0
  | (k', n) :: cs' => if eqb k' k then n else get cs' k
  end.

(** the number of occurrences of [k] in a column *)
Definition occurrences (k : K) (col : list K) : nat :=
  length (filter (fun v => eqb v k) col).

End Counting.

(** the counts are in decreasing order *)
Definition descending {K : Type} (cs : list (K * nat)) : Prop :=
  StronglySorted (fun a b => snd b <= snd a) cs.

(** what is assumed of the sort of pandas *)
Definition sorts_by_count
    (sort_values : forall K : Type, list (K * nat) -> list (K * nat)) : Prop :=
  forall (K : Type) (cs : list (K * nat)),
    Permutation (sort_values K cs) cs /\ descending (sort_values K cs).

(** [Series.sort_index()] on a column of hours *)
Fixpoint insert_by_index (e : Z * nat) (cs : list (Z * nat))
  : list (Z * nat) :=
  match cs with
  | [] => [e]
  | c :: cs' =>
      if (fst e <=? fst c)%Z then e :: c :: cs'
      else c :: insert_by_index e cs'
  end.

Definition sort_index (cs : list (Z * nat)) : list (Z * nat) :=
  fold_right insert_by_index [] cs.

Record Report : Type := mkReport {
  generated_at : datetime;
  statistics : option Stats;
  anomalies : list Anomaly;
  peak_hours : list (Z * nat);
  frequent_errors : list (string * nat)
}.

(** the line printed by [generate_report] *)
Inductive report_printed : Type :=
| ReportGenerated        (* "Report generated successfully: ..." *)
| FailedToSave.          (* "Failed to save report: ..." *)

Section WithPandas.

Variable sort_values : forall K : Type, list (K * nat) -> list (K * nat).

(** [Series.value_counts()] *)
Definition value_counts_by {K : Type} (eqb : K -> K -> bool) (col : list K)
  : list (K * nat) :=
  sort_values K (counts eqb col).

Section WithStore.

Variable find : nat -> result (list LogDoc).

(** [df['hour'] = pd.to_datetime(df['timestamp']).dt.hour] *)
Definition hours_of (df : DataFrame) : list Z :=
  map (fun d => hour (timestamp d)) df.

Definition get_peak_hours : list (Z * nat) :=
  let df := get_logs_dataframe find 24 in
  match df with
  | [] => []
  | _ =>
      let hourly_counts := sort_index (value_counts_by Z.eqb (hours_of df)) in
      hourly_counts
  end.

Definition get_frequent_errors (top_n : nat) : list (string * nat) :=
  let df := get_logs_dataframe find 24 in
  match df with
  | [] => []
  | _ =>
      let error_df := with_level_in ["ERROR"; "CRITICAL"] df in
      match error_df with
      | [] => []
      | _ =>
          let error_counts :=
            firstn top_n (value_counts_by String.eqb (map message error_df)) in
          error_counts
      end
  end.

End WithStore.

(** [generate_report]: [store i] is the collection as the i-th of the
    four queries finds it, [clock i] the i-th reading of the clock, and
    [can_save] tells whether the report file can be written.  The report
    is returned in both cases. *)
Definition generate_report (store : nat -> nat -> result (list LogDoc))
    (clock : nat -> datetime) (can_save : bool) : Report * report_printed :=
  let stats := calculate_statistics (store 0) (clock 0) in
  let anomalies := detect_anomalies (store 1) in
  let peak_hours := get_peak_hours (store 2) in
  let frequent_errors := get_frequent_errors (store 3) 5 in
  let report := mkReport (clock 1) stats anomalies peak_hours frequent_errors in
  (report, if can_save then ReportGenerated else FailedToSave).

End WithPandas.

End Reports.

(* ================================================================== *)
(** * [scripts/log_generator.py]: class [LogGenerator]

    The random choices of [generate_log_entry] are its arguments: a
    [Draws] value holds what [random] and [Faker] returned, and
    [possible] tells which values they can return. *)

Module Generator.
Import Text Ingestion.

Local Open Scope Z_scope.

Definition log_levels : list string :=
  ["INFO"; "WARNING"; "ERROR"; "DEBUG"; "CRITICAL"].

Definition services : list string :=
  ["AuthService"; "PaymentService"; "UserService"; "NotificationService";
   "DatabaseService"].

Definition error_messages : list string :=
  ["Connection timeout"; "Invalid credentials"; "Database connection failed";
   "Memory limit exceeded"; "Null pointer exception"; "Service unavailable";
   "Rate limit exceeded"].

Definition info_messages : list string :=
  ["User logged in successfully"; "Payment processed"; "Email sent";
   "Cache updated"; "Request completed"].

Definition digit_char (d : Z) : ascii := ascii_of_nat (48 + Z.to_nat d).

(** [str(n)] for an integer [n >= 0]: its decimal digits.  [fuel] bounds
    the number of digits. *)
Fixpoint str_digits (fuel : nat) (n : Z) : string :=
  match fuel with
  | O => EmptyString
  | S fuel' =>
      if n <? 10 then String (digit_char n) EmptyString
      else (str_digits fuel' (n / 10)
            ++ String (digit_char (n mod 10)) EmptyString)%string
  end.

Definition str (n : Z) : string := str_digits (S (Z.to_nat n)) n.

Fixpoint fill (c : ascii) (n : nat) : string :=
  match n with
  | O => EmptyString
  | S n' => String c (fill c n')
  end.

(** [f"{s:width}"]: a string is padded with spaces on the right *)
Definition ljust (width : nat) (s : string) : string :=
  (s ++ fill " " (width - String.length s))%string.

(** a number written with at least [width] digits, as [strftime] writes
    the fields of a date *)
Definition zfill (width : nat) (n : Z) : string :=
  (fill "0" (width - String.length (str n)) ++ str n)%string.

(** [now.strftime('%Y-%m-%d %H:%M:%S.%f')[:-3]]: the six digits of the
    microseconds lose their last three.  The year is written with four
    digits, as every platform does from the year 1000 on. *)
Definition strftime_ms (t : datetime) : string :=
  (zfill 4 (year t) ++ "-" ++ zfill 2 (month t) ++ "-" ++ zfill 2 (day t)
   ++ " " ++ zfill 2 (hour t) ++ ":" ++ zfill 2 (minute t) ++ ":"
   ++ zfill 2 (second t) ++ "." ++ zfill 3 (microsecond t / 1000))%string.

Record Draws : Type := mkDraws {
  d_level : string;                (* random.choices(self.log_levels, ...)[0] *)
  d_service : string;              (* random.choice(self.services) *)
  d_user : Z;                      (* random.randint(1000, 9999) *)
  d_ip : Z * Z * Z * Z;            (* the four numbers of fake.ipv4() *)
  d_message : string;              (* random.choice(...) *)
  d_response_time : Z              (* random.randint(...) *)
}.

Definition mem (x : string) (l : list string) : bool :=
  existsb (String.eqb x) l.

Definition within (lo hi n : Z) : bool := (lo <=? n) && (n <=? hi).

Definition octet (n : Z) : bool := within 0 255 n.

(** the values that the random choices can take *)
Definition possible (d : Draws) : bool :=
  let '(a, b, c, e) := d_ip d in
  mem (d_level d) log_levels
  && mem (d_service d) services
  && within 1000 9999 (d_user d)
  && octet a && octet b && octet c && octet e
  && if mem (d_level d) ["ERROR"; "CRITICAL"]
     then mem (d_message d) error_messages
          && within 2000 5000 (d_response_time d)
     else mem (d_message d) info_messages
          && within 50 500 (d_response_time d).

Definition ipv4 (ip : Z * Z * Z * Z) : string :=
  let '(a, b, c, e) := ip in
  (str a ++ "." ++ str b ++ "." ++ str c ++ "." ++ str e)%string.

Definition user_id_of (d : Draws) : string := ("USER_" ++ str (d_user d))%string.

Definition generate_log_entry (now : datetime) (d : Draws) : string :=
  let timestamp := strftime_ms now in
  let level := d_level d in
  let service := d_service d in
  let user_id := user_id_of d in
  let ip_address := ipv4 (d_ip d) in
  let message := d_message d in
  let response_time := d_response_time d in
  (timestamp ++ " | " ++ ljust 8 level ++ " | " ++ ljust 20 service ++ " | "
   ++ "UserID: " ++ user_id ++ " | " ++ "IP: " ++ ljust 15 ip_address ++ " | "
   ++ "ResponseTime: " ++ str response_time ++ "ms | " ++ "Message: "
   ++ message)%string.

(** the fields of an entry: the values written, and the white space
    that follows the padded ones up to the bar *)
Definition fields_of (now : datetime) (d : Draws) : Fields :=
  mkFields (strftime_ms now)
    (d_level d) (fill " " (8 - String.length (d_level d)) ++ " ")
    (d_service d) (fill " " (20 - String.length (d_service d)) ++ " ")
    (user_id_of d)
    (ipv4 (d_ip d)) (fill " " (15 - String.length (ipv4 (d_ip d))) ++ " ")
    (str (d_response_time d))
    (d_message d).

(** One turn of the loop of [generate_continuous_logs]: the entries of a
    batch are appended to the file, each followed by a line feed. *)
Fixpoint write_batch (content : string) (entries : list string) : string :=
  match entries with
  | [] => content
  | log_entry :: rest =>
      write_batch (content ++ log_entry ++ String LF EmptyString)%string rest
  end.

(** a visible character or a space *)
Definition printable (c : ascii) : bool := between 32 126 c.

(** the document that the pipeline stores for an entry *)
Definition doc_of_entry (t : datetime) (d : Draws) (ingested : datetime)
  : LogDoc :=
  mkLogDoc t (d_level d) (d_service d) (user_id_of d) (ipv4 (d_ip d))
    (d_response_time d) (d_message d) ingested.


(** the documents of a batch of entries: the i-th line read is parsed at
    [clock i], and [stamp] is what [strptime] makes of a time *)
Fixpoint docs_of_batch (stamp : datetime -> datetime)
    (clock : nat -> datetime) (i : nat) (entries : list (datetime * Draws))
  : list LogDoc :=
  match entries with
  | [] => []
  | (t, d) :: rest =>
      doc_of_entry (stamp t) d (clock i)
      :: docs_of_batch stamp clock (S i) rest
  end.

Definition entry_of (e : datetime * Draws) : string :=
  generate_log_entry (fst e) (snd e).

End Generator.

(* ================================================================== *)
(** * [scripts/upload_logs_to_hdfs.py]: the upload loop

    The state of the loop is the content of the remote file and the
    variable [last_position]. *)

Module Uploader.
Import Text Ingestion.

Record Upload : Type := mkUpload {
  hdfs_file : string;
  up_position : nat
}.

(** how [client.write(..., append=True)] ends: well, or with an exception
    after some characters were appended *)
Inductive append_outcome : Type :=
| AppendOk
| AppendFails (written : nat).

Record Site : Type := mkSite {
  local_log : option string;     (* content of the local file, if it exists *)
  hdfs_append : append_outcome
}.

Inductive upload_printed : Type :=
| Uploaded (n : nat)           (* "Uploaded {n} new lines to HDFS" *)
| NoNewLines                   (* "No new lines to upload" *)
| LocalFileNotFound            (* "Local log file not found: ..." *)
| UploadFailed (e : exn).      (* "Upload failed: {e}" *)

(** [''.join(new_lines)] *)
Definition join (lines : list string) : string :=
  fold_right String.append EmptyString lines.

(** One turn of the [while True] loop. *)
Definition upload_once (site : Site) (st : Upload) : Upload * upload_printed :=
  match local_log site with
  | None => (st, LocalFileNotFound)
  | Some content =>
      let new_lines := readlines content (up_position st) in
      let last_position := tell content (up_position st) in
      match new_lines with
      | [] => (mkUpload (hdfs_file st) last_position, NoNewLines)
      | _ =>
          match hdfs_append site with
          | AppendOk =>
              (mkUpload (hdfs_file st ++ join new_lines)%string last_position,
               Uploaded (List.length new_lines))
          | AppendFails k =>
              (mkUpload (hdfs_file st ++ take k (join new_lines))%string
                 last_position,
               UploadFailed StoreError)
          end
      end
  end.

Fixpoint upload_loop (sites : list Site) (st : Upload) : Upload :=
  match sites with
  | [] => st
  | site :: rest => upload_loop rest (fst (upload_once site st))
  end.

(** the HDFS file holds the local content, and the position is at its end *)
Definition mirrors (content : string) (st : Upload) : Prop :=
  hdfs_file st = content /\ up_position st = String.length content.

End Uploader.

(* ================================================================== *)
(** * Notions used to state the properties of the readers *)

Module Tailing.
Import Text Ingestion.

(** a non-empty text with no line feed before its last character *)
Fixpoint one_line (l : string) : bool :=
  match l with
  | EmptyString => false
  | String c EmptyString => true
  | String c r => not_newline c && one_line r
  end.

(** a text that ends with a line feed *)
Definition terminated (l : string) : bool := nonempty l && complete l.

(** the world [w] with another content of the log file *)
Definition with_file (w : World) (content : string) : World :=
  mkWorld (Some content) (now w) (store w).

(** the number of carriage returns matters to the readers, which open the
    file in text mode *)
Definition no_CR (s : string) : bool :=
  forall_chars (fun c => negb (Ascii.eqb c CR)) s.

End Tailing.

(* ================================================================== *)
(** * The times that are written and read *)

Module Times.
Import Text PyDatetime Generator.
Local Open Scope Z_scope.

(** a time that [datetime.now()] can return, in a year of four digits *)
Definition proper (t : datetime) : bool :=
  valid t && (1000 <=? year t) && (0 <=? hour t) && (0 <=? minute t)
  && (0 <=? second t) && (0 <=? microsecond t).

(** the time without what is below the millisecond *)
Definition to_ms (t : datetime) : datetime :=
  mkDatetime (year t) (month t) (day t) (hour t) (minute t) (second t)
    (microsecond t / 1000 * 1000).

(** the integers from 0 to [n - 1] *)
Definition below (n : Z) : list Z := map Z.of_nat (seq 0 (Z.to_nat n)).

(** [read] finds [n * scale] in the [width] digits that write [n], and
    leaves nothing *)
Definition reads_back (read : string -> option (Z * string)) (width : nat)
    (scale n : Z) : bool :=
  match read (zfill width n) with
  | Some (v, EmptyString) =>
      (v =? n * scale) && (String.length (zfill width n) =? width)%nat
  | _ => false
  end.

End Times.

(* ================================================================== *)
(** * More sample inputs *)

Module Examples.
Import Ingestion Processor Reports Generator Uploader Samples.

(** a line of the generator followed by a line that is not one *)
Definition mixed_file : string :=
  (info_line ++ newline ++ garbage_line ++ newline)%string.

(** lines that the pattern rejects: a marker, a blank line, and the start
    of a marker *)
Definition noise_file : string :=
  (garbage_line ++ newline ++ newline ++ "*** log")%string.

(** the statistics of [error_window] *)
Definition error_stats : Stats :=
  mkStats 20 [("INFO", 16); ("ERROR", 4)] [("AuthService", 20)]
    (Some (mean (map response_time error_window)))
    (Some 100%Z) (Some 100%Z) 4 clock.

Definition doc_at (h : Z) (lv msg : string) : LogDoc :=
  mkLogDoc (mkDatetime 2024 1 15 h 30 0 0) lv "PaymentService" "USER_4321"
    "10.0.0.7" 3100 msg clock.

(** four documents of one day *)
Definition day_window : list LogDoc :=
  [doc_at 10 "ERROR" "Connection timeout";
   doc_at 9 "INFO" "Payment processed";
   doc_at 10 "CRITICAL" "Connection timeout";
   doc_at 23 "ERROR" "Service unavailable"].

(** a sort by decreasing count *)
Definition insertion_sort : forall K : Type, list (K * nat) -> list (K * nat) :=
  fun K => @sort_desc K.

(** a store that is down for the second query and empty for the others *)
Definition flaky_store (i hours : nat) : result (list LogDoc) :=
  match i with
  | 1 => Raise StoreError
  | _ => Ok []
  end.

Definition login_time : datetime := mkDatetime 2024 1 15 10 23 45 123000.

Definition login : Draws :=
  mkDraws "INFO" "AuthService" 1234 (192, 168, 1, 1)%Z
    "User logged in successfully" 120.

Definition timeout_time : datetime := mkDatetime 2024 1 15 10 23 46 500000.

Definition timeout : Draws :=
  mkDraws "ERROR" "PaymentService" 4321 (10, 0, 0, 7)%Z
    "Connection timeout" 3100.

Definition batch : list (datetime * Draws) :=
  [(login_time, login); (timeout_time, timeout)].

Definition marker : string := (garbage_line ++ newline)%string.

End Examples.

(* ================================================================== *)
(** * Facts about text and matching *)

Module TextFacts.
Import Text Regex.
Local Open Scope string_scope.

Lemma append_nil_r (s : string) : s ++ "" = s.
Proof. induction s as [|c s IH]; simpl; [reflexivity | now rewrite IH]. Qed.

Lemma append_assoc (a b c : string) : (a ++ b) ++ c = a ++ (b ++ c).
Proof. induction a as [|x a IH]; simpl; [reflexivity | now rewrite IH]. Qed.

Lemma length_append (a b : string) :
  String.length (a ++ b) = (String.length a + String.length b)%nat.
Proof. induction a as [|x a IH]; simpl; [reflexivity | now rewrite IH]. Qed.

Lemma take_append (w r : string) : take (String.length w) (w ++ r) = w.
Proof. induction w as [|c w IH]; simpl; [now destruct r | now rewrite IH]. Qed.

Lemma drop_append (w r : string) : drop (String.length w) (w ++ r) = r.
Proof. induction w as [|c w IH]; simpl; [now destruct r | exact IH]. Qed.

Lemma drop_all (n : nat) (s : string) :
  (String.length s <= n)%nat -> drop n s = "".
Proof.
  revert n; induction s as [|c s IH]; intros [|n] H; simpl in *;
    try reflexivity; [lia | apply IH; lia].
Qed.

Lemma strip_prefix_append (l r : string) : strip_prefix l (l ++ r) = Some r.
Proof.
  induction l as [|c l IH]; simpl; [now destruct r |].
  now rewrite Ascii.eqb_refl.
Qed.

Lemma strip_prefix_inv (l s r : string) :
  strip_prefix l s = Some r -> s = l ++ r.
Proof.
  revert s; induction l as [|a l IH]; intros [|c s] H; simpl in *;
    try congruence.
  destruct (Ascii.eqb_spec a c) as [->|]; [|discriminate].
  now rewrite (IH _ H).
Qed.

Lemma take_drop (n : nat) (s : string) : take n s ++ drop n s = s.
Proof.
  revert s; induction n as [|n IH]; intros [|c s]; simpl; try reflexivity.
  now rewrite IH.
Qed.

(** A run of [n] characters within the leading run of a class is in the
    class. *)
Lemma take_in_span (cls : ascii -> bool) (n : nat) (s : string) :
  (n <= span_len cls s)%nat -> forall_chars cls (take n s) = true.
Proof.
  revert s; induction n as [|n IH]; intros [|c s] H; simpl in *;
    try reflexivity.
  destruct (cls c); simpl; [apply IH; lia | lia].
Qed.

Lemma take_nonempty (n : nat) (s : string) :
  (0 < n <= String.length s)%nat -> take n s <> "".
Proof. destruct n, s; simpl; intros; try lia; discriminate. Qed.

Lemma span_len_le (cls : ascii -> bool) (s : string) :
  (span_len cls s <= String.length s)%nat.
Proof.
  induction s as [|c s IH]; simpl; [lia | destruct (cls c); lia].
Qed.

Lemma span_len_append (cls : ascii -> bool) (w r : string) :
  forall_chars cls w = true -> span_len cls r = 0%nat ->
  span_len cls (w ++ r) = String.length w.
Proof.
  induction w as [|c w IH]; simpl; intros Hw Hr; [exact Hr |].
  apply andb_true_iff in Hw as [-> Hw]. now rewrite IH.
Qed.

(** A non-empty text of one class is not the start of a run of a
    disjoint class. *)
Lemma span_len_disjoint (cls cls' : ascii -> bool) (w r : string) :
  (forall c, cls c = true -> cls' c = false) ->
  forall_chars cls w = true -> w <> "" ->
  span_len cls' (w ++ r) = 0%nat.
Proof.
  intros D Hw Hne. destruct w as [|c w]; [congruence |].
  simpl in *. apply andb_true_iff in Hw as [Hc _]. now rewrite (D _ Hc).
Qed.

Ltac class_arith :=
  unfold is_space, is_word, latin1_alnum, is_seven_bit, ip_char,
    timestamp_char, not_newline, is_digit, is_char, between in *;
  repeat match goal with
         | |- _ = false => apply not_true_is_false; intro
         | H : _ = false |- _ => apply not_true_iff_false in H
         end;
  repeat (rewrite ?orb_true_iff, ?andb_true_iff, ?negb_true_iff,
           ?Nat.leb_le, ?Nat.ltb_lt, ?Nat.eqb_eq, ?Nat.eqb_neq in *);
  repeat match goal with
         | H : context [code (Ascii ?a ?b ?c ?d ?e ?f ?g ?h)] |- _ =>
             let v := eval vm_compute in (code (Ascii a b c d e f g h)) in
             change (code (Ascii a b c d e f g h)) with v in H
         | |- context [code (Ascii ?a ?b ?c ?d ?e ?f ?g ?h)] =>
             let v := eval vm_compute in (code (Ascii a b c d e f g h)) in
             change (code (Ascii a b c d e f g h)) with v
         end;
  try lia.

Lemma space_not_word (c : ascii) : is_space c = true -> is_word c = false.
Proof. intros H. class_arith. Qed.

Lemma space_not_ip (c : ascii) : is_space c = true -> ip_char c = false.
Proof. intros H. class_arith. Qed.

(** ** The matcher *)

Lemma try_spans_first k g s n d :
  n <> 0%nat -> k (drop n s) = Some d ->
  try_spans k g s n = Some (record g (take n s) d).
Proof. destruct n; [congruence |]. simpl. now intros _ ->. Qed.

Lemma match_lit l p r :
  match_items (Lit l :: p) (l ++ r) = match_items p r.
Proof. simpl. now rewrite strip_prefix_append. Qed.

(** A repetition followed by a text that its class does not start takes
    the whole run at the first try. *)
Lemma match_plus_greedy g cls p w r d :
  forall_chars cls w = true -> w <> "" -> span_len cls r = 0%nat ->
  match_items p r = Some d ->
  match_items (Plus g cls :: p) (w ++ r) = Some (record g w d).
Proof.
  intros Hw Hne Hr Hd. simpl. rewrite (span_len_append _ _ _ Hw Hr).
  rewrite try_spans_first with (d := d).
  - now rewrite take_append.
  - destruct w; [congruence | discriminate].
  - now rewrite drop_append.
Qed.

(** The [timestamp] group: its class contains the space that starts the
    separator, so the run first swallows that space, the separator then
    fails on the bar, and the run gives the space back. *)
Lemma match_plus_space_bar g cls p w r d :
  forall_chars cls w = true -> w <> "" ->
  cls " "%char = true -> cls "|"%char = false ->
  match_items p r = Some d ->
  match_items (Plus g cls :: Lit " | " :: p) (w ++ " | " ++ r)
  = Some (record g w d).
Proof.
  intros Hw Hne Hsp Hbar Hd.
  assert (Hspan : span_len cls (w ++ " | " ++ r) = S (String.length w)).
  { change (" | " ++ r) with (" " ++ ("| " ++ r)).
    rewrite <- append_assoc.
    rewrite span_len_append.
    - rewrite length_append. simpl. lia.
    - clear Hne. induction w as [|c w IH]; simpl in *.
      + now rewrite Hsp.
      + apply andb_true_iff in Hw as [-> Hw]. now apply IH.
    - simpl. now rewrite Hbar. }
  change (match_items (Plus g cls :: Lit " | " :: p) (w ++ " | " ++ r))
    with (try_spans (match_items (Lit " | " :: p)) g (w ++ " | " ++ r)
            (span_len cls (w ++ " | " ++ r))).
  rewrite Hspan.
  cbn [try_spans].
  assert (Hfail : match_items (Lit " | " :: p)
                    (drop (S (String.length w)) (w ++ " | " ++ r)) = None).
  { change (" | " ++ r) with (" " ++ ("| " ++ r)).
    rewrite <- append_assoc.
    replace (S (String.length w)) with (String.length (w ++ " "))
      by (rewrite length_append; simpl; lia).
    rewrite drop_append. reflexivity. }
  rewrite Hfail.
  rewrite try_spans_first with (d := d).
  - now rewrite take_append.
  - destruct w; [congruence | discriminate].
  - rewrite drop_append. now rewrite match_lit.
Qed.

End TextFacts.

(* ================================================================== *)
(** * The line parser *)

Module ParserFacts.
Import Text Regex Ingestion TextFacts.
Local Open Scope string_scope.

Lemma try_spans_inv k g s n d' :
  try_spans k g s n = Some d' ->
  exists m d, (0 < m <= n)%nat /\ k (drop m s) = Some d
              /\ d' = record g (take m s) d.
Proof.
  induction n as [|n IH]; cbn [try_spans]; [discriminate |].
  destruct (k (drop (S n) s)) as [d|] eqn:E.
  - intros H. injection H as <-. exists (S n), d.
    repeat split; try lia; assumption.
  - intros H. destruct (IH H) as (m & d & Hm & Hk & Hd).
    exists m, d. repeat split; try lia; assumption.
Qed.

(** What [match_items] returns is a match. *)
Lemma match_items_sound p : forall s d,
  match_items p s = Some d -> matches p s d.
Proof.
  induction p as [|[l|g cls] p IH]; intros s d; simpl.
  - intros [= <-]. constructor.
  - destruct (strip_prefix l s) as [s'|] eqn:E; [|discriminate].
    intros H. rewrite (strip_prefix_inv _ _ _ E). constructor. now apply IH.
  - intros H. apply try_spans_inv in H as (m & d0 & Hm & Hk & ->).
    rewrite <- (take_drop m s) at 1.
    pose proof (span_len_le cls s).
    constructor.
    + apply take_nonempty. lia.
    + apply take_in_span. lia.
    + now apply IH.
Qed.

Lemma run_of_true cls s :
  run_of cls s = true -> s <> "" /\ forall_chars cls s = true.
Proof.
  unfold run_of. intros H. apply andb_true_iff in H as [H1 H2].
  split; [|exact H2]. now destruct s.
Qed.

(** On a line of the grammar the groups of the match are its fields. *)
Lemma re_match_line_of f :
  well_formed f = true -> re_match (line_of f) = Some (groups_of f).
Proof.
  unfold well_formed. intros H.
  repeat (apply andb_true_iff in H as [H ?]).
  repeat match goal with
         | H : run_of _ _ = true |- _ =>
             apply run_of_true in H as [? ?]
         end.
  assert (f_timestamp f <> "") by (now destruct (f_timestamp f)).
  unfold re_match, pattern, line_of, groups_of.
  set (d7 := [("message", f_message f)]).
  set (d6 := ("response_time", f_response_time f) :: d7).
  set (d5 := ("ip_address", f_ip_address f) :: d6).
  set (d4 := ("user_id", f_user_id f) :: d5).
  set (d3 := ("service", f_service f) :: d4).
  set (d2 := ("level", f_level f) :: d3).
  apply (match_plus_space_bar (Some "timestamp") _ _ _ _ d2);
    try assumption; try reflexivity.
  apply (match_plus_greedy (Some "level") _ _ _ _ d3); try assumption.
  { apply span_len_disjoint with (cls := is_space);
      auto using space_not_word. }
  apply (match_plus_greedy None _ _ _ _ d3); try assumption;
    try reflexivity.
  rewrite match_lit.
  apply (match_plus_greedy (Some "service") _ _ _ _ d4); try assumption.
  { apply span_len_disjoint with (cls := is_space);
      auto using space_not_word. }
  apply (match_plus_greedy None _ _ _ _ d4); try assumption;
    try reflexivity.
  rewrite !match_lit.
  apply (match_plus_greedy (Some "user_id") _ _ _ _ d5); try assumption;
    try reflexivity.
  rewrite !match_lit.
  apply (match_plus_greedy (Some "ip_address") _ _ _ _ d6);
    try assumption.
  { apply span_len_disjoint with (cls := is_space);
      auto using space_not_ip. }
  apply (match_plus_greedy None _ _ _ _ d6); try assumption;
    try reflexivity.
  rewrite !match_lit.
  apply (match_plus_greedy (Some "response_time") _ _ _ _ d7);
    try assumption; try reflexivity.
  rewrite !match_lit.
  rewrite <- (append_nil_r (f_message f)).
  apply (match_plus_greedy (Some "message") _ _ _ _ []); try assumption;
    reflexivity.
Qed.

Lemma forall_chars_append cls a b :
  forall_chars cls (a ++ b) = forall_chars cls a && forall_chars cls b.
Proof.
  induction a as [|c a IH]; simpl; [reflexivity |].
  now rewrite IH, andb_assoc.
Qed.

Lemma run_of_intro cls s :
  s <> "" -> forall_chars cls s = true -> run_of cls s = true.
Proof.
  intros Hs Hc. unfold run_of. rewrite Hc.
  destruct s; [congruence | reflexivity].
Qed.

(** The lines of the grammar are all the lines that the pattern accepts:
    a text without line feed that [re.match] accepts is the line of
    well-formed fields. *)
Lemma matched_line_is_well_formed (line : string) (data : groupdict) :
  re_match line = Some data ->
  forall_chars not_newline line = true ->
  exists f, well_formed f = true /\ line = line_of f.
Proof.
  intros E Hnl. apply match_items_sound in E. unfold pattern in E.
  repeat match goal with
         | H : matches (_ :: _) _ _ |- _ => inversion H; subst; clear H
         | H : matches [] _ _ |- _ => inversion H; subst; clear H
         end.
  match goal with
  | |- exists f, _ /\ ?ts ++ " | " ++ ?lv ++ ?p1 ++ "| " ++ ?sv ++ ?p2
                    ++ "| " ++ "UserID: " ++ ?us ++ " | " ++ "IP: " ++ ?ip
                    ++ ?p3 ++ "| " ++ "ResponseTime: " ++ ?rt ++ "ms | "
                    ++ "Message: " ++ ?ms = _ =>
      exists (mkFields ts lv p1 sv p2 us ip p3 rt ms)
  end.
  split; [|reflexivity].
  unfold well_formed. cbn [f_timestamp f_level pad_level f_service
    pad_service f_user_id f_ip_address pad_ip_address f_response_time
    f_message].
  repeat rewrite forall_chars_append in Hnl.
  rewrite !andb_true_iff in Hnl. decompose [and] Hnl. clear Hnl.
  match goal with
  | |- context [run_of not_newline (?w ++ ?r)] =>
      assert (Hm : run_of not_newline (w ++ r) = true)
  end.
  { apply run_of_intro.
    - match goal with
      | H : ?w <> "" |- ?w ++ _ <> "" =>
          destruct w; [congruence | discriminate]
      end.
    - rewrite forall_chars_append. apply andb_true_iff. now split. }
  rewrite Hm.
  repeat match goal with
         | |- context [run_of ?c ?x] =>
             rewrite (run_of_intro c x) by assumption
         end.
  reflexivity.
Qed.

(** [int] reads decimal notation: a further digit multiplies by ten. *)
Lemma int_acc_append (a b : string) (acc : Z) :
  int_acc acc (a ++ b) = int_acc (int_acc acc a) b.
Proof.
  revert acc; induction a as [|c a IH]; intros acc; simpl;
    [reflexivity | apply IH].
Qed.

Lemma digits_value_snoc (s : string) (c : ascii) :
  digits_value (s ++ String c "")
  = (10 * digits_value s + digit_value c)%Z.
Proof. unfold digits_value. now rewrite int_acc_append. Qed.

(** [int] on a run of digits: their number decides. *)
Lemma int_digits (s : string) :
  run_of is_digit s = true ->
  int s = if (String.length s <=? int_max_str_digits)%nat
          then Ok (digits_value s) else Raise ValueError.
Proof.
  intros H. unfold int.
  replace (all_digits s) with true; [reflexivity |].
  symmetry. destruct s; [discriminate H | exact H].
Qed.

Lemma int_short (s : string) :
  run_of is_digit s = true ->
  (String.length s <= int_max_str_digits)%nat ->
  int s = Ok (digits_value s).
Proof.
  intros H L. rewrite (int_digits s H).
  apply Nat.leb_le in L. now rewrite L.
Qed.


Lemma int_ok (s : string) (n : Z) :
  int s = Ok n ->
  n = digits_value s /\ run_of is_digit s = true
  /\ (String.length s <= int_max_str_digits)%nat.
Proof.
  unfold int.
  destruct (all_digits s) eqn:D; [| discriminate].
  destruct (Nat.leb_spec (String.length s) int_max_str_digits) as [L | L];
    [| discriminate].
  cbn [andb]. intros [= <-]. split; [reflexivity |]. split; [| exact L].
  destruct s; [discriminate D | exact D].
Qed.


Section Parser.

Variable strptime : string -> result datetime.



(** C4 (amended).  Whenever [parse_log_line] returns a document, its level
    is the non-empty run of word characters that follows the first
    separator of the line and is followed by white space and a bar; it is
    not compared with the five levels of the record model. *)
Theorem parsed_level_is_word_run (now : datetime) (line : string)
    (doc : LogDoc) :
  parse_log_line strptime now line = Ok (Some doc) ->
  run_of is_word (level doc) = true
  /\ exists ts pad rest,
       line = ts ++ " | " ++ level doc ++ pad ++ "| " ++ rest
       /\ run_of timestamp_char ts = true
       /\ run_of is_space pad = true.
Proof.
  unfold parse_log_line.
  destruct (re_match line) as [data|] eqn:E; [|discriminate].
  apply match_items_sound in E. unfold pattern in E.
  repeat match goal with
         | H : matches (_ :: _) _ _ |- _ => inversion H; subst; clear H
         | H : matches [] _ _ |- _ => inversion H; subst; clear H
         end.
  cbn [record getitem String.eqb Ascii.eqb Bool.eqb bind].
  destruct (strptime w) as [t|e]; cbn [bind]; [|discriminate].
  match goal with
  | |- context [int ?rt] => destruct (int rt); cbn [bind]; [|discriminate]
  end.
  intros [= <-]. cbn [level].
  split; [now apply run_of_intro |].
  exists w, w1. eexists. split; [reflexivity |].
  split; now apply run_of_intro.
Qed.

End Parser.



(** C4, as stated, fails on a line whose level is TRACE: the line is
    accepted, the document carries that level, and a cycle that reads the
    line writes the document to the collection. *)
Lemma level_outside_enum_accepted :
  exists doc,
    parse_log_line PyDatetime.strptime Samples.clock Samples.trace_line
    = Ok (Some doc)
    /\ level doc = "TRACE" /\ ~ In (level doc) levels
    /\ collection
         (fst (ingest_logs PyDatetime.strptime
                 (Samples.world (Samples.trace_line ++ Samples.newline) WriteOk)
                 Samples.fresh))
       = [doc].
Proof.
  eexists. split; [vm_compute; reflexivity |]. split; [reflexivity |].
  split; [| vm_compute; reflexivity].
  cbn. intros H. repeat destruct H as [H|H]; discriminate || exact H.
Qed.

(** A level with a letter outside the 7-bit range is accepted as well:
    [\w] is not limited to that range. *)
Lemma level_with_umlaut_accepted :
  exists doc,
    parse_log_line PyDatetime.strptime Samples.clock Samples.umlaut_line
    = Ok (Some doc)
    /\ level doc = Samples.umlaut_level
    /\ seven_bit (level doc) = false.
Proof.
  eexists. split; [vm_compute; reflexivity |]. split; reflexivity.
Qed.

(** C4 (amended), on that line. *)
Lemma parsed_level_is_word_run_witness :
  run_of is_word "TRACE" = true
  /\ exists ts pad rest,
       Samples.trace_line = ts ++ " | " ++ "TRACE" ++ pad ++ "| " ++ rest
       /\ run_of timestamp_char ts = true
       /\ run_of is_space pad = true.
Proof.
  apply (parsed_level_is_word_run PyDatetime.strptime Samples.clock
           Samples.trace_line
           (mkLogDoc (mkDatetime 2024 1 15 10 23 45 123000)
              "TRACE" "AuthService" "USER_1234" "192.168.1.1" 120
              "Cache updated" Samples.clock)).
  vm_compute. reflexivity.
Defined.

End ParserFacts.

(* ================================================================== *)
(** * The ingestion cycle *)

Module IngestionFacts.
Import Text Regex Ingestion TextFacts.
Local Open Scope string_scope.

Lemma split_lines_nil (s : string) : split_lines s = [] -> s = "".
Proof.
  destruct s as [|c s]; [reflexivity |]. simpl.
  destruct (Ascii.eqb c LF); [discriminate |].
  destruct (split_lines s); discriminate.
Qed.

Lemma complete_cons (c : ascii) (s : string) :
  s <> "" -> complete (String c s) = complete s.
Proof. destruct s; [congruence | reflexivity]. Qed.

(** Whole lines are split off independently of what follows them. *)
Lemma split_lines_append (body rest : string) :
  complete body = true ->
  split_lines (body ++ rest) = (split_lines body ++ split_lines rest)%list.
Proof.
  induction body as [|c b IH]; intros Hc; [reflexivity |].
  destruct b as [|c' b'].
  - simpl in Hc. simpl. now rewrite Hc.
  - rewrite complete_cons in Hc by discriminate.
    specialize (IH Hc).
    change (split_lines (String c (String c' b') ++ rest))
      with (if Ascii.eqb c LF
            then String c "" :: split_lines (String c' b' ++ rest)
            else match split_lines (String c' b' ++ rest) with
                 | [] => [String c ""]
                 | l :: ls => String c l :: ls
                 end).
    change (split_lines (String c (String c' b')))
      with (if Ascii.eqb c LF
            then String c "" :: split_lines (String c' b')
            else match split_lines (String c' b') with
                 | [] => [String c ""]
                 | l :: ls => String c l :: ls
                 end).
    rewrite IH. destruct (Ascii.eqb c LF); [reflexivity |].
    destruct (split_lines (String c' b')) as [|l ls] eqn:E;
      [apply split_lines_nil in E; discriminate | reflexivity].
Qed.

(** A non-empty text without LF is one line. *)
Lemma split_lines_partial (p : string) :
  p <> "" -> forall_chars not_newline p = true -> split_lines p = [p].
Proof.
  induction p as [|c p IH]; [congruence |]. intros _ H.
  simpl in H. apply andb_true_iff in H as [Hc Hp].
  simpl. replace (Ascii.eqb c LF) with false.
  - destruct p as [|c' p']; [reflexivity |].
    rewrite IH by (discriminate || assumption). reflexivity.
  - symmetry. apply Ascii.eqb_neq. intros ->.
    unfold not_newline in Hc. discriminate.
Qed.

Lemma readlines_beyond (content : string) (pos : nat) :
  (String.length content <= pos)%nat -> readlines content pos = [].
Proof. intros H. unfold readlines. now rewrite drop_all. Qed.

Lemma drop_nonempty (n : nat) (s : string) :
  drop n s <> "" -> (n < String.length s)%nat.
Proof.
  intros H. destruct (Nat.lt_ge_cases n (String.length s)) as [|G];
    [assumption |]. now rewrite drop_all in H.
Qed.

Lemma universal_newlines_nonempty (s : string) :
  universal_newlines s <> "" -> s <> "".
Proof. now destruct s. Qed.

Section Cycle.

Variable strptime : string -> result datetime.

Lemma parse_loop_append (w : World) (l1 l2 : list string) :
  forall i acc,
    parse_loop strptime w i (l1 ++ l2)%list acc
    = (acc' <- parse_loop strptime w i l1 acc ;;
       parse_loop strptime w (i + List.length l1) l2 acc').
Proof.
  induction l1 as [|l l1 IH]; intros i acc.
  - simpl. now rewrite Nat.add_0_r.
  - cbn [app parse_loop List.length].
    replace (i + S (List.length l1))%nat with (S i + List.length l1)%nat
      by lia.
    destruct (strip l); [apply IH |].
    destruct (parse_log_line strptime (now w i) _) as [[doc|]|e];
      cbn [bind]; [apply IH | apply IH | reflexivity].
Qed.

(** The empty line is not a line of the grammar. *)
Lemma parse_empty (t : datetime) : parse_log_line strptime t "" = Ok None.
Proof. reflexivity. Qed.

(** The document of the last line of a batch is in the parsed batch. *)
Lemma parse_loop_last (w : World) (ls : list string) (l : string)
    (i : nat) (acc docs : list LogDoc) (doc : LogDoc) :
  parse_loop strptime w i (ls ++ [l])%list acc = Ok docs ->
  parse_log_line strptime (now w (i + List.length ls)) (strip l)
  = Ok (Some doc) ->
  In doc docs.
Proof.
  rewrite parse_loop_append.
  destruct (parse_loop strptime w i ls acc) as [acc'|e]; cbn [bind];
    [|discriminate].
  cbn [parse_loop]. intros H P.
  destruct (strip l) eqn:E.
  - rewrite parse_empty in P. discriminate.
  - rewrite P in H. cbn [bind] in H. injection H as <-.
    apply in_or_app. right. now left.
Qed.

(** A line that the pattern rejects is skipped and the loop goes on. *)
Lemma rejected_line_is_skipped (w : World) (line : string)
    (rest : list string) (i : nat) (acc : list LogDoc) :
  re_match (strip line) = None ->
  parse_loop strptime w i (line :: rest) acc
  = parse_loop strptime w (S i) rest acc.
Proof.
  intros H. cbn [parse_loop]. unfold parse_log_line. rewrite H.
  now destruct (strip line).
Qed.

(** A line of the grammar whose time field [strptime] refuses ends the
    loop with the exception of [strptime]. *)
Lemma unparsable_time_leaves_loop (w : World) (f : Fields) (line : string)
    (rest : list string) (i : nat) (acc : list LogDoc) (e : exn) :
  strip line = line_of f -> well_formed f = true ->
  strptime (f_timestamp f) = Raise e ->
  parse_loop strptime w i (line :: rest) acc = Raise e.
Proof.
  intros Hl Hwf He. cbn [parse_loop]. rewrite Hl.
  assert (Hp : parse_log_line strptime (now w i) (line_of f) = Raise e).
  { unfold parse_log_line.
    rewrite (ParserFacts.re_match_line_of f Hwf). unfold groups_of.
    cbn [getitem String.eqb Ascii.eqb Bool.eqb bind]. now rewrite He. }
  assert (Hne : line_of f <> "").
  { unfold line_of. unfold well_formed, run_of in Hwf.
    destruct (f_timestamp f); [discriminate Hwf | discriminate]. }
  revert Hp. destruct (line_of f); [congruence |].
  now intros ->.
Qed.

(** C2 fails on the code.  When a line of the batch matches the pattern
    and [strptime] refuses its time field, the exception raised in
    [parse_log_line] leaves the loop and the [with] block: the cycle
    writes nothing, not even the well-formed lines of the batch, it
    prints the error, [last_position] does not move, and every later
    cycle on the same file ends in the same way. *)
Theorem unparsable_time_stops_cycle (w : World) (self : LogIngestion)
    (content : string) (before after : list string) (line : string)
    (acc : list LogDoc) (f : Fields) (e : exn) :
  log_file w = Some content ->
  readlines content (last_position self) = (before ++ line :: after)%list ->
  parse_loop strptime w 0 before [] = Ok acc ->
  strip line = line_of f ->
  well_formed f = true ->
  strptime (f_timestamp f) = Raise e ->
  ingest_logs strptime w self = (self, [ErrorIngesting e])
  /\ forall n, run_cycles strptime (repeat w n) self = self.
Proof.
  intros Hf Hl Hb Hs Hwf He.
  assert (E : ingest_logs strptime w self = (self, [ErrorIngesting e])).
  { unfold ingest_logs, ingest_body. rewrite Hf, Hl.
    destruct (before ++ line :: after)%list as [|l0 ls0] eqn:El.
    { destruct before; discriminate. }
    rewrite <- El, parse_loop_append, Hb. cbn [bind].
    rewrite (unparsable_time_leaves_loop w f line after _ acc e Hs Hwf He).
    now destruct self. }
  split; [exact E |].
  induction n as [|n IH]; [reflexivity |].
  cbn [repeat run_cycles]. rewrite E. exact IH.
Qed.

(** C1.  In every cycle in which the batch parsed from the file is written
    to the store and the write fails, [last_position] keeps the value it
    had before the cycle, the error is printed, and the next cycle reads
    the file from the same offset. *)
Theorem failed_write_keeps_cursor (w : World) (self : LogIngestion)
    (content : string) (docs : list LogDoc) (k : nat) :
  log_file w = Some content ->
  parse_loop strptime w 0 (readlines content (last_position self)) []
  = Ok docs ->
  docs <> [] ->
  store w = WriteFails k ->
  last_position (fst (ingest_logs strptime w self)) = last_position self
  /\ snd (ingest_logs strptime w self) = [ErrorIngesting StoreError]
  /\ forall content',
       readlines content' (last_position (fst (ingest_logs strptime w self)))
       = readlines content' (last_position self).
Proof.
  intros Hf Hp Hd Hs.
  assert (E : ingest_logs strptime w self
              = (mkLogIngestion (collection self ++ firstn k docs)
                   (last_position self),
                 [ErrorIngesting StoreError])).
  { unfold ingest_logs, ingest_body. rewrite Hf.
    destruct (readlines content (last_position self)) as [|l ls] eqn:El.
    - simpl in Hp. congruence.
    - rewrite Hp. destruct docs as [|d ds]; [congruence |].
      unfold insert_many. rewrite Hs. reflexivity. }
  rewrite E. cbn [fst snd last_position]. auto.
Qed.

(** C3 (amended).  When the text read by a cycle ends with a partial line
    (a non-empty text without terminator after the last whole line), that
    partial line is the last line of the batch; if the cycle completes,
    the new [last_position] is the end of the file, so the characters of
    the partial line are counted and the next cycle reads only what was
    appended after them, and the document parsed from the partial line,
    if there is one, is in the collection. *)
Theorem partial_line_is_read (w : World) (self : LogIngestion)
    (content body partial : string) :
  log_file w = Some content ->
  universal_newlines (drop (last_position self) content) = body ++ partial ->
  complete body = true ->
  partial <> "" ->
  forall_chars not_newline partial = true ->
  readlines content (last_position self)
  = (split_lines body ++ [partial])%list
  /\ (completed (snd (ingest_logs strptime w self)) = true ->
      last_position (fst (ingest_logs strptime w self))
      = String.length content
      /\ (forall appended,
            readlines (content ++ appended)
              (last_position (fst (ingest_logs strptime w self)))
            = readlines appended 0)
      /\ forall doc,
           parse_log_line strptime
             (now w (List.length (split_lines body))) (strip partial)
           = Ok (Some doc) ->
           In doc (collection (fst (ingest_logs strptime w self)))).
Proof.
  intros Hf Htext Hbody Hne Hnl.
  assert (Hlines : readlines content (last_position self)
                   = (split_lines body ++ [partial])%list).
  { unfold readlines. rewrite Htext, split_lines_append by assumption.
    now rewrite (split_lines_partial partial). }
  split; [exact Hlines |].
  assert (Hpos : (last_position self < String.length content)%nat).
  { apply drop_nonempty, universal_newlines_nonempty. rewrite Htext.
    destruct body; [exact Hne | discriminate]. }
  assert (Htell : tell content (last_position self) = String.length content).
  { unfold tell. lia. }
  unfold ingest_logs, ingest_body. rewrite Hf, Hlines, Htell.
  destruct (split_lines body ++ [partial])%list as [|l0 ls0] eqn:El.
  { destruct (split_lines body); discriminate. }
  rewrite <- El.
  destruct (parse_loop strptime w 0 (split_lines body ++ [partial]) [])
    as [docs|e] eqn:Ep; [|discriminate].
  pose proof (fun doc => parse_loop_last w _ _ 0 [] docs doc Ep) as Hlast.
  cbn [Nat.add] in Hlast.
  assert (Hnext : forall appended,
             readlines (content ++ appended) (String.length content)
             = readlines appended 0).
  { intros appended. unfold readlines. now rewrite drop_append. }
  destruct docs as [|d ds].
  - intros _. split; [reflexivity |]. split; [exact Hnext |].
    intros doc Hdoc. destruct (Hlast doc Hdoc).
  - unfold insert_many. destruct (store w); [|discriminate].
    intros _. split; [reflexivity |]. split; [exact Hnext |].
    intros doc Hdoc.
    cbn [fst collection]. apply in_or_app. right. now apply Hlast.
Qed.

(** C5 (amended).  When the file is shorter than [last_position], the
    cycle reads no line, writes nothing, prints nothing and leaves
    [last_position] as it is: the shorter file is not read from its
    start. *)
Theorem shorter_file_is_skipped (w : World) (self : LogIngestion)
    (content : string) :
  log_file w = Some content ->
  (String.length content < last_position self)%nat ->
  ingest_logs strptime w self = (self, []).
Proof.
  intros Hf Hlt. unfold ingest_logs, ingest_body. rewrite Hf.
  rewrite readlines_beyond by lia.
  unfold tell. rewrite Nat.max_l by lia. now destruct self.
Qed.

End Cycle.

Import Samples.

(** C1, on a file of one line and a store that refuses the write. *)
Lemma failed_write_keeps_cursor_witness :
  let w := world (info_line ++ newline) (WriteFails 0) in
  last_position (fst (ingest_logs PyDatetime.strptime w fresh)) = 0%nat
  /\ snd (ingest_logs PyDatetime.strptime w fresh)
     = [ErrorIngesting StoreError]
  /\ forall content',
       readlines content'
         (last_position (fst (ingest_logs PyDatetime.strptime w fresh)))
       = readlines content' 0.
Proof.
  apply (failed_write_keeps_cursor PyDatetime.strptime
           (world (info_line ++ newline) (WriteFails 0)) fresh
           (info_line ++ newline) [info_doc] 0).
  - reflexivity.
  - vm_compute. reflexivity.
  - discriminate.
  - reflexivity.
Defined.

(** C2, on a file whose first line has the time field
    [2024-13-45 99:99:99.000] and whose second line is well formed:
    nothing is written and [last_position] stays at 0, cycle after
    cycle. *)
Lemma unparsable_time_stops_cycle_witness :
  let content := bad_time_line ++ newline ++ info_line ++ newline in
  let w := world content WriteOk in
  ingest_logs PyDatetime.strptime w fresh
  = (fresh, [ErrorIngesting ValueError])
  /\ forall n, run_cycles PyDatetime.strptime (repeat w n) fresh = fresh.
Proof.
  apply (unparsable_time_stops_cycle PyDatetime.strptime
           (world (bad_time_line ++ newline ++ info_line ++ newline) WriteOk)
           fresh (bad_time_line ++ newline ++ info_line ++ newline)
           [] [info_line ++ newline] (bad_time_line ++ newline) []
           bad_time_fields ValueError).
  - reflexivity.
  - vm_compute. reflexivity.
  - reflexivity.
  - vm_compute. reflexivity.
  - reflexivity.
  - reflexivity.
Defined.

(** By contrast a first line that the pattern rejects is skipped: the
    second line is written and [last_position] moves to the end. *)
Lemma rejected_line_does_not_stop_cycle :
  let content := garbage_line ++ newline ++ info_line ++ newline in
  ingest_logs PyDatetime.strptime (world content WriteOk) fresh
  = (mkLogIngestion [info_doc] (String.length content), [Ingested 1]).
Proof. vm_compute. reflexivity. Qed.

(** C3, as stated, fails on a file that ends in the middle of a line: the
    partial line is parsed and written with its truncated message, and
    [last_position] moves past it to the end of the file.  When the rest
    of the line is appended, the next cycle reads that rest alone, which
    is no line of the grammar: the whole line is never written. *)
Lemma partial_line_not_held_back :
  let content := info_line ++ newline ++ partial_line in
  let self' :=
    fst (ingest_logs PyDatetime.strptime (world content WriteOk) fresh) in
  let completed_content := content ++ "meout" ++ newline in
  collection self' = [info_doc; partial_doc]
  /\ message partial_doc = "Connection ti"
  /\ last_position self' = String.length content
  /\ (String.length (info_line ++ newline) < last_position self')%nat
  /\ readlines completed_content (last_position self') = ["meout" ++ newline]
  /\ collection
       (fst (ingest_logs PyDatetime.strptime
               (world completed_content WriteOk) self'))
     = [info_doc; partial_doc].
Proof. vm_compute. repeat split; reflexivity || lia. Qed.

(** C3 (amended), on that file. *)
Lemma partial_line_is_read_witness :
  let content := info_line ++ newline ++ partial_line in
  let w := world content WriteOk in
  readlines content 0 = [info_line ++ newline; partial_line]
  /\ (completed (snd (ingest_logs PyDatetime.strptime w fresh)) = true ->
      last_position (fst (ingest_logs PyDatetime.strptime w fresh))
      = String.length content
      /\ (forall appended,
            readlines (content ++ appended)
              (last_position (fst (ingest_logs PyDatetime.strptime w fresh)))
            = readlines appended 0)
      /\ forall doc,
           parse_log_line PyDatetime.strptime clock (strip partial_line)
           = Ok (Some doc) ->
           In doc
             (collection (fst (ingest_logs PyDatetime.strptime w fresh)))).
Proof.
  apply (partial_line_is_read PyDatetime.strptime
           (world (info_line ++ newline ++ partial_line) WriteOk) fresh
           (info_line ++ newline ++ partial_line)
           (info_line ++ newline) partial_line).
  - reflexivity.
  - vm_compute. reflexivity.
  - vm_compute. reflexivity.
  - discriminate.
  - vm_compute. reflexivity.
Defined.

(** C5, as stated, fails on a file that was replaced by a shorter one:
    [last_position] stays beyond the end of the new file and the line of
    the new file is not written, while a reader at offset 0 writes it. *)
Lemma rotation_not_detected :
  let content := info_line ++ newline in
  let w := world content WriteOk in
  let stale := mkLogIngestion [] 1000 in
  (String.length content < last_position stale)%nat
  /\ ingest_logs PyDatetime.strptime w stale = (stale, [])
  /\ last_position (fst (ingest_logs PyDatetime.strptime w stale)) <> 0%nat
  /\ ingest_logs PyDatetime.strptime w fresh
     = (mkLogIngestion [info_doc] (String.length content), [Ingested 1]).
Proof. vm_compute. repeat split; try reflexivity; lia || discriminate. Qed.

(** C5 (amended), on that file. *)
Lemma shorter_file_is_skipped_witness :
  ingest_logs PyDatetime.strptime (world (info_line ++ newline) WriteOk)
    (mkLogIngestion [] 1000)
  = (mkLogIngestion [] 1000, []).
Proof.
  apply (shorter_file_is_skipped PyDatetime.strptime
           (world (info_line ++ newline) WriteOk)
           (mkLogIngestion [] 1000) (info_line ++ newline)).
  - reflexivity.
  - vm_compute. lia.
Defined.

End IngestionFacts.

(* ================================================================== *)
(** * The analytics *)

Module ProcessorFacts.
Import Ingestion Processor.
Local Open Scope R_scope.

Lemma Rgtb_true (x y : R) : x > y -> Rgtb x y = true.
Proof. intros H. unfold Rgtb. now destruct (Rgt_dec x y). Qed.

Lemma Rgtb_false (x y : R) : x <= y -> Rgtb x y = false.
Proof. intros H. unfold Rgtb. destruct (Rgt_dec x y); [lra | reflexivity]. Qed.

Lemma Rgtb_spec (x y : R) : Rgtb x y = true <-> x > y.
Proof.
  unfold Rgtb. destruct (Rgt_dec x y); split; intros; try assumption;
    [reflexivity | discriminate | contradiction].
Qed.

(** A real less than a half away from an integer rounds to it. *)
Lemma round_half_even_near (z : Z) (y : R) :
  IZR z - 1 / 2 < y < IZR z + 1 / 2 -> round_half_even y = z.
Proof.
  intros [Hlo Hhi]. unfold round_half_even.
  destruct (base_Int_part y) as [H1 H2].
  set (f := Int_part y) in *.
  assert (Hf : (f = z \/ f = z - 1)%Z).
  { assert (f < z + 1)%Z by (apply lt_IZR; rewrite plus_IZR; lra).
    assert (z - 2 < f)%Z by (apply lt_IZR; rewrite minus_IZR; lra).
    lia. }
  destruct Hf as [-> | ->].
  - destruct (Rlt_dec (y - IZR z) (1 / 2)); [reflexivity | lra].
  - rewrite minus_IZR.
    destruct (Rlt_dec (y - (IZR z - 1)) (1 / 2)); [lra |].
    destruct (Rlt_dec (1 / 2) (y - (IZR z - 1))); [lia | lra].
Qed.

Lemma round2_near (z : Z) (x : R) :
  IZR z - 1 / 2 < x * 100 < IZR z + 1 / 2 -> round2 x = IZR z / 100.
Proof. intros H. unfold round2. now rewrite (round_half_even_near z). Qed.



Lemma error_rate_above (k n : nat) :
  (0 < n)%nat -> (INR k / INR n * 100 > 15 <-> (15 * n < 100 * k)%nat).
Proof.
  intros Hn. pose proof (lt_0_INR n Hn) as Hpos.
  assert (E : INR k / INR n * 100 > 15 <-> 15 * INR n < 100 * INR k).
  { split; intros H.
    - apply Rmult_lt_reg_r with (r := / INR n);
        [now apply Rinv_0_lt_compat |].
      replace (15 * INR n * / INR n) with 15 by (field; lra).
      unfold Rdiv in H. lra.
    - apply Rmult_lt_compat_r with (r := / INR n) in H;
        [| now apply Rinv_0_lt_compat].
      replace (15 * INR n * / INR n) with 15 in H by (field; lra).
      unfold Rdiv. lra. }
  rewrite E. split; intros H.
  - apply INR_lt. rewrite !mult_INR. simpl (INR 15). simpl (INR 100). lra.
  - apply lt_INR in H. rewrite !mult_INR in H.
    simpl (INR 15) in H. simpl (INR 100) in H. lra.
Qed.

(** ** The threshold test in integers *)

Lemma sum_sq_dev_nonneg (xs : list Z) : 0 <= sum_sq_dev xs.
Proof.
  unfold sum_sq_dev. generalize (mean xs) as m. intros m.
  induction xs as [|x xs IH]; cbn [fold_right]; [lra |].
  pose proof (Rle_0_sqr (IZR x - m)) as Hsq. unfold Rsqr in Hsq. lra.
Qed.







(** ** The latency example *)

Lemma INR_Z (n : nat) : INR n = IZR (Z.of_nat n).
Proof. apply INR_IZR_INZ. Qed.

Lemma latencies_mean : mean Samples.latencies = 590.
Proof.
  unfold mean. rewrite INR_Z.
  change (total Samples.latencies) with 5900%Z.
  change (Z.of_nat (length Samples.latencies)) with 10%Z. lra.
Qed.

Lemma latencies_sum_sq_dev : sum_sq_dev Samples.latencies = 21609000.
Proof.
  unfold sum_sq_dev. rewrite latencies_mean.
  unfold Samples.latencies. cbn [fold_right]. lra.
Qed.

Lemma latencies_std : std Samples.latencies = sqrt 2401000.
Proof.
  unfold std. rewrite latencies_sum_sq_dev, INR_Z.
  change (Z.of_nat (length Samples.latencies)) with 10%Z.
  f_equal. lra.
Qed.

Lemma latencies_std_bounds :
  15495125 / 10000 < std Samples.latencies < 15495175 / 10000.
Proof.
  rewrite latencies_std. split.
  - rewrite <- (sqrt_square (15495125 / 10000)) by lra.
    apply sqrt_lt_1; lra.
  - rewrite <- (sqrt_square (15495175 / 10000)) by lra.
    apply sqrt_lt_1; lra.
Qed.


Lemma latencies_threshold_bounds :
  3689025 / 1000 < threshold Samples.latencies < 3689035 / 1000.
Proof.
  unfold threshold. rewrite latencies_mean.
  pose proof latencies_std_bounds. lra.
Qed.

(** Of ten documents with these response times only the last one is above
    the threshold. *)
Lemma latencies_slow_requests (df : DataFrame) :
  map response_time df = Samples.latencies ->
  exists d, slow_requests df = [d] /\ response_time d = 5000%Z.
Proof.
  intros H. unfold slow_requests. rewrite H.
  pose proof latencies_threshold_bounds as Ht.
  set (t := threshold Samples.latencies) in *.
  unfold Samples.latencies in H.
  do 10 (destruct df as [|? df]; [discriminate H |];
         cbn [map] in H; injection H as ? H).
  destruct df; [|discriminate H].
  cbn [filter].
  repeat match goal with
         | E : response_time _ = _ |- _ => rewrite E
         end.
  rewrite !(Rgtb_false 100 t), (Rgtb_true 5000 t) by lra.
  eexists. split; [reflexivity | assumption].
Qed.

(** [std] is the deviation with [n - 1] in the denominator. *)
Lemma std_sample (xs : list Z) :
  (2 <= length xs)%nat ->
  0 <= std xs /\ std xs * std xs * (INR (length xs) - 1) = sum_sq_dev xs.
Proof.
  intros H. unfold std. split; [apply sqrt_pos |].
  assert (Hn : 0 < INR (length xs) - 1).
  { apply le_INR in H. simpl (INR 2) in H. lra. }
  rewrite sqrt_sqrt.
  - field. lra.
  - apply Rmult_le_pos; [apply sum_sq_dev_nonneg |].
    left. now apply Rinv_0_lt_compat.
Qed.


Lemma response_time_part_entries (df : DataFrame) (a : Anomaly) :
  In a (response_time_part df) ->
  slow_requests df <> []
  /\ a = HighResponseTime (length (slow_requests df))
           (round2 (threshold (map response_time df)))
           (round2 (mean (map response_time (slow_requests df)))).
Proof.
  unfold response_time_part.
  destruct (slow_requests df) as [|d ds]; cbn [length Nat.ltb Nat.leb];
    [intros [] |].
  intros [<- | []]. split; [discriminate | reflexivity].
Qed.

Lemma response_time_part_fires (df : DataFrame) :
  slow_requests df <> [] ->
  response_time_part df
  = [HighResponseTime (length (slow_requests df))
       (round2 (threshold (map response_time df)))
       (round2 (mean (map response_time (slow_requests df))))].
Proof.
  unfold response_time_part.
  destruct (slow_requests df) as [|d ds]; [congruence | reflexivity].
Qed.

Lemma error_rate_part_entries (df : DataFrame) (a : Anomaly) :
  In a (error_rate_part df) ->
  error_rate df > 15
  /\ a = HighErrorRate (round2 (error_rate df))
           (length (with_level "ERROR" df)).
Proof.
  unfold error_rate_part.
  destruct (Rgtb (error_rate df) 15) eqn:E; [|intros []].
  intros [<- | []]. split; [now apply Rgtb_spec | reflexivity].
Qed.

Lemma error_rate_part_fires (df : DataFrame) :
  error_rate df > 15 ->
  error_rate_part df
  = [HighErrorRate (round2 (error_rate df)) (length (with_level "ERROR" df))].
Proof.
  intros H. unfold error_rate_part. now rewrite (Rgtb_true _ _ H).
Qed.

(** The entry of ten documents with the response times of the example. *)
Lemma latencies_response_time_part (df : DataFrame) :
  map response_time df = Samples.latencies ->
  response_time_part df = [HighResponseTime 1 (368903 / 100) 5000].
Proof.
  intros E. pose proof latencies_threshold_bounds as Ht.
  destruct (latencies_slow_requests df E) as (d & Hd & Hrt).
  rewrite response_time_part_fires by (rewrite Hd; discriminate).
  rewrite E, Hd. cbn [length map]. rewrite Hrt.
  replace (round2 (threshold Samples.latencies)) with (368903 / 100)
    by (symmetry; apply (round2_near 368903); lra).
  replace (round2 (mean [5000%Z])) with 5000; [reflexivity |].
  symmetry. rewrite (round2_near 500000); [lra |].
  unfold mean. simpl. lra.
Qed.

Section Analytics.

Variable find : nat -> result (list LogDoc).

Lemma detect_anomalies_parts :
  (10 <= length (get_logs_dataframe find 1))%nat ->
  detect_anomalies find
  = (response_time_part (get_logs_dataframe find 1)
     ++ error_rate_part (get_logs_dataframe find 1))%list.
Proof.
  intros H. unfold detect_anomalies.
  destruct (Nat.ltb_spec (length (get_logs_dataframe find 1)) 10);
    [lia | reflexivity].
Qed.

Lemma detect_anomalies_small :
  (length (get_logs_dataframe find 1) < 10)%nat -> detect_anomalies find = [].
Proof.
  intros H. unfold detect_anomalies.
  destruct (Nat.ltb_spec (length (get_logs_dataframe find 1)) 10);
    [reflexivity | lia].
Qed.

(** C10.  For every window, [detect_anomalies] returns at most two
    entries: at most one of type High Response Time and at most one of
    type High Error Rate. *)
Theorem at_most_one_anomaly_per_type :
  (length (detect_anomalies find) <= 2)%nat
  /\ (length (filter (is_type "High Response Time") (detect_anomalies find))
      <= 1)%nat
  /\ (length (filter (is_type "High Error Rate") (detect_anomalies find))
      <= 1)%nat.
Proof.
  destruct (Nat.lt_ge_cases (length (get_logs_dataframe find 1)) 10) as [H|H].
  - rewrite (detect_anomalies_small H). simpl. lia.
  - rewrite (detect_anomalies_parts H).
    unfold response_time_part, error_rate_part.
    destruct (0 <? length (slow_requests _))%nat;
      destruct (Rgtb (error_rate _) 15); simpl; lia.
Qed.



Variable now : datetime.

(** C9 (amended).  [calculate_statistics] returns [None] exactly when no
    document matches the window, in particular when the query fails; it
    never raises.  A result with counts is returned only for a non-empty
    window, and its total and its mean are then present. *)
Theorem statistics_of_empty_window :
  (calculate_statistics find now = None <-> get_logs_dataframe find 1 = [])
  /\ (forall e, find 1%nat = Raise e -> calculate_statistics find now = None)
  /\ (forall st, calculate_statistics find now = Some st ->
                 (0 < total_logs st)%nat /\ avg_response_time st <> None).
Proof.
  unfold calculate_statistics.
  split; [|split].
  - destruct (get_logs_dataframe find 1); split; intros H;
      reflexivity || discriminate.
  - intros e He. unfold get_logs_dataframe. now rewrite He.
  - intros st. destruct (get_logs_dataframe find 1) as [|d df];
      [discriminate |].
    intros [= <-]. cbn [total_logs avg_response_time length].
    split; [lia | discriminate].
Qed.

End Analytics.

Import Samples.

Lemma found_dataframe (docs : list LogDoc) (hours : nat) :
  get_logs_dataframe (found docs) hours = docs.
Proof. reflexivity. Qed.




(** The integer test finds the same document by computation. *)
Lemma latency_example_flagged :
  filter (above_threshold latencies) latencies = [5000%Z].
Proof. vm_compute. reflexivity. Qed.




(** C9, as stated, fails on the empty window: the result is [None], not a
    statistics object with zero counts. *)
Lemma no_statistics_of_empty_window :
  calculate_statistics (found []) clock = None
  /\ ~ exists st, calculate_statistics (found []) clock = Some st
                  /\ total_logs st = 0%nat.
Proof.
  split; [reflexivity |]. intros (st & H & _). discriminate H.
Qed.

End ProcessorFacts.


(* ================================================================== *)
(** * Reading the file *)

Module TailingFacts.
Import Text Regex Ingestion TextFacts IngestionFacts Tailing Uploader.
Local Open Scope string_scope.

Lemma join_split_lines (s : string) : join (split_lines s) = s.
Proof.
  induction s as [|c s IH]; [reflexivity |].
  cbn [split_lines]. destruct (Ascii.eqb c LF).
  - cbn [join fold_right]. fold (join (split_lines s)). now rewrite IH.
  - destruct (split_lines s) as [|l ls] eqn:E.
    + apply split_lines_nil in E. subst s. reflexivity.
    + cbn [join fold_right] in *. simpl. now rewrite IH.
Qed.

Lemma split_lines_shape (s : string) :
  Forall (fun l => one_line l = true) (split_lines s)
  /\ Forall (fun l => terminated l = true) (removelast (split_lines s)).
Proof.
  induction s as [|c s [IH1 IH2]]; [split; constructor |].
  cbn [split_lines]. destruct (Ascii.eqb_spec c LF) as [-> | Hc].
  - split; [constructor; [reflexivity | assumption] |].
    destruct (split_lines s) as [|l ls] eqn:E; [constructor |].
    change (removelast (String LF "" :: l :: ls))
      with (String LF "" :: removelast (l :: ls)).
    constructor; [reflexivity | assumption].
  - destruct (split_lines s) as [|l ls] eqn:E.
    + split; [repeat constructor | constructor].
    + inversion IH1 as [|? ? Hl Hls]; subst.
      assert (Hnl : not_newline c = true).
      { unfold not_newline. apply negb_true_iff, Nat.eqb_neq.
        intros H. apply Hc. unfold code in H.
        rewrite <- (ascii_nat_embedding c), H. reflexivity. }
      split.
      * constructor; [| assumption].
        destruct l; [discriminate Hl |]. cbn [one_line]. now rewrite Hnl.
      * destruct ls as [|l' ls']; [constructor |].
        change (removelast (String c l :: l' :: ls'))
          with (String c l :: removelast (l' :: ls')).
        change (removelast (l :: l' :: ls'))
          with (l :: removelast (l' :: ls')) in IH2.
        inversion IH2 as [|? ? Ht Hts]; subst.
        constructor; [| assumption].
        unfold terminated in *. apply andb_true_iff in Ht as [Hn Hcpl].
        destruct l; [discriminate Hn |]. exact Hcpl.
Qed.

(** X1.  [readlines] loses nothing and cuts at the line feeds only: the
    lines, joined, are the text after the offset (with its line ends
    translated); every line is non-empty and has no line feed before its
    last character; every line but the last ends with a line feed. *)
Theorem readlines_partition (content : string) (pos : nat) :
  join (readlines content pos) = universal_newlines (drop pos content)
  /\ Forall (fun l => one_line l = true) (readlines content pos)
  /\ Forall (fun l => terminated l = true)
       (removelast (readlines content pos)).
Proof.
  unfold readlines. split; [apply join_split_lines | apply split_lines_shape].
Qed.

End TailingFacts.

(* ================================================================== *)
(** * More on the ingestion cycle *)

Module CycleFacts.
Import Text Regex Ingestion TextFacts IngestionFacts Tailing.
Local Open Scope string_scope.

Section Cycle.

Variable strptime : string -> result datetime.

(** [ingest_logs] on an existing file, by the outcome of the loop. *)
Lemma ingest_logs_cases (w : World) (self : LogIngestion) (content : string) :
  log_file w = Some content ->
  ingest_logs strptime w self
  = match parse_loop strptime w 0
            (readlines content (last_position self)) [] with
    | Raise e =>
        (mkLogIngestion (collection self) (last_position self),
         [ErrorIngesting e])
    | Ok [] =>
        (mkLogIngestion (collection self)
           (tell content (last_position self)), [])
    | Ok (d :: ds) =>
        match store w with
        | WriteOk =>
            (mkLogIngestion (collection self ++ d :: ds)
               (tell content (last_position self)),
             [Ingested (List.length (d :: ds))])
        | WriteFails k =>
            (mkLogIngestion (collection self ++ firstn k (d :: ds))
               (last_position self),
             [ErrorIngesting StoreError])
        end
    end.
Proof.
  intros Hf. unfold ingest_logs, ingest_body. rewrite Hf.
  destruct (readlines content (last_position self)) as [|l ls] eqn:El;
    [reflexivity |].
  destruct (parse_loop strptime w 0 (l :: ls) []) as [[|d ds]|e];
    try reflexivity.
  unfold insert_many. destruct (store w); reflexivity.
Qed.

(** The loop appends to [parsed_logs], at most one document per line. *)
Lemma parse_loop_grows (w : World) (lines : list string) :
  forall i acc docs,
    parse_loop strptime w i lines acc = Ok docs ->
    exists new, docs = (acc ++ new)%list
                /\ (List.length new <= List.length lines)%nat.
Proof.
  induction lines as [|l ls IH]; intros i acc docs; cbn [parse_loop].
  - intros [= <-]. exists []. now rewrite app_nil_r.
  - destruct (strip l).
    + intros H. destruct (IH _ _ _ H) as (new & -> & Hn).
      exists new. split; [reflexivity | simpl; lia].
    + destruct (parse_log_line strptime (now w i) _) as [[doc|]|e];
        cbn [bind]; [| |discriminate].
      * intros H. destruct (IH _ _ _ H) as (new & -> & Hn).
        exists (doc :: new). rewrite <- app_assoc. split; [reflexivity |].
        simpl. lia.
      * intros H. destruct (IH _ _ _ H) as (new & -> & Hn).
        exists new. split; [reflexivity | simpl; lia].
Qed.

(** What one cycle does to the state. *)
Lemma cycle_effect (w : World) (self : LogIngestion) :
  (last_position self <= last_position (fst (ingest_logs strptime w self)))%nat
  /\ exists added,
       collection (fst (ingest_logs strptime w self))
       = (collection self ++ added)%list.
Proof.
  destruct (log_file w) as [content|] eqn:Hf.
  - rewrite (ingest_logs_cases w self content Hf).
    destruct (parse_loop strptime w 0 _ []) as [[|d ds]|e];
      cbn [fst last_position collection]; unfold tell.
    + split; [lia | exists []; now rewrite app_nil_r].
    + destruct (store w); cbn [fst last_position collection]; unfold tell;
        (split; [lia | eauto]).
    + split; [lia | exists []; now rewrite app_nil_r].
  - unfold ingest_logs. rewrite Hf. cbn [fst].
    split; [lia | exists []; now rewrite app_nil_r].
Qed.

(** X2.  Whatever the cycles of [start_continuous_ingestion] meet (absent
    file, shorter file, unparsable time, failing store), [last_position]
    never decreases and the documents already in the collection stay
    where they are: the collection only grows at its end. *)
Theorem cursor_and_collection_only_grow (ws : list World)
    (self : LogIngestion) :
  (last_position self <= last_position (run_cycles strptime ws self))%nat
  /\ exists added,
       collection (run_cycles strptime ws self)
       = (collection self ++ added)%list.
Proof.
  revert self. induction ws as [|w ws IH]; intros self; cbn [run_cycles].
  - split; [lia | exists []; now rewrite app_nil_r].
  - destruct (cycle_effect w self) as (Hp & added & Hc).
    destruct (IH (fst (ingest_logs strptime w self))) as (Hp' & added' & Hc').
    split; [lia |]. exists (added ++ added')%list.
    now rewrite Hc', Hc, app_assoc.
Qed.

(** X3.  In a cycle on an existing file the documents added to the
    collection are at most as many as the lines read; when the cycle
    prints that it ingested [n] entries, exactly [n] documents were added
    and [n] is positive; when it prints nothing, none was added. *)
Theorem cycle_accounting (w : World) (self : LogIngestion)
    (content : string) :
  log_file w = Some content ->
  exists added,
    collection (fst (ingest_logs strptime w self))
    = (collection self ++ added)%list
    /\ (List.length added
        <= List.length (readlines content (last_position self)))%nat
    /\ (forall n, snd (ingest_logs strptime w self) = [Ingested n] ->
                  List.length added = n /\ (0 < n)%nat)
    /\ (snd (ingest_logs strptime w self) = [] -> added = []).
Proof.
  intros Hf. rewrite (ingest_logs_cases w self content Hf).
  destruct (parse_loop strptime w 0 _ []) as [[|d ds]|e] eqn:Ep.
  - exists []. cbn [fst snd collection]. rewrite app_nil_r.
    repeat split; try reflexivity; try (simpl; lia); discriminate.
  - apply parse_loop_grows in Ep as (new & Hnew & Hlen).
    cbn [app] in Hnew. subst new.
    destruct (store w) as [|k]; cbn [fst snd collection].
    + exists (d :: ds). repeat split; try assumption; try discriminate.
      * injection H as <-. reflexivity.
      * injection H as <-. simpl. lia.
    + exists (firstn k (d :: ds)). split; [reflexivity |].
      split; [| split; [intros n H | intros H]; discriminate H].
      rewrite length_firstn. lia.
  - exists []. cbn [fst snd collection]. rewrite app_nil_r.
    repeat split; try reflexivity; try (simpl; lia); discriminate.
Qed.

(** A completed cycle leaves [last_position] at or after the end of the
    file. *)
Lemma completed_position (w : World) (self : LogIngestion)
    (content : string) :
  log_file w = Some content ->
  completed (snd (ingest_logs strptime w self)) = true ->
  last_position (fst (ingest_logs strptime w self))
  = tell content (last_position self).
Proof.
  intros Hf. rewrite (ingest_logs_cases w self content Hf).
  destruct (parse_loop strptime w 0 _ []) as [[|d ds]|e];
    [reflexivity | | discriminate].
  destruct (store w); [reflexivity | discriminate].
Qed.

(** X4.  Polling again changes nothing: after a cycle that completed, a
    further cycle on the same file, whatever the state of the store,
    reads no line, writes nothing, prints nothing and leaves the state as
    it is. *)
Theorem repoll_is_idle (w w' : World) (self : LogIngestion) :
  completed (snd (ingest_logs strptime w self)) = true ->
  log_file w' = log_file w ->
  ingest_logs strptime w' (fst (ingest_logs strptime w self))
  = (fst (ingest_logs strptime w self), []).
Proof.
  intros Hc Hf'.
  destruct (log_file w) as [content|] eqn:Hf.
  - pose proof (completed_position w self content Hf Hc) as Hp.
    set (self1 := fst (ingest_logs strptime w self)) in *.
    unfold ingest_logs, ingest_body. rewrite Hf'.
    rewrite readlines_beyond by (rewrite Hp; unfold tell; lia).
    unfold tell in *. replace (Nat.max (last_position self1) _)
      with (last_position self1) by lia.
    now destruct self1.
  - unfold ingest_logs in Hc. rewrite Hf in Hc. discriminate Hc.
Qed.

(** X5.  On a file of 7-bit text, a batch in which the pattern rejects
    every line (blank lines included) stops nothing: no document is
    written, nothing is printed, and [last_position] moves to the end of
    the file.  (7-bit text is what every reading decodes to itself.) *)
Theorem rejected_batch_is_passed (w : World) (self : LogIngestion)
    (content : string) :
  log_file w = Some content ->
  seven_bit content = true ->
  Forall (fun l => re_match (strip l) = None)
    (readlines content (last_position self)) ->
  ingest_logs strptime w self
  = (mkLogIngestion (collection self) (tell content (last_position self)),
     []).
Proof.
  intros Hf _ Hrej. rewrite (ingest_logs_cases w self content Hf).
  assert (E : forall lines i acc,
             Forall (fun l => re_match (strip l) = None) lines ->
             parse_loop strptime w i lines acc = Ok acc).
  { induction lines as [|l ls IH]; intros i acc H; [reflexivity |].
    inversion H as [|? ? Hl Hls]; subst.
    rewrite (rejected_line_is_skipped strptime w l ls i acc Hl).
    now apply IH. }
  now rewrite (E _ 0%nat [] Hrej).
Qed.

(** X6.  Resuming reads only what is new: after a cycle that started at a
    position within the file and completed, a cycle on the same file with
    a text appended behaves as a reader that starts at offset 0 of the
    appended text alone, with the positions shifted by the length of the
    old content. *)
Theorem resumed_cycle_reads_the_appended_text (w w' : World)
    (self : LogIngestion) (content appended : string) :
  log_file w = Some content ->
  (last_position self <= String.length content)%nat ->
  completed (snd (ingest_logs strptime w self)) = true ->
  log_file w' = Some (content ++ appended) ->
  let self1 := fst (ingest_logs strptime w self) in
  let r := ingest_logs strptime (with_file w' appended)
             (mkLogIngestion (collection self1) 0) in
  ingest_logs strptime w' self1
  = (mkLogIngestion (collection (fst r))
       (String.length content + last_position (fst r)),
     snd r).
Proof.
  intros Hf Hle Hc Hf' self1 r.
  pose proof (completed_position w self content Hf Hc) as Hp.
  fold self1 in Hp. unfold tell in Hp. rewrite Nat.max_r in Hp by lia.
  unfold r. clear r.
  rewrite (ingest_logs_cases w' self1 _ Hf').
  rewrite (ingest_logs_cases (with_file w' appended) _ appended eq_refl).
  cbn [last_position collection].
  assert (Hr : readlines (content ++ appended) (last_position self1)
               = readlines appended 0).
  { unfold readlines. now rewrite Hp, drop_append. }
  rewrite Hr.
  assert (Hloop : forall lines i acc,
             parse_loop strptime (with_file w' appended) i lines acc
             = parse_loop strptime w' i lines acc).
  { induction lines as [|l ls IH]; intros i acc; [reflexivity |].
    cbn [parse_loop]. destruct (strip l); [apply IH |].
    change (now (with_file w' appended) i) with (now w' i).
    destruct (parse_log_line strptime (now w' i) _) as [[doc|]|e];
      cbn [bind]; [apply IH | apply IH | reflexivity]. }
  rewrite Hloop.
  assert (Ht : tell (content ++ appended) (last_position self1)
               = (String.length content + tell appended 0)%nat).
  { unfold tell. rewrite Hp, length_append. lia. }
  rewrite Ht.
  change (store (with_file w' appended)) with (store w').
  destruct (parse_loop strptime w' 0 (readlines appended 0) [])
    as [[|d ds]|e]; cbn [fst snd last_position collection].
  - reflexivity.
  - destruct (store w'); cbn [fst snd last_position collection];
      rewrite ?Hp, ?Nat.add_0_r; reflexivity.
  - now rewrite Hp, Nat.add_0_r.
Qed.

End Cycle.


(** X3, on a file of two lines of which the pattern rejects one. *)
Lemma cycle_accounting_witness :
  let w := Samples.world Examples.mixed_file WriteOk in
  exists added,
    collection (fst (ingest_logs PyDatetime.strptime w Samples.fresh))
    = (collection Samples.fresh ++ added)%list
    /\ (List.length added
        <= List.length (readlines Examples.mixed_file
                          (last_position Samples.fresh)))%nat
    /\ (forall n,
          snd (ingest_logs PyDatetime.strptime w Samples.fresh) = [Ingested n] ->
          List.length added = n /\ (0 < n)%nat)
    /\ (snd (ingest_logs PyDatetime.strptime w Samples.fresh) = [] ->
        added = []).
Proof.
  apply (cycle_accounting PyDatetime.strptime
           (Samples.world Examples.mixed_file WriteOk) Samples.fresh
           Examples.mixed_file).
  reflexivity.
Defined.

(** X4, on a file of two lines, polled again when the store is down. *)
Lemma repoll_is_idle_witness :
  let w := Samples.world Examples.mixed_file WriteOk in
  let w' := Samples.world Examples.mixed_file (WriteFails 0) in
  ingest_logs PyDatetime.strptime w'
    (fst (ingest_logs PyDatetime.strptime w Samples.fresh))
  = (fst (ingest_logs PyDatetime.strptime w Samples.fresh), []).
Proof.
  apply (repoll_is_idle PyDatetime.strptime
           (Samples.world Examples.mixed_file WriteOk)
           (Samples.world Examples.mixed_file (WriteFails 0)) Samples.fresh).
  - vm_compute. reflexivity.
  - reflexivity.
Defined.

(** X5, on a file of three lines that are not log lines. *)
Lemma rejected_batch_is_passed_witness :
  ingest_logs PyDatetime.strptime
    (Samples.world Examples.noise_file WriteOk) Samples.fresh
  = (mkLogIngestion [] (String.length Examples.noise_file), []).
Proof.
  apply (rejected_batch_is_passed PyDatetime.strptime
           (Samples.world Examples.noise_file WriteOk) Samples.fresh
           Examples.noise_file).
  - reflexivity.
  - vm_compute. reflexivity.
  - repeat (constructor; [reflexivity |]). constructor.
Defined.

(** X6, on a file of one line to which two lines are appended. *)
Lemma resumed_cycle_reads_the_appended_text_witness :
  let content := (Samples.info_line ++ Samples.newline)%string in
  let w := Samples.world content WriteOk in
  let w' := Samples.world (content ++ Examples.mixed_file) WriteOk in
  let self1 := fst (ingest_logs PyDatetime.strptime w Samples.fresh) in
  let r := ingest_logs PyDatetime.strptime
             (with_file w' Examples.mixed_file)
             (mkLogIngestion (collection self1) 0) in
  ingest_logs PyDatetime.strptime w' self1
  = (mkLogIngestion (collection (fst r))
       (String.length content + last_position (fst r)),
     snd r).
Proof.
  apply (resumed_cycle_reads_the_appended_text PyDatetime.strptime
           (Samples.world (Samples.info_line ++ Samples.newline) WriteOk)
           (Samples.world
              ((Samples.info_line ++ Samples.newline) ++ Examples.mixed_file)
              WriteOk)
           Samples.fresh (Samples.info_line ++ Samples.newline)
           Examples.mixed_file).
  - reflexivity.
  - vm_compute. lia.
  - vm_compute. reflexivity.
  - reflexivity.
Defined.

End CycleFacts.

(* ================================================================== *)
(** * More on the line parser *)

Module ParsingFacts.
Import Text Regex Ingestion TextFacts ParserFacts.
Local Open Scope string_scope.

Lemma int_acc_nonneg (s : string) :
  forall acc, (0 <= acc)%Z -> (0 <= int_acc acc s)%Z.
Proof.
  induction s as [|c s IH]; intros acc H; cbn [int_acc]; [assumption |].
  apply IH. unfold digit_value. lia.
Qed.

(** The groups of a match are the seven groups of the pattern. *)
Lemma re_match_groups (line : string) (data : groupdict) :
  re_match line = Some data ->
  exists ts lv sv us ip rt ms,
    data = [ ("timestamp", ts); ("level", lv); ("service", sv);
             ("user_id", us); ("ip_address", ip); ("response_time", rt);
             ("message", ms) ].
Proof.
  intros E. apply match_items_sound in E. unfold pattern in E.
  repeat match goal with
         | H : matches (_ :: _) _ _ |- _ => inversion H; subst; clear H
         | H : matches [] _ _ |- _ => inversion H; subst; clear H
         end.
  cbn [record]. do 7 eexists. reflexivity.
Qed.

Section Parser.

Variable strptime : string -> result datetime.

(** [parse_log_line] in terms of the groups. *)
Lemma parse_log_line_groups (now : datetime) (line : string)
    (ts lv sv us ip rt ms : string) :
  re_match line
  = Some [ ("timestamp", ts); ("level", lv); ("service", sv);
           ("user_id", us); ("ip_address", ip); ("response_time", rt);
           ("message", ms) ] ->
  parse_log_line strptime now line
  = (t <- strptime ts ;;
     n <- int rt ;;
     Ok (Some (mkLogDoc t lv sv us ip n ms now))).
Proof.
  intros E. unfold parse_log_line. rewrite E.
  cbn [getitem String.eqb Ascii.eqb Bool.eqb bind].
  destruct (strptime ts); cbn [bind]; [| reflexivity].
  destruct (int rt); reflexivity.
Qed.

(** X7.  What the parser accepts it can be rebuilt from: when
    [parse_log_line] returns a document for a line (a text without line
    feed), the line is the line of well-formed fields, [strptime] turned
    its time field into the timestamp of the document, the level,
    service, user id, IP address and message of the document are the
    fields of the line, the message being all that follows [Message: ],
    and the response time is the number that its digits, at most 4300,
    write.  The classes of the fields are those of [re]: a level or a
    service may have letters outside the 7-bit range. *)
Theorem accepted_line_is_rebuilt (now : datetime) (line : string)
    (doc : LogDoc) :
  parse_log_line strptime now line = Ok (Some doc) ->
  forall_chars not_newline line = true ->
  exists f,
    well_formed f = true
    /\ line = line_of f
    /\ strptime (f_timestamp f) = Ok (timestamp doc)
    /\ (String.length (f_response_time f) <= int_max_str_digits)%nat
    /\ doc = mkLogDoc (timestamp doc) (f_level f) (f_service f)
               (f_user_id f) (f_ip_address f)
               (digits_value (f_response_time f)) (f_message f) now.
Proof.
  intros Hp Hnl.
  destruct (re_match line) as [data|] eqn:E.
  - destruct (matched_line_is_well_formed line data E Hnl) as (f & Hwf & ->).
    exists f. split; [exact Hwf |]. split; [reflexivity |].
    rewrite (parse_log_line_groups now _ _ _ _ _ _ _ _
               (re_match_line_of f Hwf)) in Hp.
    destruct (strptime (f_timestamp f)) as [t|e]; cbn [bind] in Hp;
      [| discriminate Hp].
    destruct (int (f_response_time f)) as [n|e] eqn:En; cbn [bind] in Hp;
      [| discriminate Hp].
    apply int_ok in En as (-> & _ & Hlen).
    injection Hp as <-. split; [reflexivity |]. split; [exact Hlen |].
    reflexivity.
  - unfold parse_log_line in Hp. rewrite E in Hp. discriminate Hp.
Qed.

(** X8.  The response time of a document that the parser returns is never
    negative, whatever the line. *)
Theorem parsed_response_time_nonneg (now : datetime) (line : string)
    (doc : LogDoc) :
  parse_log_line strptime now line = Ok (Some doc) ->
  (0 <= response_time doc)%Z.
Proof.
  intros Hp. destruct (re_match line) as [data|] eqn:E.
  - destruct (re_match_groups line data E)
      as (ts & lv & sv & us & ip & rt & ms & ->).
    rewrite (parse_log_line_groups now _ _ _ _ _ _ _ _ E) in Hp.
    destruct (strptime ts) as [t|e]; cbn [bind] in Hp; [| discriminate Hp].
    destruct (int rt) as [n|e] eqn:En; cbn [bind] in Hp; [| discriminate Hp].
    apply int_ok in En as (-> & _). injection Hp as <-.
    cbn [response_time]. apply int_acc_nonneg. lia.
  - unfold parse_log_line in Hp. rewrite E in Hp. discriminate Hp.
Qed.

(** When [parse_log_line] raises, [strptime] raised on the time field of
    the match, or [int] on its response time. *)
Lemma parse_raises_from_conversions (now : datetime) (line : string)
    (e : exn) :
  parse_log_line strptime now line = Raise e ->
  exists data ts,
    re_match line = Some data
    /\ getitem data "timestamp" = Ok ts
    /\ (strptime ts = Raise e
        \/ exists t rt,
             strptime ts = Ok t
             /\ getitem data "response_time" = Ok rt
             /\ (int_max_str_digits < String.length rt)%nat
             /\ e = ValueError).
Proof.
  intros Hp. destruct (re_match line) as [data|] eqn:E.
  - pose proof E as E'. apply match_items_sound in E'. unfold pattern in E'.
    repeat match goal with
           | H : matches (_ :: _) _ _ |- _ => inversion H; subst; clear H
           | H : matches [] _ _ |- _ => inversion H; subst; clear H
           end.
    cbn [record] in *.
    rewrite (parse_log_line_groups now _ _ _ _ _ _ _ _ E) in Hp.
    eexists. eexists. split; [reflexivity |]. split; [reflexivity |].
    match type of Hp with
    | context [strptime ?ts] => destruct (strptime ts) as [t|e'] eqn:Et
    end; cbn [bind] in Hp; [| left; congruence].
    right.
    match type of Hp with
    | context [int ?rt] =>
        assert (Hrun : run_of is_digit rt = true)
          by (now apply run_of_intro);
        rewrite (int_digits rt Hrun) in Hp;
        destruct (Nat.leb_spec (String.length rt) int_max_str_digits)
          as [L | L]; cbn [bind] in Hp; [discriminate Hp |];
        exists t, rt
    end.
    split; [reflexivity |]. split; [reflexivity |]. split; [exact L |].
    congruence.
  - unfold parse_log_line in Hp. rewrite E in Hp. discriminate Hp.
Qed.

Lemma parse_loop_raises (w : World) (lines : list string) :
  forall i acc e,
    parse_loop strptime w i lines acc = Raise e ->
    exists j line, In line lines
                   /\ parse_log_line strptime (now w j) (strip line) = Raise e.
Proof.
  induction lines as [|l ls IH]; intros i acc e; cbn [parse_loop];
    [discriminate |].
  destruct (strip l) eqn:El.
  - intros H. destruct (IH _ _ _ H) as (j & line & Hin & Hr).
    exists j, line. split; [now right | assumption].
  - rewrite <- El.
    destruct (parse_log_line strptime (now w i) (strip l)) as [[doc|]|e']
      eqn:Ep; cbn [bind].
    + intros H. destruct (IH _ _ _ H) as (j & line & Hin & Hr).
      exists j, line. split; [now right | assumption].
    + intros H. destruct (IH _ _ _ H) as (j & line & Hin & Hr).
      exists j, line. split; [now right | assumption].
    + intros [= <-]. exists i, l. split; [now left | assumption].
Qed.

(** X9.  The errors of a cycle on a file that was opened and holds
    7-bit text are those of three calls: when [ingest_logs] prints an
    error, either the store refused the write, or a line of the batch
    matches the pattern and [strptime] raised that error on its time
    field, or [strptime] accepted the time and [int] raised [ValueError]
    on a response time of more than 4300 digits.  No other step of the
    loop fails; in particular no group of a match is ever missing. *)
Theorem cycle_errors_come_from_libraries (w : World) (self : LogIngestion)
    (content : string) (e : exn) :
  log_file w = Some content ->
  seven_bit content = true ->
  In (ErrorIngesting e) (snd (ingest_logs strptime w self)) ->
  (e = StoreError /\ exists k, store w = WriteFails k)
  \/ exists line data ts,
       In line (readlines content (last_position self))
       /\ re_match (strip line) = Some data
       /\ getitem data "timestamp" = Ok ts
       /\ (strptime ts = Raise e
           \/ exists t rt,
                strptime ts = Ok t
                /\ getitem data "response_time" = Ok rt
                /\ (int_max_str_digits < String.length rt)%nat
                /\ e = ValueError).
Proof.
  intros Hf _.
  rewrite (CycleFacts.ingest_logs_cases strptime w self content Hf).
  destruct (parse_loop strptime w 0 _ []) as [[|d ds]|e'] eqn:Ep;
    cbn [snd].
  - intros [].
  - destruct (store w) as [|k]; cbn [snd].
    + intros [H | []]. discriminate H.
    + intros [H | []]. injection H as <-. left. eauto.
  - intros [H | []]. injection H as <-. right.
    destruct (parse_loop_raises w _ _ _ _ Ep) as (j & line & Hin & Hr).
    destruct (parse_raises_from_conversions _ _ _ Hr)
      as (data & ts & Hm & Hg & Hs).
    exists line, data, ts. auto.
Qed.

End Parser.


(** X7, on a line of the generator. *)
Lemma accepted_line_is_rebuilt_witness :
  exists f,
    well_formed f = true
    /\ Samples.info_line = line_of f
    /\ PyDatetime.strptime (f_timestamp f)
       = Ok (timestamp Samples.info_doc)
    /\ (String.length (f_response_time f) <= int_max_str_digits)%nat
    /\ Samples.info_doc
       = mkLogDoc (timestamp Samples.info_doc) (f_level f) (f_service f)
           (f_user_id f) (f_ip_address f)
           (digits_value (f_response_time f)) (f_message f) Samples.clock.
Proof.
  apply (accepted_line_is_rebuilt PyDatetime.strptime Samples.clock
           Samples.info_line Samples.info_doc).
  - vm_compute. reflexivity.
  - vm_compute. reflexivity.
Defined.

(** X8, on the start of a line. *)
Lemma parsed_response_time_nonneg_witness :
  (0 <= response_time Samples.partial_doc)%Z.
Proof.
  apply (parsed_response_time_nonneg PyDatetime.strptime Samples.clock
           Samples.partial_line Samples.partial_doc).
  vm_compute. reflexivity.
Defined.

(** X9, on a file whose line has a time that is none. *)
Lemma cycle_errors_come_from_libraries_witness :
  let content := (Samples.bad_time_line ++ Samples.newline)%string in
  let w := Samples.world content WriteOk in
  (ValueError = StoreError /\ exists k, store w = WriteFails k)
  \/ exists line data ts,
       In line (readlines content (last_position Samples.fresh))
       /\ re_match (strip line) = Some data
       /\ getitem data "timestamp" = Ok ts
       /\ (PyDatetime.strptime ts = Raise ValueError
           \/ exists t rt,
                PyDatetime.strptime ts = Ok t
                /\ getitem data "response_time" = Ok rt
                /\ (int_max_str_digits < String.length rt)%nat
                /\ ValueError = ValueError).
Proof.
  apply (cycle_errors_come_from_libraries PyDatetime.strptime
           (Samples.world (Samples.bad_time_line ++ Samples.newline) WriteOk)
           Samples.fresh (Samples.bad_time_line ++ Samples.newline)
           ValueError).
  - reflexivity.
  - vm_compute. reflexivity.
  - vm_compute. left. reflexivity.
Defined.

End ParsingFacts.

(* ================================================================== *)
(** * Counting values *)

Module CountingFacts.
Import Ingestion Processor Reports.

Section Counting.

Context {K : Type} (eqb : K -> K -> bool).
Hypothesis eqb_eq : forall a b, eqb a b = true <-> a = b.

Lemma eqb_refl (a : K) : eqb a a = true.
Proof. now apply eqb_eq. Qed.

Lemma eqb_neq (a b : K) : eqb a b = false <-> a <> b.
Proof.
  split.
  - intros H E. apply eqb_eq in E. congruence.
  - intros H. destruct (eqb a b) eqn:E; [| reflexivity].
    apply eqb_eq in E. contradiction.
Qed.

Lemma get_bump (v : K) (cs : list (K * nat)) (k : K) :
  get eqb (bump eqb v cs) k = get eqb cs k + (if eqb v k then 1 else 0).
Proof.
  induction cs as [|[k' n] cs IH]; cbn [bump get].
  - destruct (eqb v k); reflexivity.
  - destruct (eqb k' v) eqn:Ev.
    + apply eqb_eq in Ev. subst k'. cbn [get].
      destruct (eqb v k); lia.
    + cbn [get]. destruct (eqb k' k) eqn:Ek; [| exact IH].
      apply eqb_eq in Ek. subst k'.
      assert (Hvk : eqb v k = false)
        by (apply eqb_neq; apply eqb_neq in Ev; congruence).
      rewrite Hvk. lia.
Qed.

Lemma keys_bump (v : K) (cs : list (K * nat)) :
  map fst (bump eqb v cs)
  = if existsb (fun k => eqb k v) (map fst cs) then map fst cs
    else map fst cs ++ [v].
Proof.
  induction cs as [|[k n] cs IH]; cbn [bump map existsb fst app];
    [reflexivity |].
  destruct (eqb k v); cbn [map fst orb]; [reflexivity |].
  rewrite IH. destruct (existsb _ (map fst cs)); reflexivity.
Qed.

Lemma nodup_bump (v : K) (cs : list (K * nat)) :
  NoDup (map fst cs) -> NoDup (map fst (bump eqb v cs)).
Proof.
  intros H. rewrite keys_bump.
  destruct (existsb _ (map fst cs)) eqn:E; [assumption |].
  apply NoDup_app; [assumption | repeat constructor; intros [] |].
  intros k Hin [-> | []].
  assert (existsb (fun k' => eqb k' k) (map fst cs) = true)
    by (apply existsb_exists; exists k; split; [assumption | apply eqb_refl]).
  congruence.
Qed.

Lemma positive_bump (v : K) (cs : list (K * nat)) :
  Forall (fun c => 0 < snd c) cs -> Forall (fun c => 0 < snd c) (bump eqb v cs).
Proof.
  induction cs as [|[k n] cs IH]; intros H; cbn [bump].
  - repeat constructor.
  - inversion H as [|? ? Hn Hcs]; subst.
    destruct (eqb k v); constructor; cbn [snd] in *; auto; lia.
Qed.

Lemma sum_bump (v : K) (cs : list (K * nat)) :
  list_sum (map snd (bump eqb v cs)) = S (list_sum (map snd cs)).
Proof.
  induction cs as [|[k n] cs IH]; cbn [bump]; [reflexivity |].
  destruct (eqb k v); cbn [map snd list_sum fold_right]; [lia |].
  unfold list_sum in IH. rewrite IH. lia.
Qed.

(** The table after the values of [col] were counted into [cs]. *)
Lemma fold_bump (col : list K) :
  forall cs,
    let cs' := fold_left (fun cs v => bump eqb v cs) col cs in
    (forall k, get eqb cs' k = get eqb cs k + occurrences eqb k col)
    /\ (NoDup (map fst cs) -> NoDup (map fst cs'))
    /\ (Forall (fun c => 0 < snd c) cs -> Forall (fun c => 0 < snd c) cs')
    /\ list_sum (map snd cs') = list_sum (map snd cs) + length col.
Proof.
  induction col as [|v col IH]; intros cs; cbn [fold_left].
  - unfold occurrences. cbn. repeat split; auto.
  - destruct (IH (bump eqb v cs)) as (Hg & Hn & Hp & Hs).
    cbv zeta. split; [| split; [| split]].
    + intros k. rewrite Hg, get_bump. unfold occurrences. cbn [filter].
      destruct (eqb v k); cbn [length]; lia.
    + intros H. now apply Hn, nodup_bump.
    + intros H. now apply Hp, positive_bump.
    + rewrite Hs, sum_bump. cbn [length]. lia.
Qed.

Lemma get_in (cs : list (K * nat)) (k : K) (n : nat) :
  NoDup (map fst cs) -> In (k, n) cs -> get eqb cs k = n.
Proof.
  induction cs as [|[k' n'] cs IH]; cbn [map fst get]; [intros _ [] |].
  intros Hnd [E | Hin].
  - injection E as -> ->. now rewrite eqb_refl.
  - inversion Hnd as [|? ? Hnotin Hnd']; subst.
    destruct (eqb k' k) eqn:Ek; [| now apply IH].
    apply eqb_eq in Ek. subst k'. exfalso. apply Hnotin.
    change k with (fst (k, n)). now apply in_map.
Qed.

Lemma in_get (cs : list (K * nat)) (k : K) :
  0 < get eqb cs k -> In (k, get eqb cs k) cs.
Proof.
  induction cs as [|[k' n'] cs IH]; cbn [get]; [lia |].
  destruct (eqb k' k) eqn:Ek.
  - apply eqb_eq in Ek. subst k'. now left.
  - intros H. right. now apply IH.
Qed.

(** The counts of a column: one entry for each of its values, with the
    number of its occurrences. *)
Lemma counts_spec (col : list K) :
  NoDup (map fst (counts eqb col))
  /\ (forall k n, In (k, n) (counts eqb col)
                  <-> n = occurrences eqb k col /\ 0 < n)
  /\ list_sum (map snd (counts eqb col)) = length col.
Proof.
  unfold counts.
  destruct (fold_bump col []) as (Hg0 & Hn & Hp & Hs). cbv zeta in *.
  assert (Hg : forall k,
             get eqb (fold_left (fun cs v => bump eqb v cs) col []) k
             = occurrences eqb k col)
    by (intros k; now rewrite Hg0).
  specialize (Hn (NoDup_nil _)). specialize (Hp (Forall_nil _)).
  split; [exact Hn |]. split; [| exact Hs].
  intros k n. split.
  - intros Hin. rewrite <- (Hg k).
    split; [symmetry; now apply get_in |].
    rewrite Forall_forall in Hp. exact (Hp _ Hin).
  - intros [-> Hpos]. rewrite <- (Hg k) in *. now apply in_get.
Qed.

(** ** The insertion sort by decreasing count *)

Lemma insert_desc_perm (e : K * nat) (cs : list (K * nat)) :
  Permutation (insert_desc e cs) (e :: cs).
Proof.
  induction cs as [|c cs IH]; cbn [insert_desc]; [reflexivity |].
  destruct (snd c <=? snd e); [reflexivity |].
  rewrite IH. apply perm_swap.
Qed.

Lemma sort_desc_perm (cs : list (K * nat)) : Permutation (sort_desc cs) cs.
Proof.
  induction cs as [|c cs IH]; [reflexivity |].
  cbn [sort_desc fold_right]. fold (sort_desc cs).
  rewrite insert_desc_perm. now constructor.
Qed.

Lemma insert_desc_sorted (e : K * nat) (cs : list (K * nat)) :
  descending cs -> descending (insert_desc e cs).
Proof.
  unfold descending. induction 1 as [|c cs Hs IH Hc]; cbn [insert_desc].
  - repeat constructor.
  - destruct (Nat.leb_spec (snd c) (snd e)).
    + constructor; [constructor; assumption |].
      constructor; [lia |].
      rewrite Forall_forall in *. intros x Hx. specialize (Hc x Hx). lia.
    + constructor; [assumption |].
      rewrite Forall_forall in *. intros x Hx.
      apply (Permutation_in _ (insert_desc_perm e cs)) in Hx.
      destruct Hx as [<- | Hx]; [lia | now apply Hc].
Qed.

Lemma sort_desc_sorted (cs : list (K * nat)) : descending (sort_desc cs).
Proof.
  induction cs as [|c cs IH]; [constructor |].
  cbn [sort_desc fold_right]. fold (sort_desc cs).
  now apply insert_desc_sorted.
Qed.

End Counting.

Lemma sort_desc_sorts : sorts_by_count (fun K => @sort_desc K).
Proof. intros K cs. split; [apply sort_desc_perm | apply sort_desc_sorted]. Qed.

Lemma list_sum_perm (l l' : list nat) :
  Permutation l l' -> list_sum l = list_sum l'.
Proof. induction 1; unfold list_sum in *; cbn [fold_right]; lia. Qed.

(** The counts of a column after a sort by count. *)
Lemma sorted_counts_spec {K : Type} (eqb : K -> K -> bool)
    (sorted : list (K * nat)) (col : list K) :
  (forall a b, eqb a b = true <-> a = b) ->
  Permutation sorted (counts eqb col) ->
  NoDup (map fst sorted)
  /\ (forall k n, In (k, n) sorted
                  <-> n = occurrences eqb k col /\ 0 < n)
  /\ list_sum (map snd sorted) = length col.
Proof.
  intros Heq Hperm. destruct (counts_spec eqb Heq col) as (Hn & Hin & Hs).
  split; [| split].
  - apply (Permutation_NoDup (l := map fst (counts eqb col)));
      [| assumption].
    apply Permutation_map. now symmetry.
  - intros k n. rewrite <- Hin. split; apply Permutation_in;
      [assumption | now symmetry].
  - rewrite <- Hs. apply list_sum_perm, Permutation_map. assumption.
Qed.

(** [Processor.value_counts] is this counting and this sort. *)
Lemma add_count_bump (v : string) (cs : list (string * nat)) :
  add_count v cs = bump String.eqb v cs.
Proof.
  induction cs as [|[k n] cs IH]; cbn [add_count bump]; [reflexivity |].
  now rewrite IH.
Qed.

Lemma insert_by_count_desc (e : string * nat) (cs : list (string * nat)) :
  insert_by_count e cs = insert_desc e cs.
Proof.
  induction cs as [|c cs IH]; cbn [insert_by_count insert_desc];
    [reflexivity |].
  now rewrite IH.
Qed.

Lemma value_counts_sort (col : list string) :
  value_counts col = sort_desc (counts String.eqb col).
Proof.
  unfold value_counts, sort_desc, counts.
  assert (E : forall cs,
             fold_left (fun cs v => add_count v cs) col cs
             = fold_left (fun cs v => bump String.eqb v cs) col cs).
  { induction col as [|v col IH]; intros cs; cbn [fold_left];
      [reflexivity |].
    now rewrite add_count_bump, IH. }
  rewrite E. generalize (fold_left (fun cs v => bump String.eqb v cs) col []).
  induction l as [|c l IH]; cbn [fold_right]; [reflexivity |].
  now rewrite IH, insert_by_count_desc.
Qed.

End CountingFacts.

(* ================================================================== *)
(** * The statistics *)

Module StatisticsFacts.
Import Ingestion Processor Reports CountingFacts.

Lemma string_eqb_eq (a b : string) : String.eqb a b = true <-> a = b.
Proof. apply String.eqb_eq. Qed.

Lemma occurrences_map {A : Type} (f : A -> string) (k : string) (l : list A) :
  occurrences String.eqb k (map f l)
  = length (filter (fun a => String.eqb (f a) k) l).
Proof.
  unfold occurrences. induction l as [|a l IH]; cbn [map filter];
    [reflexivity |].
  destruct (String.eqb (f a) k); cbn [length]; now rewrite IH.
Qed.

Lemma error_count_split (df : DataFrame) :
  length (with_level_in ["ERROR"; "CRITICAL"] df)
  = length (with_level "ERROR" df) + length (with_level "CRITICAL" df).
Proof.
  unfold with_level_in, with_level. cbn [existsb].
  induction df as [|d df IH]; cbn [filter]; [reflexivity |].
  destruct (String.eqb (level d) "ERROR") eqn:E;
    destruct (String.eqb (level d) "CRITICAL") eqn:C;
    cbn [orb length]; rewrite ?IH; try lia.
  apply String.eqb_eq in E, C. rewrite E in C. discriminate C.
Qed.

Lemma filter_length_le {A : Type} (f : A -> bool) (l : list A) :
  length (filter f l) <= length l.
Proof.
  induction l as [|a l IH]; cbn [filter length]; [lia |].
  destruct (f a); cbn [length]; lia.
Qed.

(** the counts of a column of strings, as [Processor.value_counts] gives
    them *)
Lemma value_counts_spec {A : Type} (f : A -> string) (l : list A) :
  NoDup (map fst (value_counts (map f l)))
  /\ (forall k n, In (k, n) (value_counts (map f l))
                  <-> n = length (filter (fun a => String.eqb (f a) k) l)
                      /\ 0 < n)
  /\ list_sum (map snd (value_counts (map f l))) = length l
  /\ descending (value_counts (map f l)).
Proof.
  rewrite value_counts_sort.
  destruct (sorted_counts_spec String.eqb
              (sort_desc (counts String.eqb (map f l))) (map f l)
              string_eqb_eq (sort_desc_perm _)) as (Hn & Hin & Hs).
  split; [exact Hn |]. split; [| split].
  - intros k n. rewrite Hin, occurrences_map. reflexivity.
  - now rewrite Hs, length_map.
  - apply sort_desc_sorted.
Qed.

Section Statistics.

Variable find : nat -> result (list LogDoc).
Variable now : datetime.

(** X10.  The statistics of a window agree with each other: the total is
    the number of documents; the counts by level, and the counts by
    service, have one entry for each value present, with the number of
    documents that carry it, in decreasing order, and add up to the
    total; the error count is the number of documents of level ERROR plus
    the number of level CRITICAL, and is at most the total. *)
Theorem statistics_are_consistent (st : Stats) :
  calculate_statistics find now = Some st ->
  let df := get_logs_dataframe find 1 in
  total_logs st = length df /\ 0 < total_logs st
  /\ NoDup (map fst (log_levels st)) /\ NoDup (map fst (services st))
  /\ (forall lv n, In (lv, n) (log_levels st)
                   <-> n = length (with_level lv df) /\ 0 < n)
  /\ (forall sv n,
        In (sv, n) (services st)
        <-> n = length (filter (fun d => String.eqb (service d) sv) df)
            /\ 0 < n)
  /\ list_sum (map snd (log_levels st)) = total_logs st
  /\ list_sum (map snd (services st)) = total_logs st
  /\ descending (log_levels st) /\ descending (services st)
  /\ error_count st
     = length (with_level "ERROR" df) + length (with_level "CRITICAL" df)
  /\ error_count st <= total_logs st.
Proof.
  intros H df. unfold calculate_statistics in H. fold df in H.
  destruct df as [|d df'] eqn:Edf; [discriminate H |].
  injection H as <-.
  cbn [total_logs log_levels services error_count].
  destruct (value_counts_spec level (d :: df')) as (L1 & L2 & L3 & L4).
  destruct (value_counts_spec service (d :: df')) as (S1 & S2 & S3 & S4).
  split; [reflexivity |]. split; [cbn [length]; lia |].
  split; [exact L1 |]. split; [exact S1 |].
  split; [exact L2 |]. split; [exact S2 |].
  split; [exact L3 |]. split; [exact S3 |].
  split; [exact L4 |]. split; [exact S4 |].
  split; [exact (error_count_split (d :: df')) |].
  exact (filter_length_le _ (d :: df')).
Qed.

Lemma maximum_spec (x : Z) (xs : list Z) :
  (x <= maximum x xs)%Z
  /\ (forall y, In y xs -> (y <= maximum x xs)%Z)
  /\ In (maximum x xs) (x :: xs).
Proof.
  unfold maximum. induction xs as [|y xs (IH1 & IH2 & IH3)];
    cbn [fold_right].
  - split; [lia |]. split; [intros y [] | now left].
  - split; [lia |]. split.
    + intros z [<- | Hz]; [lia |]. specialize (IH2 z Hz). lia.
    + destruct (Z.max_spec y (fold_right Z.max x xs)) as [[_ ->] | [_ ->]].
      * destruct IH3 as [E | Hin]; [now left | right; now right].
      * right. now left.
Qed.

Lemma minimum_spec (x : Z) (xs : list Z) :
  (minimum x xs <= x)%Z
  /\ (forall y, In y xs -> (minimum x xs <= y)%Z)
  /\ In (minimum x xs) (x :: xs).
Proof.
  unfold minimum. induction xs as [|y xs (IH1 & IH2 & IH3)];
    cbn [fold_right].
  - split; [lia |]. split; [intros y [] | now left].
  - split; [lia |]. split.
    + intros z [<- | Hz]; [lia |]. specialize (IH2 z Hz). lia.
    + destruct (Z.min_spec y (fold_right Z.min x xs)) as [[_ ->] | [_ ->]].
      * right. now left.
      * destruct IH3 as [E | Hin]; [now left | right; now right].
Qed.

Lemma total_bounds (lo hi : Z) (xs : list Z) :
  (forall y, In y xs -> (lo <= y <= hi)%Z) ->
  (Z.of_nat (length xs) * lo <= total xs <= Z.of_nat (length xs) * hi)%Z.
Proof.
  unfold total. induction xs as [|x xs IH]; intros H; cbn [fold_right length].
  - lia.
  - assert (lo <= x <= hi)%Z by (apply H; now left).
    assert (Z.of_nat (length xs) * lo <= fold_right Z.add 0 xs
            <= Z.of_nat (length xs) * hi)%Z
      by (apply IH; intros y Hy; apply H; now right).
    lia.
Qed.

Local Open Scope R_scope.

Lemma mean_bounds (lo hi : Z) (xs : list Z) :
  xs <> [] ->
  (forall y, In y xs -> (lo <= y <= hi)%Z) ->
  IZR lo <= mean xs <= IZR hi.
Proof.
  intros Hne H. destruct (total_bounds lo hi xs H) as [Hl Hh].
  apply IZR_le in Hl, Hh. rewrite mult_IZR, <- INR_IZR_INZ in Hl, Hh.
  assert (Hn : 0 < INR (length xs)).
  { apply lt_0_INR. destruct xs; [congruence | simpl; lia]. }
  unfold mean. split.
  - apply Rmult_le_reg_r with (r := INR (length xs)); [assumption |].
    replace (IZR (total xs) / INR (length xs) * INR (length xs))
      with (IZR (total xs)) by (field; lra).
    lra.
  - apply Rmult_le_reg_r with (r := INR (length xs)); [assumption |].
    replace (IZR (total xs) / INR (length xs) * INR (length xs))
      with (IZR (total xs)) by (field; lra).
    lra.
Qed.

(** X11.  In the statistics of a window the minimum, the mean and the
    maximum of the response times are all present; the minimum and the
    maximum are the response times of documents of the window, every
    response time lies between them, and so does the mean when the sums
    of the response times are exact in float64 (their absolute values
    add up to at most 2^53). *)
Theorem response_time_statistics_are_ordered (st : Stats) :
  calculate_statistics find now = Some st ->
  let df := get_logs_dataframe find 1 in
  exists mn mx avg,
    min_response_time st = Some mn
    /\ max_response_time st = Some mx
    /\ avg_response_time st = Some avg
    /\ (exists d, In d df /\ response_time d = mn)
    /\ (exists d, In d df /\ response_time d = mx)
    /\ (forall d, In d df -> (mn <= response_time d <= mx)%Z)
    /\ (exact_sums (map response_time df) = true ->
        IZR mn <= avg <= IZR mx).
Proof.
  intros H df. unfold calculate_statistics in H. fold df in H.
  destruct df as [|d df'] eqn:Edf; [discriminate H |].
  injection H as <-.
  set (rts := map response_time (d :: df')).
  destruct (maximum_spec (response_time d) rts) as (M1 & M2 & M3).
  destruct (minimum_spec (response_time d) rts) as (N1 & N2 & N3).
  assert (Hin : forall y, In y (response_time d :: rts) -> In y rts).
  { intros y [<- | Hy]; [now left | assumption]. }
  exists (minimum (response_time d) rts), (maximum (response_time d) rts),
    (mean rts).
  split; [reflexivity |]. split; [reflexivity |]. split; [reflexivity |].
  split.
  { apply Hin, in_map_iff in N3 as (d0 & E & Hd0). eauto. }
  split.
  { apply Hin, in_map_iff in M3 as (d0 & E & Hd0). eauto. }
  split.
  { intros d0 Hd0. split; [apply N2 | apply M2]; now apply in_map. }
  intros _. apply mean_bounds; [discriminate |]. intros y Hy. split; auto.
Qed.

End Statistics.


(** X10, on twenty documents with four of level ERROR. *)
Lemma statistics_are_consistent_witness :
  let st := Examples.error_stats in
  let df := get_logs_dataframe (Samples.found Samples.error_window) 1 in
  total_logs st = length df /\ 0 < total_logs st
  /\ NoDup (map fst (log_levels st)) /\ NoDup (map fst (services st))
  /\ (forall lv n, In (lv, n) (log_levels st)
                   <-> n = length (with_level lv df) /\ 0 < n)
  /\ (forall sv n,
        In (sv, n) (services st)
        <-> n = length (filter (fun d => String.eqb (service d) sv) df)
            /\ 0 < n)
  /\ list_sum (map snd (log_levels st)) = total_logs st
  /\ list_sum (map snd (services st)) = total_logs st
  /\ descending (log_levels st) /\ descending (services st)
  /\ error_count st
     = length (with_level "ERROR" df) + length (with_level "CRITICAL" df)
  /\ error_count st <= total_logs st.
Proof.
  apply (statistics_are_consistent (Samples.found Samples.error_window)
           Samples.clock Examples.error_stats).
  reflexivity.
Defined.

(** X11, on the same documents. *)
Lemma response_time_statistics_are_ordered_witness :
  let st := Examples.error_stats in
  let df := get_logs_dataframe (Samples.found Samples.error_window) 1 in
  exists mn mx avg,
    min_response_time st = Some mn
    /\ max_response_time st = Some mx
    /\ avg_response_time st = Some avg
    /\ (exists d, In d df /\ response_time d = mn)
    /\ (exists d, In d df /\ response_time d = mx)
    /\ (forall d, In d df -> (mn <= response_time d <= mx)%Z)
    /\ (exact_sums (map response_time df) = true ->
        (IZR mn <= avg <= IZR mx)%R).
Proof.
  apply (response_time_statistics_are_ordered
           (Samples.found Samples.error_window) Samples.clock
           Examples.error_stats).
  reflexivity.
Defined.

End StatisticsFacts.

(* ================================================================== *)
(** * More on the anomalies *)

Module AnomalyFacts.
Import Ingestion Processor ProcessorFacts StatisticsFacts.
Local Open Scope R_scope.

Lemma round_half_even_ge (z : Z) (y : R) :
  IZR z <= y -> (z <= round_half_even y)%Z.
Proof.
  intros H. unfold round_half_even.
  destruct (base_Int_part y) as [H1 H2]. set (f := Int_part y) in *.
  assert (z - 1 < f)%Z by (apply lt_IZR; rewrite minus_IZR; lra).
  destruct (Rlt_dec (y - IZR f) (1 / 2)); [lia |].
  destruct (Rlt_dec (1 / 2) (y - IZR f)); [lia |].
  destruct (Z.even f); lia.
Qed.

Lemma round_half_even_le (z : Z) (y : R) :
  y <= IZR z -> (round_half_even y <= z)%Z.
Proof.
  intros H. unfold round_half_even.
  destruct (base_Int_part y) as [H1 H2]. set (f := Int_part y) in *.
  assert (Hf : (f <= z)%Z) by (apply le_IZR; lra).
  destruct (Z.eq_dec f z) as [E | E].
  - destruct (Rlt_dec (y - IZR f) (1 / 2)) as [|N]; [lia |].
    exfalso. apply N. rewrite E. lra.
  - destruct (Rlt_dec (y - IZR f) (1 / 2)); [lia |].
    destruct (Rlt_dec (1 / 2) (y - IZR f)); [lia |].
    destruct (Z.even f); lia.
Qed.

(** [round(x, 2)] stays between the hundredths that enclose [x]. *)
Lemma round2_between (lo hi : Z) (x : R) :
  IZR lo / 100 <= x <= IZR hi / 100 ->
  IZR lo / 100 <= round2 x <= IZR hi / 100.
Proof.
  intros [Hl Hh]. unfold round2.
  assert (L : (lo <= round_half_even (x * 100))%Z)
    by (apply round_half_even_ge; lra).
  assert (U : (round_half_even (x * 100) <= hi)%Z)
    by (apply round_half_even_le; lra).
  apply IZR_le in L, U. lra.
Qed.

(** The squared deviations of the flagged values alone already exceed
    [4 * std^2] each. *)
Lemma flagged_deviations (m s : R) (l : list Z) :
  0 <= s ->
  let sq := fold_right (fun x acc => (IZR x - m) * (IZR x - m) + acc) 0 in
  let k := length (filter (fun x => Rgtb (IZR x) (m + 2 * s)) l) in
  INR k * (4 * (s * s)) <= sq l
  /\ ((0 < k)%nat -> INR k * (4 * (s * s)) < sq l).
Proof.
  intros Hs sq k. subst sq k.
  induction l as [|x l [IH1 IH2]]; cbn [filter fold_right length].
  - simpl. split; [lra | lia].
  - pose proof (Rle_0_sqr (IZR x - m)) as Hsq. unfold Rsqr in Hsq.
    destruct (Rgtb (IZR x) (m + 2 * s)) eqn:E.
    + apply Rgtb_spec in E.
      assert (4 * (s * s) < (IZR x - m) * (IZR x - m)) by nra.
      cbn [length]. rewrite S_INR.
      split; [lra | intros _; lra].
    + split; [lra |]. intros Hk. specialize (IH2 Hk). lra.
Qed.

Lemma slow_requests_length (df : DataFrame) :
  length (slow_requests df)
  = length (filter (fun x => Rgtb (IZR x) (threshold (map response_time df)))
              (map response_time df)).
Proof.
  unfold slow_requests.
  generalize (threshold (map response_time df)) as t. intros t.
  induction df as [|d df IH]; cbn [filter map]; [reflexivity |].
  destruct (Rgtb (IZR (response_time d)) t); cbn [length]; now rewrite IH.
Qed.

(** Fewer than a quarter of the values are above the threshold. *)
Lemma slow_requests_are_few (df : DataFrame) :
  (2 <= length df)%nat ->
  (4 * length (slow_requests df) + 1 < length df)%nat.
Proof.
  intros Hlen. rewrite slow_requests_length.
  set (xs := map response_time df).
  assert (Hxs : (2 <= length xs)%nat) by (unfold xs; now rewrite length_map).
  replace (length df) with (length xs) by (unfold xs; apply length_map).
  destruct (std_sample xs Hxs) as [Hs Hq].
  destruct (flagged_deviations (mean xs) (std xs) xs Hs) as [_ Hk].
  fold (sum_sq_dev xs) in Hk. fold (threshold xs) in Hk.
  set (k := length (filter _ xs)) in *.
  destruct (Nat.eq_0_gt_0_cases k) as [-> | Hpos]; [lia |].
  specialize (Hk Hpos). rewrite <- Hq in Hk.
  assert (Hn : 2 <= INR (length xs))
    by (apply le_INR in Hxs; simpl (INR 2) in Hxs; lra).
  assert (Hk1 : 1 <= INR k)
    by (apply le_INR in Hpos; simpl (INR 1) in Hpos; lra).
  assert (Hss : 0 < std xs * std xs).
  { destruct (Rle_lt_or_eq_dec 0 (std xs) Hs) as [P | Z0]; [nra |].
    exfalso. rewrite <- Z0 in Hk. lra. }
  assert (Hr : INR k * 4 < INR (length xs) - 1) by nra.
  apply INR_lt. rewrite plus_INR, mult_INR. simpl (INR 4). simpl (INR 1).
  lra.
Qed.

Section Anomalies.

Variable find : nat -> result (list LogDoc).

Lemma detect_anomalies_window (a : Anomaly) :
  In a (detect_anomalies find) ->
  (10 <= length (get_logs_dataframe find 1))%nat.
Proof.
  intros H.
  destruct (Nat.lt_ge_cases (length (get_logs_dataframe find 1)) 10) as [L|L];
    [| assumption].
  rewrite (detect_anomalies_small find L) in H. destruct H.
Qed.

Lemma error_count_of_statistics (now : datetime) (st : Stats) :
  calculate_statistics find now = Some st ->
  error_count st
  = length (with_level_in ["ERROR"; "CRITICAL"] (get_logs_dataframe find 1)).
Proof.
  unfold calculate_statistics.
  destruct (get_logs_dataframe find 1) as [|d df']; [discriminate |].
  intros [= <-]. reflexivity.
Qed.

(** X12.  The rule of the high response times cannot flag a large part of
    a window: the count of an entry of type High Response Time is at
    least 1, and four times that count, plus one, is less than the number
    of documents of the window. *)
Theorem high_response_time_count_is_small (c : nat) (t a : R) :
  In (HighResponseTime c t a) (detect_anomalies find) ->
  (1 <= c)%nat
  /\ (4 * c + 1 < length (get_logs_dataframe find 1))%nat.
Proof.
  intros H. pose proof (detect_anomalies_window _ H) as Hlen.
  rewrite (detect_anomalies_parts find Hlen) in H.
  apply in_app_iff in H as [H | H].
  - apply response_time_part_entries in H as [Hne H].
    injection H as -> _ _. split.
    + destruct (slow_requests _); [congruence | simpl; lia].
    + apply slow_requests_are_few. lia.
  - apply error_rate_part_entries in H as [_ H]. discriminate H.
Qed.

(** X13.  An entry of type High Error Rate counts at least two documents
    and at most those of the window; its rate is between 15 and 100; and
    its count is at most the error count of the statistics of the same
    window, which counts the level CRITICAL too. *)
Theorem high_error_rate_entry_bounds (rate : R) (count : nat) :
  In (HighErrorRate rate count) (detect_anomalies find) ->
  (2 <= count <= length (get_logs_dataframe find 1))%nat
  /\ 15 <= rate <= 100
  /\ forall now st, calculate_statistics find now = Some st ->
                    (count <= error_count st)%nat.
Proof.
  intros H. pose proof (detect_anomalies_window _ H) as Hlen.
  rewrite (detect_anomalies_parts find Hlen) in H.
  apply in_app_iff in H as [H | H].
  { apply response_time_part_entries in H as [_ H]. discriminate H. }
  apply error_rate_part_entries in H as [Hr H]. injection H as -> ->.
  set (df := get_logs_dataframe find 1) in *.
  set (k := length (with_level "ERROR" df)).
  assert (Hk : (k <= length df)%nat) by apply filter_length_le.
  assert (H15 : (15 * length df < 100 * k)%nat).
  { apply error_rate_above; [lia |]. exact Hr. }
  split; [lia |]. split.
  - assert (Hn : 0 < INR (length df)) by (apply lt_0_INR; lia).
    assert (Hle : error_rate df <= 100).
    { unfold error_rate. fold k.
      apply le_INR in Hk.
      apply Rmult_le_reg_r with (r := INR (length df)); [assumption |].
      replace (INR k / INR (length df) * 100 * INR (length df))
        with (100 * INR k) by (field; lra).
      lra. }
    replace 15 with (IZR 1500 / 100) by lra.
    replace 100 with (IZR 10000 / 100) at 2 by lra.
    apply round2_between. lra.
  - intros now st Hst. rewrite (error_count_of_statistics now st Hst).
    fold df. rewrite (error_count_split df). fold k. lia.
Qed.

End Anomalies.


(** The entries of the two sample windows. *)
Lemma latency_window_entry :
  In (HighResponseTime 1 (368903 / 100) 5000)
    (detect_anomalies (Samples.found Samples.latency_window)).
Proof.
  rewrite detect_anomalies_parts by (vm_compute; lia).
  apply in_or_app. left. rewrite found_dataframe.
  rewrite (latencies_response_time_part Samples.latency_window eq_refl).
  now left.
Qed.

Lemma error_window_entry :
  In (HighErrorRate 20 4)
    (detect_anomalies (Samples.found Samples.error_window)).
Proof.
  rewrite detect_anomalies_parts by (vm_compute; lia).
  apply in_or_app. right. rewrite found_dataframe.
  assert (Hr : error_rate Samples.error_window = 20).
  { unfold error_rate.
    change (length (with_level "ERROR" Samples.error_window)) with 4%nat.
    change (length Samples.error_window) with 20%nat.
    rewrite !INR_Z. change (Z.of_nat 4) with 4%Z.
    change (Z.of_nat 20) with 20%Z. lra. }
  rewrite error_rate_part_fires by (rewrite Hr; lra).
  rewrite Hr. left. f_equal.
  rewrite (round2_near 2000); lra.
Qed.

(** X12, on the ten documents of the latency example. *)
Lemma high_response_time_count_is_small_witness :
  (1 <= 1)%nat
  /\ (4 * 1 + 1
      < length (get_logs_dataframe (Samples.found Samples.latency_window) 1))%nat.
Proof.
  apply (high_response_time_count_is_small
           (Samples.found Samples.latency_window) 1 (368903 / 100) 5000).
  exact latency_window_entry.
Defined.

(** X13, on twenty documents with four of level ERROR. *)
Lemma high_error_rate_entry_bounds_witness :
  (2 <= 4 <= length (get_logs_dataframe
                       (Samples.found Samples.error_window) 1))%nat
  /\ 15 <= 20 <= 100
  /\ forall now st,
       calculate_statistics (Samples.found Samples.error_window) now = Some st ->
       (4 <= error_count st)%nat.
Proof.
  apply (high_error_rate_entry_bounds
           (Samples.found Samples.error_window) 20 4).
  exact error_window_entry.
Defined.

End AnomalyFacts.

(* ================================================================== *)
(** * Peak hours, frequent errors and the report *)

Module ReportFacts.
Import Ingestion Processor Reports CountingFacts StatisticsFacts.

Lemma Z_eqb_eq (a b : Z) : Z.eqb a b = true <-> a = b.
Proof. apply Z.eqb_eq. Qed.

Lemma occurrences_of_map {A K : Type} (eqb : K -> K -> bool) (f : A -> K)
    (k : K) (l : list A) :
  occurrences eqb k (map f l) = length (filter (fun a => eqb (f a) k) l).
Proof.
  unfold occurrences. induction l as [|a l IH]; cbn [map filter];
    [reflexivity |].
  destruct (eqb (f a) k); cbn [length]; now rewrite IH.
Qed.

(** ** The sort by index *)

Lemma insert_by_index_perm (e : Z * nat) (cs : list (Z * nat)) :
  Permutation (insert_by_index e cs) (e :: cs).
Proof.
  induction cs as [|c cs IH]; cbn [insert_by_index]; [reflexivity |].
  destruct (fst e <=? fst c)%Z; [reflexivity |].
  rewrite IH. apply perm_swap.
Qed.

Lemma sort_index_perm (cs : list (Z * nat)) : Permutation (sort_index cs) cs.
Proof.
  induction cs as [|c cs IH]; [reflexivity |].
  cbn [sort_index fold_right]. fold (sort_index cs).
  rewrite insert_by_index_perm. now constructor.
Qed.

Lemma insert_by_index_sorted (e : Z * nat) (cs : list (Z * nat)) :
  StronglySorted (fun a b => (fst a <= fst b)%Z) cs ->
  StronglySorted (fun a b => (fst a <= fst b)%Z) (insert_by_index e cs).
Proof.
  induction 1 as [|c cs Hs IH Hc]; cbn [insert_by_index].
  - repeat constructor.
  - destruct (Z.leb_spec (fst e) (fst c)).
    + constructor; [constructor; assumption |].
      constructor; [lia |].
      rewrite Forall_forall in *. intros x Hx. specialize (Hc x Hx). lia.
    + constructor; [assumption |].
      rewrite Forall_forall in *. intros x Hx.
      apply (Permutation_in _ (insert_by_index_perm e cs)) in Hx.
      destruct Hx as [<- | Hx]; [lia | now apply Hc].
Qed.

Lemma sort_index_sorted (cs : list (Z * nat)) :
  StronglySorted (fun a b => (fst a <= fst b)%Z) (sort_index cs).
Proof.
  induction cs as [|c cs IH]; [constructor |].
  cbn [sort_index fold_right]. fold (sort_index cs).
  now apply insert_by_index_sorted.
Qed.

(** With distinct keys the order is strict. *)
Lemma sorted_distinct_strict (cs : list (Z * nat)) :
  NoDup (map fst cs) ->
  StronglySorted (fun a b => (fst a <= fst b)%Z) cs ->
  StronglySorted (fun a b => (fst a < fst b)%Z) cs.
Proof.
  induction 2 as [|c cs Hs IH Hc]; [constructor |].
  cbn [map] in H. inversion H as [|? ? Hnotin Hnd]; subst.
  constructor; [now apply IH |].
  rewrite Forall_forall in *. intros x Hx. specialize (Hc x Hx).
  assert (fst c <> fst x).
  { intros E. apply Hnotin. rewrite E. now apply in_map. }
  lia.
Qed.

(** ** Prefixes of sorted lists *)

Lemma sorted_app_inv {A : Type} (R : A -> A -> Prop) (l1 l2 : list A) :
  StronglySorted R (l1 ++ l2) ->
  StronglySorted R l1 /\ forall a b, In a l1 -> In b l2 -> R a b.
Proof.
  induction l1 as [|x l1 IH]; cbn [app]; intros H.
  - split; [constructor | intros a b []].
  - inversion H as [|? ? Hs Hx]; subst. destruct (IH Hs) as [IH1 IH2].
    rewrite Forall_forall in Hx. split.
    + constructor; [assumption |]. rewrite Forall_forall.
      intros y Hy. apply Hx, in_or_app. now left.
    + intros a b [<- | Ha] Hb; [| now apply IH2].
      apply Hx, in_or_app. now right.
Qed.

Section WithPandas.

Variable sort_values : forall K : Type, list (K * nat) -> list (K * nat).
Hypothesis sort_values_sorts : sorts_by_count sort_values.

Lemma value_counts_by_spec {A K : Type} (eqb : K -> K -> bool)
    (f : A -> K) (l : list A) :
  (forall a b, eqb a b = true <-> a = b) ->
  let vc := value_counts_by sort_values eqb (map f l) in
  NoDup (map fst vc)
  /\ (forall k n, In (k, n) vc
                  <-> n = length (filter (fun a => eqb (f a) k) l) /\ 0 < n)
  /\ list_sum (map snd vc) = length l
  /\ descending vc.
Proof.
  intros Heq vc. unfold vc, value_counts_by.
  destruct (sort_values_sorts K (counts eqb (map f l))) as [Hperm Hdesc].
  destruct (sorted_counts_spec eqb _ (map f l) Heq Hperm) as (Hn & Hin & Hs).
  split; [exact Hn |]. split; [| split; [| exact Hdesc]].
  - intros k n. rewrite Hin, occurrences_of_map. reflexivity.
  - now rewrite Hs, length_map.
Qed.

Section WithStore.

Variable find : nat -> result (list LogDoc).

(** X14.  The peak hours of the last 24 hours are listed by strictly
    increasing hour; an hour is listed exactly when a document of the
    window falls in it, with the number of these documents; the counts
    add up to the number of documents; and when the hours of the
    timestamps are hours of the day, there are at most 24 entries. *)
Theorem peak_hours_count_the_window :
  let df := get_logs_dataframe find 24 in
  let peaks := get_peak_hours sort_values find in
  StronglySorted (fun a b => (fst a < fst b)%Z) peaks
  /\ (forall h n,
        In (h, n) peaks
        <-> n = length (filter (fun d => (hour (timestamp d) =? h)%Z) df)
            /\ 0 < n)
  /\ list_sum (map snd peaks) = length df
  /\ ((forall d, In d df -> (0 <= hour (timestamp d) < 24)%Z) ->
      length peaks <= 24).
Proof.
  intros df peaks. unfold peaks, get_peak_hours. fold df.
  destruct df as [|d0 df0] eqn:Edf.
  { split; [constructor |]. split; [| split; [reflexivity | simpl; lia]].
    intros h n. cbn. split; [intros [] | lia]. }
  rewrite <- Edf. clear Edf d0 df0.
  destruct (value_counts_by_spec Z.eqb (fun d => hour (timestamp d)) df
              Z_eqb_eq) as (Hn & Hin & Hs & _).
  fold (hours_of df) in *.
  set (vc := value_counts_by sort_values Z.eqb (hours_of df)) in *.
  pose proof (sort_index_perm vc) as Hperm.
  assert (Hnd : NoDup (map fst (sort_index vc))).
  { apply (Permutation_NoDup (l := map fst vc)); [| assumption].
    apply Permutation_map. now symmetry. }
  assert (Hin' : forall h n,
             In (h, n) (sort_index vc)
             <-> n = length (filter (fun d => (hour (timestamp d) =? h)%Z) df)
                 /\ 0 < n).
  { intros h n. rewrite <- Hin. split; apply Permutation_in;
      [assumption | now symmetry]. }
  split; [apply sorted_distinct_strict; [assumption | apply sort_index_sorted] |].
  split; [exact Hin' |].
  split; [rewrite <- Hs; apply list_sum_perm, Permutation_map; assumption |].
  intros Hday.
  replace (length (sort_index vc)) with (length (map fst (sort_index vc)))
    by apply length_map.
  replace 24 with (length (map Z.of_nat (seq 0 24))) by reflexivity.
  apply NoDup_incl_length; [assumption |].
  intros h Hh. apply in_map_iff in Hh as ([h' n] & <- & Hhn). cbn [fst].
  apply Hin' in Hhn as [-> Hpos].
  destruct (filter _ df) as [|d ds] eqn:Ef; [simpl in Hpos; lia |].
  assert (Hd : In d (filter (fun d => (hour (timestamp d) =? h')%Z) df))
    by (rewrite Ef; now left).
  apply filter_In in Hd as [Hd Eh]. apply Z.eqb_eq in Eh.
  specialize (Hday d Hd). rewrite Eh in Hday.
  apply in_map_iff. exists (Z.to_nat h'). split; [lia |].
  apply in_seq. lia.
Qed.

Lemma get_frequent_errors_cases (top_n : nat) :
  let errors :=
    with_level_in ["ERROR"; "CRITICAL"] (get_logs_dataframe find 24) in
  get_frequent_errors sort_values find top_n
  = firstn top_n (value_counts_by sort_values String.eqb (map message errors))
  \/ (get_frequent_errors sort_values find top_n = [] /\ errors = []).
Proof.
  unfold get_frequent_errors.
  destruct (get_logs_dataframe find 24) as [|d df];
    [right; split; reflexivity |].
  destruct (with_level_in ["ERROR"; "CRITICAL"] (d :: df)) as [|e es];
    [right; split; reflexivity | left; reflexivity].
Qed.

(** X15.  The frequent errors are the most frequent messages of the
    documents of level ERROR or CRITICAL: at most [top_n] entries, with
    distinct messages, in decreasing order of count; the count of an
    entry is the number of these documents that carry its message; and a
    message of such a document is left out only when [top_n] entries are
    listed whose counts are all at least its own. *)
Theorem frequent_errors_are_the_top_counts (top_n : nat) :
  let df := get_logs_dataframe find 24 in
  let errors := with_level_in ["ERROR"; "CRITICAL"] df in
  let count := fun m =>
    length (filter (fun d => String.eqb (message d) m) errors) in
  let top := get_frequent_errors sort_values find top_n in
  length top <= top_n
  /\ NoDup (map fst top)
  /\ descending top
  /\ (forall m n, In (m, n) top -> n = count m /\ 0 < n)
  /\ (forall m, 0 < count m -> ~ In m (map fst top) ->
                length top = top_n
                /\ forall m' n', In (m', n') top -> count m <= n').
Proof.
  intros df errors count top.
  destruct (value_counts_by_spec String.eqb message errors string_eqb_eq)
    as (Hn & Hin & _ & Hdesc).
  set (vc := value_counts_by sort_values String.eqb (map message errors)) in *.
  destruct (get_frequent_errors_cases top_n) as [Etop | [Etop Eerr]];
    fold df errors vc top in Etop; try fold df errors in Eerr.
  2:{ rewrite Etop. split; [simpl; lia |]. split; [constructor |].
      split; [constructor |]. split; [intros m n [] |].
      intros m Hm. unfold count in Hm. rewrite Eerr in Hm.
      simpl in Hm. lia. }
  rewrite Etop.
  pose proof (firstn_skipn top_n vc) as Hsplit.
  assert (Hd : descending (firstn top_n vc ++ skipn top_n vc))
    by (rewrite Hsplit; exact Hdesc).
  apply sorted_app_inv in Hd as [Hd1 Hd2].
  split; [apply firstn_le_length |].
  split.
  { rewrite <- Hsplit, map_app in Hn. now apply NoDup_app_remove_r in Hn. }
  split; [exact Hd1 |].
  split.
  { intros m n Hmn. apply Hin. rewrite <- Hsplit. apply in_or_app. now left. }
  intros m Hm Hout.
  assert (Hmvc : In (m, count m) vc) by (apply Hin; split; [reflexivity | exact Hm]).
  rewrite <- Hsplit in Hmvc. apply in_app_or in Hmvc as [Hfirst | Hskip].
  { exfalso. apply Hout. change m with (fst (m, count m)). now apply in_map. }
  split.
  - destruct (Nat.le_gt_cases (length vc) top_n) as [L | L].
    + rewrite skipn_all2 in Hskip by assumption. destruct Hskip.
    + rewrite length_firstn. lia.
  - intros m' n' Hm'. exact (Hd2 _ _ Hm' Hskip).
Qed.

End WithStore.

(** X16.  A report is produced whatever the store answers: when each of
    the four queries raises or finds no document, [generate_report]
    returns the report without statistics and with no anomaly, no peak
    hour and no frequent error, whether or not the report file can be
    written. *)
Theorem report_of_an_empty_store
    (store : nat -> nat -> result (list LogDoc)) (clock : nat -> datetime)
    (can_save : bool) :
  (forall i hours, store i hours = Ok [] \/ exists e, store i hours = Raise e) ->
  fst (generate_report sort_values store clock can_save)
  = mkReport (clock 1) None [] [] [].
Proof.
  intros H.
  assert (E : forall i hours, get_logs_dataframe (store i) hours = []).
  { intros i hours. unfold get_logs_dataframe.
    destruct (H i hours) as [-> | [e ->]]; reflexivity. }
  unfold generate_report, calculate_statistics, detect_anomalies,
    get_peak_hours, get_frequent_errors.
  cbn [fst]. rewrite !E. reflexivity.
Qed.

End WithPandas.


(** X14, on four documents of one day, with the insertion sort. *)
Lemma peak_hours_count_the_window_witness :
  let df := get_logs_dataframe (Samples.found Examples.day_window) 24 in
  let peaks :=
    get_peak_hours Examples.insertion_sort
      (Samples.found Examples.day_window) in
  StronglySorted (fun a b => (fst a < fst b)%Z) peaks
  /\ (forall h n,
        In (h, n) peaks
        <-> n = length (filter (fun d => (hour (timestamp d) =? h)%Z) df)
            /\ 0 < n)
  /\ list_sum (map snd peaks) = length df
  /\ ((forall d, In d df -> (0 <= hour (timestamp d) < 24)%Z) ->
      length peaks <= 24).
Proof.
  apply (peak_hours_count_the_window Examples.insertion_sort
           CountingFacts.sort_desc_sorts
           (Samples.found Examples.day_window)).
Defined.

(** X15, on the same documents, for the two most frequent messages. *)
Lemma frequent_errors_are_the_top_counts_witness :
  let df := get_logs_dataframe (Samples.found Examples.day_window) 24 in
  let errors := with_level_in ["ERROR"; "CRITICAL"] df in
  let count := fun m =>
    length (filter (fun d => String.eqb (message d) m) errors) in
  let top :=
    get_frequent_errors Examples.insertion_sort
      (Samples.found Examples.day_window) 2 in
  length top <= 2
  /\ NoDup (map fst top)
  /\ descending top
  /\ (forall m n, In (m, n) top -> n = count m /\ 0 < n)
  /\ (forall m, 0 < count m -> ~ In m (map fst top) ->
                length top = 2
                /\ forall m' n', In (m', n') top -> count m <= n').
Proof.
  apply (frequent_errors_are_the_top_counts Examples.insertion_sort
           CountingFacts.sort_desc_sorts
           (Samples.found Examples.day_window) 2).
Defined.

(** X16, on a store that is down for one query and empty for the others,
    when the report file cannot be written. *)
Lemma report_of_an_empty_store_witness :
  fst (generate_report Examples.insertion_sort Examples.flaky_store
         (fun _ => Samples.clock) false)
  = mkReport Samples.clock None [] [] [].
Proof.
  apply (report_of_an_empty_store Examples.insertion_sort
           Examples.flaky_store (fun _ => Samples.clock) false).
  intros [|[|i]] hours; [left | right; exists StoreError | left]; reflexivity.
Defined.

End ReportFacts.

(* ================================================================== *)
(** * What the generator writes *)

Module GeneratorFacts.
Import Text Regex Ingestion TextFacts ParserFacts Generator.
Import ListNotations.
Local Open Scope string_scope.

Lemma code_digit_char (n : Z) :
  (n < 10)%Z -> code (digit_char n) = (48 + Z.to_nat n)%nat.
Proof.
  intros H. unfold code, digit_char. apply nat_ascii_embedding. lia.
Qed.

Lemma digit_char_is_digit (n : Z) : (n < 10)%Z -> is_digit (digit_char n) = true.
Proof.
  intros H. unfold is_digit, between. rewrite (code_digit_char n H).
  apply andb_true_iff. split; apply Nat.leb_le; lia.
Qed.

Lemma digit_value_char (n : Z) :
  (0 <= n < 10)%Z -> digit_value (digit_char n) = n.
Proof.
  intros H. unfold digit_value. rewrite code_digit_char by lia. lia.
Qed.

(** [str] writes digits, at least one. *)
Lemma str_digits_run (fuel : nat) :
  forall n, fuel <> O -> run_of is_digit (str_digits fuel n) = true.
Proof.
  induction fuel as [|fuel IH]; intros n Hf; [congruence |].
  cbn [str_digits]. destruct (Z.ltb_spec n 10) as [L | L].
  - unfold run_of. cbn [nonempty forall_chars].
    now rewrite digit_char_is_digit.
  - apply run_of_intro.
    + destruct (str_digits fuel (n / 10)); discriminate.
    + rewrite forall_chars_append. cbn [forall_chars].
      rewrite digit_char_is_digit by (apply Z.mod_pos_bound; lia).
      rewrite andb_true_r.
      destruct fuel as [|fuel']; [reflexivity |].
      specialize (IH (n / 10)%Z ltac:(discriminate)).
      unfold run_of in IH. now apply andb_true_iff in IH.
Qed.

Lemma str_run (n : Z) : run_of is_digit (str n) = true.
Proof. apply str_digits_run. discriminate. Qed.

(** The digits that [str] wrote are read back. *)
Lemma digits_value_str_digits (fuel : nat) :
  forall n, (0 <= n)%Z -> (Z.to_nat n < fuel)%nat ->
            digits_value (str_digits fuel n) = n.
Proof.
  induction fuel as [|fuel IH]; intros n Hn Hf; [lia |].
  cbn [str_digits]. destruct (Z.ltb_spec n 10) as [L | L].
  - unfold digits_value. cbn [int_acc]. rewrite digit_value_char; lia.
  - rewrite digits_value_snoc, IH.
    + rewrite digit_value_char by (apply Z.mod_pos_bound; lia).
      symmetry. apply Z.div_mod. lia.
    + apply Z.div_pos; lia.
    + assert (n / 10 < n)%Z by (apply Z.div_lt; lia).
      assert (0 <= n / 10)%Z by (apply Z.div_pos; lia). lia.
Qed.

Lemma digits_value_str (n : Z) : (0 <= n)%Z -> digits_value (str n) = n.
Proof. intros H. apply digits_value_str_digits; [assumption | lia]. Qed.

(** A number below a power of ten has at most that many digits. *)
Lemma str_digits_length (fuel : nat) :
  forall n k, (0 <= n < 10 ^ Z.of_nat (S k))%Z ->
              (String.length (str_digits fuel n) <= S k)%nat.
Proof.
  induction fuel as [|fuel IH]; intros n k H; cbn [str_digits];
    [cbn; lia |].
  destruct (Z.ltb_spec n 10) as [L | L]; [cbn; lia |].
  rewrite length_append. cbn [String.length].
  destruct k as [|k]; [cbn in H; lia |].
  assert (Hq : (0 <= n / 10 < 10 ^ Z.of_nat (S k))%Z).
  { split; [apply Z.div_pos; lia |].
    apply Z.div_lt_upper_bound; [lia |].
    rewrite <- Z.pow_succ_r by lia. rewrite <- Nat2Z.inj_succ. lia. }
  specialize (IH _ _ Hq). lia.
Qed.

(** [int] reads back what [str] wrote of a number of at most four
    digits. *)
Lemma int_str (n : Z) : (0 <= n <= 9999)%Z -> int (str n) = Ok n.
Proof.
  intros H. rewrite int_short.
  - now rewrite digits_value_str by lia.
  - apply str_run.
  - pose proof (str_digits_length (S (Z.to_nat n)) n 3
                  ltac:(change (10 ^ Z.of_nat 4)%Z with 10000%Z; lia)) as L.
    unfold str, int_max_str_digits. lia.
Qed.

Lemma run_of_inv cls s :
  run_of cls s = true -> s <> "" /\ forall_chars cls s = true.
Proof.
  unfold run_of. intros H. apply andb_true_iff in H as [H1 H2].
  split; [now destruct s | exact H2].
Qed.

Lemma run_of_append cls a b :
  forall_chars cls a = true -> run_of cls b = true -> run_of cls (a ++ b) = true.
Proof.
  intros Ha Hb. apply run_of_inv in Hb as [Hne Hb]. apply run_of_intro.
  - destruct a; [assumption | discriminate].
  - rewrite forall_chars_append, Ha, Hb. reflexivity.
Qed.

Lemma run_of_append_l cls a b :
  run_of cls a = true -> forall_chars cls b = true -> run_of cls (a ++ b) = true.
Proof.
  intros Ha Hb. apply run_of_inv in Ha as [Hne Ha]. apply run_of_intro.
  - destruct a; [congruence | discriminate].
  - rewrite forall_chars_append, Ha, Hb. reflexivity.
Qed.

Lemma forall_chars_weaken (p q : ascii -> bool) (s : string) :
  (forall c, p c = true -> q c = true) ->
  forall_chars p s = true -> forall_chars q s = true.
Proof.
  intros Hpq. induction s as [|c s IH]; cbn [forall_chars]; [reflexivity |].
  intros H. apply andb_true_iff in H as [Hc Hs].
  now rewrite (Hpq c Hc), IH.
Qed.

Lemma run_of_weaken (p q : ascii -> bool) (s : string) :
  (forall c, p c = true -> q c = true) ->
  run_of p s = true -> run_of q s = true.
Proof.
  intros Hpq H. apply run_of_inv in H as [Hne H].
  apply run_of_intro; [assumption |]. now apply (forall_chars_weaken p q).
Qed.

Lemma fill_chars (cls : ascii -> bool) (c : ascii) (n : nat) :
  cls c = true -> forall_chars cls (fill c n) = true.
Proof.
  intros H. induction n as [|n IH]; cbn [fill forall_chars];
    [reflexivity |]. now rewrite H, IH.
Qed.

Lemma digit_is_word c : is_digit c = true -> is_word c = true.
Proof. unfold is_word. now intros ->. Qed.

Lemma digit_is_ip c : is_digit c = true -> ip_char c = true.
Proof. unfold ip_char. now intros ->. Qed.

Lemma digit_is_timestamp c : is_digit c = true -> timestamp_char c = true.
Proof. unfold timestamp_char. now intros ->. Qed.

Lemma mem_forallb (P : string -> bool) (x : string) (l : list string) :
  forallb P l = true -> mem x l = true -> P x = true.
Proof.
  intros Hall Hx. unfold mem in Hx.
  apply existsb_exists in Hx as (y & Hy & E). apply String.eqb_eq in E.
  subst y. rewrite forallb_forall in Hall. now apply Hall.
Qed.

(** A field padded to a width, followed by the space of the separator:
    the field, then a run of spaces. *)
Lemma ljust_then_space (width : nat) (s rest : string) :
  ljust width s ++ " | " ++ rest
  = s ++ (fill " " (width - String.length s) ++ " ") ++ "| " ++ rest.
Proof. unfold ljust. now rewrite !append_assoc. Qed.

Lemma padding_run (n : nat) : run_of is_space (fill " " n ++ " ") = true.
Proof.
  apply run_of_append; [apply fill_chars; reflexivity | reflexivity].
Qed.

Lemma zfill_digits (width : nat) (n : Z) :
  run_of is_digit (zfill width n) = true.
Proof.
  unfold zfill. apply run_of_append; [apply fill_chars; reflexivity |].
  apply str_run.
Qed.

Lemma strftime_ms_run (t : datetime) :
  run_of timestamp_char (strftime_ms t) = true.
Proof.
  unfold strftime_ms.
  assert (Z : forall w n, run_of timestamp_char (zfill w n) = true).
  { intros w n. apply (run_of_weaken is_digit); [apply digit_is_timestamp |].
    apply zfill_digits. }
  assert (A : forall w n sep rest,
             timestamp_char sep = true ->
             run_of timestamp_char rest = true ->
             run_of timestamp_char (zfill w n ++ String sep rest) = true).
  { intros w n sep rest Hsep Hrest. apply run_of_append.
    - specialize (Z w n). apply run_of_inv in Z. tauto.
    - apply run_of_inv in Hrest as [_ Hrest]. unfold run_of.
      cbn [nonempty forall_chars]. now rewrite Hsep, Hrest. }
  repeat (apply A; [reflexivity |]). apply Z.
Qed.

Lemma line_of_fields (now : datetime) (d : Draws) :
  line_of (fields_of now d) = generate_log_entry now d.
Proof.
  unfold line_of, fields_of, generate_log_entry.
  cbn [f_timestamp f_level pad_level f_service pad_service f_user_id
       f_ip_address pad_ip_address f_response_time f_message].
  rewrite !ljust_then_space. reflexivity.
Qed.

Lemma ipv4_run (ip : Z * Z * Z * Z) : run_of ip_char (ipv4 ip) = true.
Proof.
  destruct ip as [[[a b] c] e]. unfold ipv4.
  assert (S : forall n, run_of ip_char (str n) = true).
  { intros n. apply (run_of_weaken is_digit); [apply digit_is_ip |].
    apply str_run. }
  assert (A : forall n rest,
             run_of ip_char rest = true ->
             run_of ip_char (str n ++ "." ++ rest) = true).
  { intros n rest Hrest. apply run_of_append.
    - specialize (S n). apply run_of_inv in S. tauto.
    - apply run_of_inv in Hrest as [_ Hrest]. unfold run_of.
      cbn [append nonempty forall_chars]. now rewrite Hrest. }
  repeat apply A. apply S.
Qed.

Lemma user_id_run (d : Draws) : run_of is_word (user_id_of d) = true.
Proof.
  unfold user_id_of. apply run_of_append; [reflexivity |].
  apply (run_of_weaken is_digit); [apply digit_is_word | apply str_run].
Qed.

Lemma possible_message (d : Draws) :
  possible d = true -> mem (d_message d) (error_messages ++ info_messages) = true.
Proof.
  unfold possible. destruct (d_ip d) as [[[a b] c] e].
  intros H. repeat (apply andb_true_iff in H as [H ?]).
  unfold mem in *. rewrite existsb_app.
  destruct (existsb (String.eqb (d_level d)) ["ERROR"; "CRITICAL"]);
    match goal with
    | G : _ && _ = true |- _ => apply andb_true_iff in G as [G _]; rewrite G
    end; [reflexivity | apply orb_true_r].
Qed.

(** The fields of a possible entry are well formed. *)
Lemma possible_fields_well_formed (now : datetime) (d : Draws) :
  possible d = true -> well_formed (fields_of now d) = true.
Proof.
  intros H. pose proof (possible_message d H) as Hm.
  unfold possible in H. destruct (d_ip d) as [[[a b] c] e] eqn:Eip.
  repeat (apply andb_true_iff in H as [H ?]).
  unfold well_formed, fields_of.
  cbn [f_timestamp f_level pad_level f_service pad_service f_user_id
       f_ip_address pad_ip_address f_response_time f_message].
  rewrite strftime_ms_run, !padding_run, user_id_run, ipv4_run, str_run.
  rewrite (mem_forallb (run_of is_word) (d_level d) log_levels eq_refl)
    by assumption.
  rewrite (mem_forallb (run_of is_word) (d_service d) services eq_refl)
    by assumption.
  rewrite (mem_forallb (run_of not_newline) (d_message d)
             (error_messages ++ info_messages) eq_refl) by assumption.
  reflexivity.
Qed.

Lemma possible_response_time (d : Draws) :
  possible d = true -> (0 <= d_response_time d <= 9999)%Z.
Proof.
  unfold possible. destruct (d_ip d) as [[[a b] c] e].
  intros H. repeat (apply andb_true_iff in H as [H ?]).
  destruct (mem (d_level d) ["ERROR"; "CRITICAL"]);
    match goal with
    | G : _ && _ = true |- _ =>
        apply andb_true_iff in G as [_ G]; unfold within in G;
        apply andb_true_iff in G as [G G']; apply Z.leb_le in G;
        apply Z.leb_le in G'
    end; lia.
Qed.

(** ** The shape of an entry *)

Lemma printable_not_newline c : printable c = true -> not_newline c = true.
Proof. intros H. unfold printable in H. class_arith. Qed.

Lemma printable_not_CR c :
  printable c = true -> negb (Ascii.eqb c CR) = true.
Proof.
  intros H. apply negb_true_iff, Ascii.eqb_neq. intros ->. discriminate H.
Qed.

Lemma timestamp_printable c : timestamp_char c = true -> printable c = true.
Proof.
  intros H. unfold printable, between. apply andb_true_iff.
  split; apply Nat.leb_le; class_arith.
Qed.

Lemma ip_printable c : ip_char c = true -> printable c = true.
Proof.
  intros H. unfold printable, between. apply andb_true_iff.
  split; apply Nat.leb_le; class_arith.
Qed.

Lemma digit_printable c : is_digit c = true -> printable c = true.
Proof.
  intros H. unfold printable, between. apply andb_true_iff.
  split; apply Nat.leb_le; class_arith.
Qed.

Lemma run_chars cls s : run_of cls s = true -> forall_chars cls s = true.
Proof. intros H. now apply run_of_inv in H. Qed.

Lemma entry_printable (now : datetime) (d : Draws) :
  possible d = true -> forall_chars printable (generate_log_entry now d) = true.
Proof.
  intros H. pose proof (possible_message d H) as Hm.
  unfold possible in H. destruct (d_ip d) as [[[a b] c] e] eqn:Eip.
  repeat (apply andb_true_iff in H as [H ?]).
  unfold generate_log_entry, ljust.
  repeat rewrite forall_chars_append.
  rewrite (forall_chars_weaken _ _ _ timestamp_printable
             (run_chars _ _ (strftime_ms_run now))).
  rewrite (mem_forallb (forall_chars printable) (d_level d)
             log_levels eq_refl ltac:(assumption)).
  rewrite (mem_forallb (forall_chars printable) (d_service d)
             services eq_refl ltac:(assumption)).
  unfold user_id_of. rewrite forall_chars_append.
  change (forall_chars printable "USER_") with true.
  rewrite (forall_chars_weaken _ _ _ digit_printable
             (run_chars _ _ (str_run (d_user d)))).
  rewrite (forall_chars_weaken _ _ _ ip_printable
             (run_chars _ _ (ipv4_run (d_ip d)))).
  rewrite (forall_chars_weaken _ _ _ digit_printable
             (run_chars _ _ (str_run (d_response_time d)))).
  rewrite (run_chars _ _ (mem_forallb (run_of printable) (d_message d)
                            (error_messages ++ info_messages) eq_refl Hm)).
  rewrite !fill_chars by reflexivity. reflexivity.
Qed.

Lemma rstrip_spaces (t : string) :
  forall_chars is_space t = true -> rstrip t = "".
Proof.
  induction t as [|c t IH]; cbn [forall_chars rstrip]; [reflexivity |].
  intros H. apply andb_true_iff in H as [Hc Ht]. now rewrite (IH Ht), Hc.
Qed.

Lemma rstrip_append_spaces (s t : string) :
  forall_chars is_space t = true -> rstrip (s ++ t) = rstrip s.
Proof.
  intros Ht. induction s as [|c s IH]; cbn [append rstrip].
  - now apply rstrip_spaces.
  - now rewrite IH.
Qed.

Lemma rstrip_append (p m : string) :
  m <> "" -> rstrip m = m -> rstrip (p ++ m) = p ++ m.
Proof.
  intros Hne Hm. induction p as [|c p IH]; cbn [append rstrip];
    [exact Hm |].
  rewrite IH. destruct (p ++ m) eqn:E; [| reflexivity].
  destruct p; [cbn in E; congruence | discriminate E].
Qed.

(** An entry has no white space at its ends. *)
Lemma strip_entry_line (now : datetime) (d : Draws) :
  possible d = true ->
  strip (generate_log_entry now d ++ String LF "") = generate_log_entry now d.
Proof.
  intros H. pose proof (possible_message d H) as Hm.
  unfold strip.
  assert (Hl : lstrip (generate_log_entry now d ++ String LF "")
               = generate_log_entry now d ++ String LF "").
  { unfold generate_log_entry, lstrip, strftime_ms.
    pose proof (zfill_digits 4 (year now)) as Hz.
    destruct (zfill 4 (year now)) as [|c r] eqn:Ez; [discriminate Hz |].
    unfold run_of in Hz. cbn [nonempty forall_chars] in Hz.
    apply andb_true_iff in Hz as [_ Hz].
    apply andb_true_iff in Hz as [Hc _].
    assert (Hsp : is_space c = false) by class_arith.
    cbn [append span_len]. rewrite Hsp. reflexivity. }
  rewrite Hl, rstrip_append_spaces by reflexivity.
  unfold generate_log_entry.
  rewrite <- !append_assoc. apply rstrip_append.
  - pose proof (mem_forallb nonempty (d_message d)
                  (error_messages ++ info_messages) eq_refl Hm) as Hn.
    destruct (d_message d); [discriminate Hn | discriminate].
  - apply String.eqb_eq.
    exact (mem_forallb (fun m => String.eqb (rstrip m) m) (d_message d)
             (error_messages ++ info_messages) eq_refl Hm).
Qed.

Lemma universal_newlines_id (s : string) :
  Tailing.no_CR s = true -> universal_newlines s = s.
Proof.
  unfold Tailing.no_CR.
  induction s as [|c s IH]; cbn [forall_chars universal_newlines];
    [reflexivity |].
  intros H. apply andb_true_iff in H as [Hc Hs].
  apply negb_true_iff in Hc. rewrite Hc. now rewrite IH.
Qed.

Section RoundTrip.

Variable strptime : string -> result datetime.

Lemma parse_generated (now : datetime) (d : Draws) (ts ingested : datetime) :
  possible d = true ->
  strptime (strftime_ms now) = Ok ts ->
  parse_log_line strptime ingested (generate_log_entry now d)
  = Ok (Some (doc_of_entry ts d ingested)).
Proof.
  intros Hd Hts. rewrite <- line_of_fields.
  pose proof (possible_fields_well_formed now d Hd) as Hwf.
  rewrite (ParsingFacts.parse_log_line_groups strptime ingested _ _ _ _ _ _ _ _
             (re_match_line_of _ Hwf)).
  cbn [fields_of f_timestamp f_level f_service f_user_id f_ip_address
       f_response_time f_message].
  rewrite Hts. cbn [bind]. unfold doc_of_entry.
  now rewrite (int_str _ (possible_response_time d Hd)).
Qed.

(** X17.  The parser reads back what the generator writes: for every
    entry that [generate_log_entry] can produce, whatever the random
    choices, if [strptime] accepts the time that [strftime] wrote, then
    [parse_log_line] returns a document with the level, service, user id,
    IP address, response time and message that were chosen. *)
Theorem generated_entry_is_parsed_back (now : datetime) (d : Draws)
    (ts ingested : datetime) :
  possible d = true ->
  strptime (strftime_ms now) = Ok ts ->
  parse_log_line strptime ingested (generate_log_entry now d)
  = Ok (Some (doc_of_entry ts d ingested)).
Proof.
  intros Hd Hts. now apply parse_generated.
Qed.

Lemma parse_loop_nonblank (w : World) (l : string) (ls : list string)
    (i : nat) (acc : list LogDoc) :
  strip l <> "" ->
  parse_loop strptime w i (l :: ls) acc
  = (parsed_log <- parse_log_line strptime (now w i) (strip l) ;;
     match parsed_log with
     | Some doc => parse_loop strptime w (S i) ls (acc ++ [doc])
     | None => parse_loop strptime w (S i) ls acc
     end).
Proof.
  intros H. cbn [parse_loop]. destruct (strip l); [congruence | reflexivity].
Qed.

Lemma entry_nonempty (e : datetime * Draws) : entry_of e <> "".
Proof.
  unfold entry_of, generate_log_entry.
  pose proof (strftime_ms_run (fst e)) as H.
  destruct (strftime_ms (fst e)); [discriminate H | discriminate].
Qed.

(** The loop over the lines of a batch. *)
Lemma parse_loop_batch (stamp : datetime -> datetime) (w : World)
    (batch : list (datetime * Draws)) :
  Forall (fun e => possible (snd e) = true
                   /\ strptime (strftime_ms (fst e)) = Ok (stamp (fst e)))
    batch ->
  forall i acc,
    parse_loop strptime w i
      (map (fun e => entry_of e ++ String LF "") batch) acc
    = Ok (acc ++ docs_of_batch stamp (now w) i batch)%list.
Proof.
  induction 1 as [|[t d] batch [Hd Hts] Hall IH]; intros i acc.
  - cbn. now rewrite app_nil_r.
  - cbn [map]. cbn [fst snd] in Hd, Hts.
    assert (Hs : strip (entry_of (t, d) ++ String LF "") = entry_of (t, d))
      by (apply (strip_entry_line t d Hd)).
    rewrite parse_loop_nonblank by (rewrite Hs; apply entry_nonempty).
    rewrite Hs. unfold entry_of at 1. cbn [fst snd].
    rewrite (parse_generated t d (stamp t) (now w i) Hd Hts). cbn [bind].
    rewrite IH. cbn [docs_of_batch]. now rewrite <- app_assoc.
Qed.

End RoundTrip.

(** ** The file that the generator writes *)

Lemma write_batch_join (content : string) (entries : list string) :
  write_batch content entries
  = content ++ Uploader.join (map (fun e => e ++ String LF "") entries).
Proof.
  revert content. induction entries as [|e es IH]; intros content;
    cbn [write_batch map Uploader.join fold_right].
  - now rewrite append_nil_r.
  - rewrite IH. fold (Uploader.join (map (fun e => e ++ String LF "") es)).
    now rewrite !append_assoc.
Qed.

Lemma complete_terminated (e : string) : complete (e ++ String LF "") = true.
Proof.
  induction e as [|c e IH]; [reflexivity |].
  cbn [append]. rewrite IngestionFacts.complete_cons; [exact IH |].
  destruct e; discriminate.
Qed.

Lemma split_terminated (e : string) :
  forall_chars not_newline e = true ->
  split_lines (e ++ String LF "") = [e ++ String LF ""].
Proof.
  induction e as [|c e IH]; [reflexivity |].
  cbn [forall_chars append split_lines]. intros H.
  apply andb_true_iff in H as [Hc He].
  replace (Ascii.eqb c LF) with false.
  - now rewrite (IH He).
  - symmetry. apply Ascii.eqb_neq. intros ->. discriminate Hc.
Qed.

Lemma split_lines_entries (entries : list string) :
  Forall (fun e => forall_chars not_newline e = true) entries ->
  split_lines (Uploader.join (map (fun e => e ++ String LF "") entries))
  = map (fun e => e ++ String LF "") entries.
Proof.
  induction 1 as [|e es He Hes IH]; [reflexivity |].
  cbn [map Uploader.join fold_right].
  fold (Uploader.join (map (fun e => e ++ String LF "") es)).
  rewrite IngestionFacts.split_lines_append by apply complete_terminated.
  now rewrite (split_terminated e He), IH.
Qed.

Lemma no_CR_entries (entries : list string) :
  Forall (fun e => forall_chars printable e = true) entries ->
  Tailing.no_CR (Uploader.join (map (fun e => e ++ String LF "") entries))
  = true.
Proof.
  unfold Tailing.no_CR.
  induction 1 as [|e es He Hes IH]; [reflexivity |].
  cbn [map Uploader.join fold_right].
  fold (Uploader.join (map (fun e => e ++ String LF "") es)).
  rewrite !forall_chars_append, IH.
  rewrite (forall_chars_weaken _ _ _ printable_not_CR He). reflexivity.
Qed.

(** The lines that a reader at the end of the old content finds after a
    batch was written. *)
Lemma readlines_batch (old : string) (batch : list (datetime * Draws)) :
  Forall (fun e => possible (snd e) = true) batch ->
  readlines (write_batch old (map entry_of batch)) (String.length old)
  = map (fun e => entry_of e ++ String LF "") batch.
Proof.
  intros H. unfold readlines. rewrite write_batch_join, drop_append.
  assert (Hp : Forall (fun e => forall_chars printable e = true)
                 (map entry_of batch)).
  { apply Forall_map. eapply Forall_impl; [| exact H].
    intros [t d] Hd. now apply entry_printable. }
  rewrite universal_newlines_id by now apply no_CR_entries.
  rewrite split_lines_entries.
  - now rewrite map_map.
  - eapply Forall_impl; [| exact Hp].
    intros e He. exact (forall_chars_weaken _ _ _ printable_not_newline He).
Qed.

Section EndToEnd.

Variable strptime : string -> result datetime.

(** X18.  What the generator writes, the ingestion stores: when a batch of
    entries of [generate_log_entry] was appended to the file, each
    followed by a line feed, and [strptime] accepts the times written, a
    cycle that starts at the end of the old content and whose write
    succeeds adds one document per entry, in the order of the entries and
    with the values chosen for them, prints their number, and leaves
    [last_position] at the end of the file. *)
Theorem generated_batch_is_ingested (stamp : datetime -> datetime)
    (w : World) (self : LogIngestion) (old : string)
    (batch : list (datetime * Draws)) :
  batch <> [] ->
  Forall (fun e => possible (snd e) = true
                   /\ strptime (strftime_ms (fst e)) = Ok (stamp (fst e)))
    batch ->
  log_file w = Some (write_batch old (map entry_of batch)) ->
  last_position self = String.length old ->
  store w = WriteOk ->
  ingest_logs strptime w self
  = (mkLogIngestion
       (collection self ++ docs_of_batch stamp (now w) 0 batch)
       (String.length (write_batch old (map entry_of batch))),
     [Ingested (List.length batch)]).
Proof.
  intros Hne Hall Hf Hpos Hst.
  rewrite (CycleFacts.ingest_logs_cases strptime w self _ Hf).
  rewrite Hpos, readlines_batch
    by (eapply Forall_impl; [| exact Hall]; intros e [He _]; exact He).
  rewrite (parse_loop_batch strptime stamp w batch Hall). cbn [app].
  assert (Hlen : forall i, List.length (docs_of_batch stamp (now w) i batch)
                           = List.length batch).
  { clear. induction batch as [|[t d] b IH]; intros i; cbn; [reflexivity |].
    now rewrite IH. }
  assert (Htell : tell (write_batch old (map entry_of batch))
                    (String.length old)
                  = String.length (write_batch old (map entry_of batch))).
  { unfold tell. rewrite write_batch_join, length_append. lia. }
  destruct (docs_of_batch stamp (now w) 0 batch) as [|d ds] eqn:Ed.
  - specialize (Hlen 0%nat). rewrite Ed in Hlen.
    destruct batch; [congruence | discriminate Hlen].
  - rewrite Hst, Htell. rewrite <- (Hlen 0%nat), Ed. reflexivity.
Qed.

End EndToEnd.


(** X17, on an entry of level INFO. *)
Lemma generated_entry_is_parsed_back_witness :
  parse_log_line PyDatetime.strptime Samples.clock
    (generate_log_entry Examples.login_time Examples.login)
  = Ok (Some (doc_of_entry Examples.login_time Examples.login Samples.clock)).
Proof.
  apply (generated_entry_is_parsed_back PyDatetime.strptime
           Examples.login_time Examples.login Examples.login_time
           Samples.clock).
  - reflexivity.
  - vm_compute. reflexivity.
Defined.

(** X18, on a batch of two entries written after a marker. *)
Lemma generated_batch_is_ingested_witness :
  let content :=
    write_batch Examples.marker (map entry_of Examples.batch) in
  ingest_logs PyDatetime.strptime (Samples.world content WriteOk)
    (mkLogIngestion [] (String.length Examples.marker))
  = (mkLogIngestion
       [doc_of_entry Examples.login_time Examples.login Samples.clock;
        doc_of_entry Examples.timeout_time Examples.timeout Samples.clock]
       (String.length content),
     [Ingested 2]).
Proof.
  apply (generated_batch_is_ingested PyDatetime.strptime (fun t => t)
           (Samples.world
              (write_batch Examples.marker (map entry_of Examples.batch))
              WriteOk)
           (mkLogIngestion [] (String.length Examples.marker))
           Examples.marker Examples.batch).
  - discriminate.
  - repeat constructor; vm_compute; reflexivity.
  - reflexivity.
  - reflexivity.
  - reflexivity.
Defined.

End GeneratorFacts.


(** * The upload to HDFS *)

Module UploaderFacts.
Import Text Ingestion TextFacts IngestionFacts Tailing Uploader.
Import ListNotations.
Local Open Scope string_scope.

Lemma take_nil (k : nat) : take k "" = "".
Proof. now destruct k. Qed.

Lemma tell_idempotent (content : string) (pos : nat) :
  tell content (tell content pos) = tell content pos.
Proof. unfold tell. lia. Qed.

(** The state after one turn, whatever the outcome of the append. *)
Lemma upload_once_state (site : Site) (st : Upload) (content : string) :
  local_log site = Some content ->
  fst (upload_once site st)
  = mkUpload
      (hdfs_file st
       ++ match hdfs_append site with
          | AppendOk => universal_newlines (drop (up_position st) content)
          | AppendFails k =>
              take k (universal_newlines (drop (up_position st) content))
          end)
      (tell content (up_position st)).
Proof.
  intros Hf. unfold upload_once. rewrite Hf.
  pose proof (TailingFacts.join_split_lines
                (universal_newlines (drop (up_position st) content))) as Hj.
  fold (readlines content (up_position st)) in Hj.
  destruct (readlines content (up_position st)) as [|l ls] eqn:E.
  - cbn [join fold_right] in Hj. rewrite <- Hj. cbn [fst].
    destruct (hdfs_append site); now rewrite ?take_nil, append_nil_r.
  - rewrite <- Hj. now destruct (hdfs_append site).
Qed.

Lemma upload_once_idle (site : Site) (st : Upload) (content : string) :
  local_log site = Some content ->
  (String.length content <= up_position st)%nat ->
  upload_once site st = (st, NoNewLines).
Proof.
  intros Hf Hpos. unfold upload_once. rewrite Hf.
  rewrite (readlines_beyond _ _ Hpos).
  unfold tell. rewrite Nat.max_l by exact Hpos. now destruct st.
Qed.

(** X19.  A turn whose append succeeds adds to the HDFS file exactly the
    text of the local file after the position, with its line ends
    translated, and moves the position to the end of the local file (or
    leaves it, when the file is shorter than the position). *)
Theorem upload_appends_the_unread_text (site : Site) (st : Upload)
    (content : string) :
  local_log site = Some content ->
  hdfs_append site = AppendOk ->
  hdfs_file (fst (upload_once site st))
  = hdfs_file st ++ universal_newlines (drop (up_position st) content)
  /\ up_position (fst (upload_once site st))
     = Nat.max (up_position st) (String.length content).
Proof.
  intros Hf Hok. rewrite (upload_once_state site st content Hf), Hok.
  split; reflexivity.
Qed.

(** X20.  The HDFS file stays a copy of the local file: when it holds the
    local content and the position is at its end, and a text without
    carriage returns is appended to the local file, a turn whose append
    succeeds makes it hold the new content, with the position at its
    end. *)
Theorem upload_keeps_the_mirror (site : Site) (st : Upload)
    (content appended : string) :
  mirrors content st ->
  no_CR appended = true ->
  local_log site = Some (content ++ appended) ->
  hdfs_append site = AppendOk ->
  mirrors (content ++ appended) (fst (upload_once site st)).
Proof.
  intros [Hh Hp] Hcr Hf Hok.
  rewrite (upload_once_state site st _ Hf), Hok, Hh, Hp.
  unfold mirrors. cbn [hdfs_file up_position].
  rewrite drop_append, (GeneratorFacts.universal_newlines_id _ Hcr).
  split; [reflexivity |].
  unfold tell. rewrite length_append. lia.
Qed.

(** X21.  Lines whose upload failed are not uploaded again: the position
    is moved before the append, so after a turn whose append raised when
    [k] characters were written, the HDFS file has these [k] characters
    only, and the turns that follow on the same local file find no new
    lines and leave the HDFS file as it is, whatever their append would
    do. *)
Theorem failed_upload_is_not_retried (site : Site) (st : Upload)
    (content : string) (k : nat) (later : list Site) :
  local_log site = Some content ->
  hdfs_append site = AppendFails k ->
  Forall (fun s => local_log s = Some content) later ->
  hdfs_file (fst (upload_once site st))
  = hdfs_file st
    ++ take k (universal_newlines (drop (up_position st) content))
  /\ upload_loop later (fst (upload_once site st))
     = fst (upload_once site st)
  /\ Forall (fun s => snd (upload_once s (fst (upload_once site st)))
                      = NoNewLines) later.
Proof.
  intros Hf Hfail Hlater.
  rewrite (upload_once_state site st content Hf), Hfail.
  split; [reflexivity |].
  set (st1 := mkUpload _ _).
  assert (Hpos : (String.length content <= up_position st1)%nat)
    by (unfold st1, tell; cbn [up_position]; lia).
  clearbody st1.
  induction Hlater as [|s later Hs Hl [IH1 IH2]]; [split; constructor |].
  cbn [upload_loop]. rewrite (upload_once_idle s st1 content Hs Hpos).
  split; [exact IH1 | constructor; [| exact IH2]].
  now rewrite (upload_once_idle s st1 content Hs Hpos).
Qed.


(** X19, on a local file of two lines of which the first was uploaded. *)
Lemma upload_appends_the_unread_text_witness :
  let site := mkSite (Some (Examples.marker ++ Examples.marker)) AppendOk in
  let st := mkUpload Examples.marker (String.length Examples.marker) in
  hdfs_file (fst (upload_once site st))
  = Examples.marker
    ++ universal_newlines
         (drop (String.length Examples.marker)
            (Examples.marker ++ Examples.marker))
  /\ up_position (fst (upload_once site st))
     = Nat.max (String.length Examples.marker)
         (String.length (Examples.marker ++ Examples.marker)).
Proof.
  apply (upload_appends_the_unread_text
           (mkSite (Some (Examples.marker ++ Examples.marker)) AppendOk)
           (mkUpload Examples.marker (String.length Examples.marker))
           (Examples.marker ++ Examples.marker)); reflexivity.
Defined.

(** X20, on a mirrored line to which two lines are appended. *)
Lemma upload_keeps_the_mirror_witness :
  mirrors (Examples.marker ++ Examples.mixed_file)
    (fst (upload_once
            (mkSite (Some (Examples.marker ++ Examples.mixed_file)) AppendOk)
            (mkUpload Examples.marker (String.length Examples.marker)))).
Proof.
  apply (upload_keeps_the_mirror
           (mkSite (Some (Examples.marker ++ Examples.mixed_file)) AppendOk)
           (mkUpload Examples.marker (String.length Examples.marker))
           Examples.marker Examples.mixed_file).
  - split; reflexivity.
  - vm_compute. reflexivity.
  - reflexivity.
  - reflexivity.
Defined.

(** X21, on an append that raises at once, followed by two turns whose
    append would succeed. *)
Lemma failed_upload_is_not_retried_witness :
  let site := mkSite (Some Examples.mixed_file) (AppendFails 0) in
  let later := repeat (mkSite (Some Examples.mixed_file) AppendOk) 2 in
  let st := mkUpload "" 0 in
  hdfs_file (fst (upload_once site st))
  = hdfs_file st
    ++ take 0 (universal_newlines (drop (up_position st) Examples.mixed_file))
  /\ upload_loop later (fst (upload_once site st))
     = fst (upload_once site st)
  /\ Forall (fun s => snd (upload_once s (fst (upload_once site st)))
                      = NoNewLines) later.
Proof.
  apply (failed_upload_is_not_retried
           (mkSite (Some Examples.mixed_file) (AppendFails 0))
           (mkUpload "" 0) Examples.mixed_file 0
           (repeat (mkSite (Some Examples.mixed_file) AppendOk) 2)).
  - reflexivity.
  - reflexivity.
  - repeat constructor.
Defined.

End UploaderFacts.


(* ================================================================== *)
(** * The time format of the generator and of the ingestion *)

Module TimeFacts.
Import Text PyDatetime Generator Times TextFacts.
Local Open Scope string_scope.
Local Open Scope Z_scope.

Lemma below_all (P : Z -> bool) (N : Z) :
  forallb P (below N) = true ->
  forall n, 0 <= n < N -> P n = true.
Proof.
  intros H n Hn. rewrite forallb_forall in H. apply H.
  unfold below. rewrite <- (Z2Nat.id n) by lia.
  apply in_map, in_seq. lia.
Qed.

(** What a reader finds in a string it finds when a text follows. *)
Lemma read_field_app (ok2 : Z -> Z -> bool) (ok1 : Z -> bool)
    (s r : string) (v : Z) :
  read_field ok2 ok1 s = Some (v, "") -> String.length s = 2%nat ->
  read_field ok2 ok1 (s ++ r) = Some (v, r).
Proof.
  destruct s as [|a [|b [|c s]]]; try discriminate. intros H _.
  cbn [read_field append] in *.
  destruct (digit a) as [x|]; [| discriminate].
  destruct (digit b) as [y|].
  - destruct (ok2 x y).
    + injection H as <-. reflexivity.
    + destruct (ok1 x); discriminate.
  - destruct (ok1 x); discriminate.
Qed.

Lemma read_day_app (s r : string) (v : Z) :
  read_day s = Some (v, "") -> String.length s = 2%nat ->
  read_day (s ++ r) = Some (v, r).
Proof.
  destruct s as [|a [|b [|c s]]]; try discriminate. intros H _.
  change ((String a (String b "") ++ r)%string) with (String a (String b r)).
  unfold read_day in *. destruct (is_char " " a).
  - destruct (digit b) as [y|]; [| discriminate].
    destruct (1 <=? y); [| discriminate]. injection H as <-. reflexivity.
  - now apply (read_field_app _ _ (String a (String b "")) r v).
Qed.

Lemma reads_back_app (read : string -> option (Z * string)) (width : nat)
    (scale n : Z) :
  reads_back read width scale n = true ->
  read (zfill width n) = Some (n * scale, "")
  /\ String.length (zfill width n) = width.
Proof.
  unfold reads_back.
  destruct (read (zfill width n)) as [[v [|c s]]|]; try discriminate.
  intros H. apply andb_true_iff in H as [Hv Hl].
  apply Z.eqb_eq in Hv. apply Nat.eqb_eq in Hl. now subst.
Qed.

(** Each field of a time is read back from its digits. *)
Lemma month_bounded :
  forallb (fun n => (n <? 1) || reads_back read_month 2 1 n) (below 13)
  = true.
Proof. vm_compute. reflexivity. Qed.

Lemma day_bounded :
  forallb (fun n => (n <? 1) || reads_back read_day 2 1 n) (below 32) = true.
Proof. vm_compute. reflexivity. Qed.

Lemma hour_bounded :
  forallb (reads_back read_hour 2 1) (below 24) = true.
Proof. vm_compute. reflexivity. Qed.

Lemma minute_bounded :
  forallb (reads_back read_minute 2 1) (below 60) = true.
Proof. vm_compute. reflexivity. Qed.

Lemma second_bounded :
  forallb (reads_back read_second 2 1) (below 60) = true.
Proof. vm_compute. reflexivity. Qed.

Lemma fraction_bounded :
  forallb (reads_back read_fraction 3 1000) (below 1000) = true.
Proof. vm_compute. reflexivity. Qed.

Lemma str_four (y : Z) : 1000 <= y <= 9999 -> String.length (str y) = 4%nat.
Proof.
  intros H. unfold str.
  destruct (Z.to_nat y) as [|[|[|k]]] eqn:E; try lia.
  pose proof (Z.div_mod y 10 ltac:(lia)) as D1.
  pose proof (Z.mod_pos_bound y 10 ltac:(lia)) as M1.
  pose proof (Z.div_mod (y / 10) 10 ltac:(lia)) as D2.
  pose proof (Z.mod_pos_bound (y / 10) 10 ltac:(lia)) as M2.
  pose proof (Z.div_mod (y / 10 / 10) 10 ltac:(lia)) as D3.
  pose proof (Z.mod_pos_bound (y / 10 / 10) 10 ltac:(lia)) as M3.
  cbn [str_digits].
  destruct (Z.ltb_spec y 10); [lia |].
  destruct (Z.ltb_spec (y / 10) 10); [lia |].
  destruct (Z.ltb_spec (y / 10 / 10) 10); [lia |].
  destruct (Z.ltb_spec (y / 10 / 10 / 10) 10); [| lia].
  rewrite !length_append. reflexivity.
Qed.

Lemma read_year_digits (s r : string) :
  String.length s = 4%nat -> forall_chars is_digit s = true ->
  read_year (s ++ r) = Some (digits_value s, r).
Proof.
  destruct s as [|a [|b [|c [|d [|e s]]]]]; try discriminate. intros _ H.
  cbn [forall_chars] in H.
  repeat (apply andb_true_iff in H as [? H]).
  cbn [read_year append]. unfold digit, digits_value.
  repeat match goal with G : is_digit _ = true |- _ => rewrite G; clear G end.
  cbn [int_acc]. do 2 f_equal. lia.
Qed.

Lemma read_year_zfill (y : Z) (r : string) :
  1000 <= y <= 9999 -> read_year (zfill 4 y ++ r) = Some (y, r).
Proof.
  intros H. unfold zfill. rewrite (str_four y H).
  cbn [Nat.sub fill append].
  rewrite read_year_digits.
  - rewrite GeneratorFacts.digits_value_str by lia. reflexivity.
  - now apply str_four.
  - apply GeneratorFacts.run_chars, GeneratorFacts.str_run.
Qed.

Lemma read_month_zfill (m : Z) (r : string) :
  1 <= m <= 12 -> read_month (zfill 2 m ++ r) = Some (m, r).
Proof.
  intros H. pose proof (below_all _ _ month_bounded m ltac:(lia)) as B.
  cbv beta in B. apply orb_true_iff in B as [B | B];
    [apply Z.ltb_lt in B; lia |].
  apply reads_back_app in B as [B L]. rewrite Z.mul_1_r in B.
  now apply read_field_app.
Qed.

Lemma read_day_zfill (d : Z) (r : string) :
  1 <= d <= 31 -> read_day (zfill 2 d ++ r) = Some (d, r).
Proof.
  intros H. pose proof (below_all _ _ day_bounded d ltac:(lia)) as B.
  cbv beta in B. apply orb_true_iff in B as [B | B];
    [apply Z.ltb_lt in B; lia |].
  apply reads_back_app in B as [B L]. rewrite Z.mul_1_r in B.
  now apply read_day_app.
Qed.

Lemma read_hour_zfill (h : Z) (r : string) :
  0 <= h <= 23 -> read_hour (zfill 2 h ++ r) = Some (h, r).
Proof.
  intros H. pose proof (below_all _ _ hour_bounded h ltac:(lia)) as B.
  apply reads_back_app in B as [B L]. rewrite Z.mul_1_r in B.
  now apply read_field_app.
Qed.

Lemma read_minute_zfill (m : Z) (r : string) :
  0 <= m <= 59 -> read_minute (zfill 2 m ++ r) = Some (m, r).
Proof.
  intros H. pose proof (below_all _ _ minute_bounded m ltac:(lia)) as B.
  apply reads_back_app in B as [B L]. rewrite Z.mul_1_r in B.
  now apply read_field_app.
Qed.

Lemma read_second_zfill (s : Z) (r : string) :
  0 <= s <= 59 -> read_second (zfill 2 s ++ r) = Some (s, r).
Proof.
  intros H. pose proof (below_all _ _ second_bounded s ltac:(lia)) as B.
  apply reads_back_app in B as [B L]. rewrite Z.mul_1_r in B.
  now apply read_field_app.
Qed.

Lemma read_fraction_zfill (ms : Z) :
  0 <= ms <= 999 -> read_fraction (zfill 3 ms) = Some (ms * 1000, "").
Proof.
  intros H. pose proof (below_all _ _ fraction_bounded ms ltac:(lia)) as B.
  now apply reads_back_app in B as [B _].
Qed.

Lemma expect_app (l r : string) : expect l (l ++ r) = Some r.
Proof.
  unfold expect. induction l as [|a l IH]; cbn [strip_prefix append].
  - now destruct r.
  - now rewrite Ascii.eqb_refl.
Qed.

(** No white space starts a text in which an hour is read. *)
Lemma no_space_before_field (ok2 : Z -> Z -> bool) (ok1 : Z -> bool)
    (s : string) (p : Z * string) :
  read_field ok2 ok1 s = Some p -> span_len is_space s = 0%nat.
Proof.
  destruct s as [|a s]; [reflexivity |]. cbn [read_field span_len].
  unfold digit. destruct (is_digit a) eqn:E; [| discriminate]. intros _.
  replace (is_space a) with false; [reflexivity |].
  symmetry. class_arith.
Qed.

Lemma read_spaces_one (s : string) :
  span_len is_space s = 0%nat -> read_spaces (" " ++ s) = Some s.
Proof.
  intros H. unfold read_spaces. cbn [append span_len].
  change (is_space " ") with true. cbv iota. rewrite H. reflexivity.
Qed.

Lemma days_in_month_le (y m : Z) : days_in_month y m <= 31.
Proof.
  unfold days_in_month.
  repeat match goal with
         | |- context [match ?x with _ => _ end] => destruct x
         end; lia.
Qed.

Lemma proper_bounds (t : datetime) :
  proper t = true ->
  1000 <= year t <= 9999 /\ 1 <= month t <= 12
  /\ 1 <= day t <= days_in_month (year t) (month t)
  /\ 0 <= hour t <= 23 /\ 0 <= minute t <= 59 /\ 0 <= second t <= 59
  /\ 0 <= microsecond t <= 999999.
Proof.
  unfold proper, valid. intros H.
  repeat (apply andb_true_iff in H as [H ?]).
  repeat match goal with
         | G : (_ <=? _) = true |- _ => apply Z.leb_le in G
         end.
  lia.
Qed.

(** The time that the generator writes, as the ingestion reads it. *)
Lemma strptime_strftime_ms (t : datetime) :
  proper t = true -> strptime (strftime_ms t) = Ok (to_ms t).
Proof.
  intros Hp.
  destruct (proper_bounds t Hp) as (HY & Hm & Hd & HH & HM & HS & Hf).
  pose proof (days_in_month_le (year t) (month t)) as Hdm.
  assert (Hms : 0 <= microsecond t / 1000 <= 999).
  { split; [apply Z.div_pos; lia |].
    apply Z.lt_succ_r. apply Z.div_lt_upper_bound; lia. }
  assert (Hscan : scan (strftime_ms t) = Some (to_ms t)).
  { unfold scan, strftime_ms.
    rewrite read_year_zfill by lia. cbv beta iota.
    rewrite expect_app.
    rewrite read_month_zfill by lia. cbv beta iota.
    rewrite expect_app.
    rewrite read_day_zfill by lia. cbv beta iota.
    rewrite read_spaces_one
      by (eapply no_space_before_field;
          apply (read_hour_zfill (hour t) _ HH)).
    rewrite (read_hour_zfill (hour t) _ HH). cbv beta iota.
    rewrite expect_app.
    rewrite read_minute_zfill by lia. cbv beta iota.
    rewrite expect_app.
    rewrite read_second_zfill by lia. cbv beta iota.
    rewrite expect_app.
    rewrite read_fraction_zfill by lia. reflexivity. }
  unfold strptime. rewrite Hscan.
  replace (valid (to_ms t)) with true; [reflexivity |].
  symmetry. unfold valid, to_ms.
  cbn [year month day hour minute second microsecond].
  pose proof (Z.mul_div_le (microsecond t) 1000 ltac:(lia)) as Hle.
  repeat (apply andb_true_iff; split); apply Z.leb_le; lia.
Qed.

(** X22.  The generator and the ingestion agree on the format of the
    time: for every time from the year 1000 on, what the generator writes
    with [strftime] and cuts to the millisecond is accepted by the
    [strptime] of the ingestion, which reads the same time with the
    microseconds rounded down to the millisecond. *)
Theorem generated_time_is_read_back (t : datetime) :
  proper t = true -> strptime (strftime_ms t) = Ok (to_ms t).
Proof. exact (strptime_strftime_ms t). Qed.

(** X22, on a time of the afternoon. *)
Lemma generated_time_is_read_back_witness :
  strptime (strftime_ms (mkDatetime 2024 2 29 17 5 9 987654))
  = Ok (mkDatetime 2024 2 29 17 5 9 987000).
Proof.
  apply (generated_time_is_read_back (mkDatetime 2024 2 29 17 5 9 987654)).
  reflexivity.
Defined.

End TimeFacts.
